(* ===== verification/_CoqProject ===== *)
-Q . S2P
Prelude.v
JsString.v
Float64.v
Encoding.v
NumberFormat.v
Domain.v
Eligibility.v
StableSort.v
ReviewQuery.v
Stats.v
ReviewList.v
ReviewForm.v
PageMachine.v
PageView.v
HomePage.v
Landing.v
HomeView.v
