(* ===== verification/Prelude.v ===== *)
(** * Community reviews of PoornaPrasan/ggg: a verification development

    The program.  [src/gggg/project/src/pages/citizen/CommunityPage.tsx] is
    a React page that shows community reviews of resolved complaints.  Its
    logic is a handful of pure computations re-run on every render, plus the
    event handlers of a "write a review" form:
    - the review collection, [generateReviews] (a fixed list of five mock
      reviews; the resolved complaints it filters are never used);
    - the eligibility list [userResolvedComplaints]: the current user's
      resolved complaints that the user has not reviewed yet;
    - the filter pipeline [filteredReviews] (search text, category, rating
      bucket) and the sort [sortedReviews] ([Array.prototype.sort] with a
      comparator chosen by [sortBy]);
    - the statistics [communityStats] (count, mean rating, helpful count,
      number of distinct categories), shown in a panel with
      [averageRating.toFixed(1)];
    - the form: React state cells ([useState]) changed by [onChange] and
      [onClick] callbacks, [handlePhotoUpload] (keeps at most 3 photos) and
      [handleWriteReview] (guards, logs the draft, resets the form);
    - display helpers: [renderStars], the empty-state message, the vote
      footer.
    The render ties them together: the panel, the modal (options, stars,
    photo counter, a Post button disabled by the same guard as the handler)
    and the filter bar read the state the callbacks change.
    [src/gggg/project/src/pages/HomePage.tsx] is a landing page whose logic
    is a mount effect that reveals the hero, a scroll listener that sets
    [statsAnimated] once, and the data arrays its sections map over; its
    counters' animation delays are [`${index * 0.2}s`], computed on doubles.

    The library (directory [verification/], logical root given in
    [_CoqProject]), in dependency order, with what its theorems show:
    - [Prelude] (this file): the notation scope [ggg_scope] ([===ₛ] for
      JavaScript's [===] on strings, [∈ₛ?] for boolean membership), the
      hint databases [ggg] and [ggg_bool], the tactic [bsimpl] that turns
      the boolean tests of the code into propositions, and generic lemmas on
      [List.filter], [existsb] and [firstn] shared by the components.
    - [JsString]: the JavaScript string primitives the page calls:
      [toLowerCase] (ASCII letters), [includes], [trim] and the falsiness of
      a string.  [includes] is proved equal to the substring relation,
      [toLowerCase] idempotent, and [!s.trim()] true exactly on whitespace.
    - [Float64]: JavaScript numbers as IEEE 754 binary64: a finite double
      is an integer [K] read as [K * 2^-1074], each operation rounds its
      exact result to nearest, ties to even ([roundK]), overflows to
      [Infinity] and yields [NaN] on [0/0].  The rounding lemmas
      ([roundPos_near], [roundPos_relative]) and the exactness of integer
      arithmetic below [2^53] ([ofZ_safe]) are shared by the components.
    - [Encoding]: UTF-8 and the Mac OS Roman character set, to read the
      bytes of the source text as the browser does; the misreading of
      UTF-8 as Mac OS Roman loses nothing ([repair_misread]).
    - [NumberFormat]: [Number::toString] (the shortest decimal that reads
      back as the same double, formatted by the steps of ECMA-262) and
      [Number.prototype.toFixed], with a [StringToNumber] parser.  Lemmas
      of the model of the runtime: the digit search succeeds within 17
      digits ([shortest_terminates]), what [toString] prints reads back as
      the same double ([toString_roundtrip]), and [toFixed] prints the
      nearest multiple of [10^-f] ([toFixed_round]).
    - [Domain]: the data: [Complaint.t] (the complaint context's type, from
      the spec), [User.t], [Review.t] (the page's [Review] interface; dates
      are [getTime()] milliseconds) and [generateReviews].
    - [Eligibility]: [userResolvedComplaints].  Membership is characterised
      exactly and the store's order is kept (C4); a new review by the user
      removes exactly the reviewed complaint (C5).
    - [StableSort]: [Array.prototype.sort] with a comparator
      [(a, b) => key(b) - key(a)] as a stable insertion sort, and the
      contract of a stable sort as a [Record] of laws ([StableSorter]).
      Every implementation of the contract returns the insertion sort's
      result ([stable_sorters_agree]), so the model does not depend on the
      engine's algorithm.
    - [ReviewQuery]: [filteredReviews] and [sortedReviews].  Exact
      characterisation of the filter (C6), the asymmetric rating buckets
      (C7), case-insensitive search and the neutral query (C14); the
      display order is a stable, idempotent sort by the chosen key (C8).
    - [Stats]: [communityStats] on doubles ([reduce] with [+], then [/]),
      the displayed [toFixed(1)] of the mean, and [renderStars].  Count,
      helpful count and distinct categories (C13); the mean is [NaN] on the
      empty list and otherwise the double nearest to the exact mean (C12);
      the display is the exact mean rounded half-up to tenths except at
      ties (C18), where it follows the binary value (4.35 shows 4.3 and 4.45
      shows 4.5, [averageText_ties]); for ratings 1 to 5 the printed tenths
      are always within half a tenth of the exact mean, between 1.0 and 5.0
      (C17); the filled stars (C15).
    - [ReviewList]: the rendered review list: one card per displayed review
      or the empty state (C11), and what a card shows ([reviewCard_spec]),
      including the vote footer that adds not-helpful votes to helpful ones.
    - [ReviewForm]: the page's [useState] cells as the record [PageState],
      one definition per callback.  [handleWriteReview] (C9) and
      [handlePhotoUpload] (C10) on every branch.
    - [PageMachine]: the page as a state machine over (complaint store,
      user, page state): [enabled] reads off the JSX which controls exist,
      which options each select offers and when the submit button is
      disabled; [dispatch] runs the callback; [ui_step] is the step relation
      and [runEvents] its executable counterpart ([run_iff_runEvents]).  The
      invariant holds in every reachable state (C2, by rule induction), and
      in those states [handleWriteReview] refines the validator the spec
      describes (C1).  Eligibility is not re-checked when the complaint
      store changes under an open form (C3).  The code records no
      submission: no event changes the reviews ([runEvents_keeps_reviews]),
      so one complaint can be submitted twice ([double_submission]).
    - [PageView]: the rendered page as a function of the machine's world:
      header, statistics panel, modal and filter bar.  In every reachable
      state the modal shows a valid selection, the first [rating] stars
      highlighted and a 0-3 photo counter (C20).  The Helpful and Not
      Helpful buttons have no click handler ([vote_clicks_change_nothing]).
    - [HomePage]: the landing page's scroll listener and its effect, with
      the closure's captured value and the cleanup, as a step relation;
      both flags are monotone (C16); the effect runs only while mounted.
    - [Landing]: the landing page's data arrays and the sections that render
      them; the hero is hidden exactly until the mount effect has run (C19);
      the counters' delays print as 0s, 0.2s, 0.4s and 0.6000000000000001s
      ([counter_delays]).
    - [HomeView]: the whole landing page as one document of sections (id,
      heading, subheading, body), one definition per [<section>], from
      [heroSection] to [footerSection].  The scroll listener's
      [document.getElementById('stats-section')] always finds the counters
      section, so in every reachable state a scroll with it in view
      animates the counters of the next render (C21).  The partner logos
      and the call-to-action's check marks are mojibake, UTF-8 emoji read
      as Mac OS Roman ([partner_logos_mojibake]).

    The lemmas named in brackets rather than by a claim id support the
    claims or the findings; the claims C1-C21 are the properties of the
    program.

    What remains outside: the complaint and authentication contexts, whose
    source is not in the repository (the page reads only [complaints] and
    [user?.id], both inputs of [PageMachine.World]).

    Numbers.  The values the pages only compare or print (ratings, vote
    counts, [getTime] milliseconds, list lengths) are integers far below
    2^53, where double arithmetic is exact, so they are modelled as [Z];
    [Float64.ofZ_safe] is the lemma that justifies it.  The computations
    that leave the integers, the mean rating and the counter delays, are
    modelled on [Float64.double].  -0 is identified with +0: no value the
    pages print can be -0.  C12 assumes the summed ratings and the length
    stay safe integers, the only range in which its error bound is stated.

    Bounds.  The digit search of [toString] stops at 17 digits, which is
    enough for every double ([shortest_terminates]).  Integer comparisons of decimal and
    binary values are made after scaling by [10^400], and [decExp] reads
    the decimal exponent off [K * 10^330 / 2^1074]; both exceed the range
    of a finite double's decimal exponents (-324 to 308).  The fuel of
    [digitsAux] and [shortestFrom] is the number of digits and the 17
    lengths, proved sufficient ([shortest_terminates], [toDigits_spec]).

    Strings.  Rocq strings are sequences of bytes (the UTF-8 bytes of the
    source's literals); JavaScript's are UTF-16.  [toLowerCase] lowers the
    ASCII letters only (JavaScript also lowers non-ASCII letters such as
    À; all the text the page searches is ASCII), and [trim] removes the
    whitespace of the Latin-1 range.

    Not modelled: navigation (a [Link]'s target is kept, following it is
    the router's business); the complaint and authentication contexts
    beyond the fields the page reads, as their source is not in the
    repository; [toLocaleDateString], whose output depends on the locale;
    the lucide-react icons' markup (kept as component names) and the CSS
    classes the code does not compute; the imports (lines 1-43 of
    HomePage.tsx, 1-22 of CommunityPage.tsx); and, in the string
    primitives, the UTF-16 characters outside Latin-1.  Every function is
    total; the two that use fuel are given enough of it, and executable
    runs ([runEvents], [runActions]) fail only when an event is not
    offered by the page. *)

From Stdlib Require Import String ZArith List Bool Lia.
From stdpp Require Import base tactics decidable list.
Import ListNotations.

Declare Scope ggg_scope.
Delimit Scope ggg_scope with ggg.

(** JavaScript's strict equality on strings, and boolean membership. *)
Notation "s ===ₛ t" := (String.eqb s t) (at level 70, no associativity) : ggg_scope.
Notation "x ∈ₛ? l" := (existsb (String.eqb x) l) (at level 70, no associativity) : ggg_scope.

Open Scope ggg_scope.

Create HintDb ggg discriminated.
Create Rewrite HintDb ggg_bool.

(** Turn the boolean tests of the modelled code into propositions. *)
Ltac bsimpl :=
  repeat first
    [ rewrite andb_true_iff in *
    | rewrite orb_true_iff in *
    | rewrite negb_true_iff in *
    | rewrite andb_false_iff in *
    | rewrite orb_false_iff in *
    | rewrite negb_false_iff in *
    | rewrite String.eqb_eq in *
    | rewrite Z.eqb_eq in *
    | rewrite Z.leb_le in *
    | rewrite Z.ltb_lt in * ].

(** Case analysis on a boolean expression of the goal, keeping its equation. *)
Ltac case_bool e := let E := fresh "E" in destruct e eqn:E.

Section ListFacts.
Context {A : Type}.
Implicit Types (f g : A -> bool) (l : list A).

Lemma filter_all f l : (forall x, In x l -> f x = true) -> List.filter f l = l.
Proof.
  induction l as [|x l IH]; intros H; simpl; [done|].
  rewrite H by (left; done). f_equal. apply IH. intros y Hy. apply H. by right.
Qed.

Lemma filter_none f l : (forall x, In x l -> f x = false) -> List.filter f l = [].
Proof.
  induction l as [|x l IH]; intros H; simpl; [done|].
  rewrite H by (left; done). apply IH. intros y Hy. apply H. by right.
Qed.

Lemma filter_length_le f l : length (List.filter f l) <= length l.
Proof. induction l as [|x l IH]; simpl; [lia|]. destruct (f x); simpl; lia. Qed.

Lemma filter_filter f g l :
  List.filter f (List.filter g l) = List.filter (fun x => g x && f x) l.
Proof.
  induction l as [|x l IH]; simpl; [done|].
  destruct (g x); simpl; [destruct (f x); simpl|]; by rewrite IH.
Qed.

Lemma firstn_app_le (n : nat) l1 l2 :
  length l1 >= n -> firstn n (l1 ++ l2) = firstn n l1.
Proof. intros H. rewrite firstn_app. replace (n - length l1) with 0 by lia.
       by rewrite firstn_O, app_nil_r. Qed.

(** [List.filter] keeps the order of the elements it keeps. *)
Lemma filter_sublist f l : List.filter f l ⊆+ l.
Proof.
  induction l as [|x l IH]; simpl; [constructor|].
  destruct (f x); by constructor.
Qed.

(** A sum accumulated by [reduce] splits off its initial value. *)
Lemma fold_left_Zadd (h : A -> Z) l (acc : Z) :
  fold_left (fun s x => s + h x)%Z l acc = (acc + fold_left (fun s x => s + h x)%Z l 0)%Z.
Proof.
  revert acc. induction l as [|x l IH]; intros acc; simpl; [lia|].
  rewrite (IH (acc + _)%Z), (IH (0 + _)%Z). lia.
Qed.
End ListFacts.

Lemma existsb_string_In (s : string) (l : list string) :
  (s ∈ₛ? l) = true <-> In s l.
Proof.
  rewrite existsb_exists. split.
  - intros (x & Hx & E). apply String.eqb_eq in E. by subst.
  - intros H. exists s. by rewrite String.eqb_refl.
Qed.

Lemma existsb_string_notIn (s : string) (l : list string) :
  (s ∈ₛ? l) = false <-> ~ In s l.
Proof. rewrite <- existsb_string_In. destruct (s ∈ₛ? l); intuition congruence. Qed.

#[export] Hint Resolve filter_length_le filter_all filter_none filter_sublist : ggg.
#[export] Hint Rewrite @filter_filter @filter_app : ggg_bool.
#[export] Hint Rewrite existsb_string_In existsb_string_notIn : ggg_bool.
