(* ===== verification/JsString.v ===== *)
(** The JavaScript string primitives called by CommunityPage.tsx:
    [String.prototype.toLowerCase] (search and category filters, lines
    158-161), [String.prototype.includes] (same lines),
    [String.prototype.trim] and the falsiness of a string (the guard of
    [handleWriteReview], line 183).  Characters are Rocq's 8-bit [ascii];
    lowering is the ASCII mapping A-Z to a-z, whitespace is JavaScript's
    WhiteSpace and LineTerminator restricted to the Latin-1 range. *)

From Stdlib Require Import String Ascii ZArith List Bool Lia.
From stdpp Require Import base tactics decidable.
From S2P Require Import Prelude.
Import ListNotations.
Open Scope string_scope.

Module JsString.

(** ** Definitions *)

Definition lowerAscii (c : ascii) : ascii :=
  let n := nat_of_ascii c in
  if (65 <=? n)%nat && (n <=? 90)%nat then ascii_of_nat (n + 32) else c.

(** [s.toLowerCase()] *)
Fixpoint toLowerCase (s : string) : string :=
  match s with
  | EmptyString => EmptyString
  | String c r => String (lowerAscii c) (toLowerCase r)
  end.

(** [s.startsWith(p)]: the auxiliary of [includes]. *)
Fixpoint startsWith (s p : string) {struct p} : bool :=
  match p, s with
  | EmptyString, _ => true
  | String a p', String b s' => Ascii.eqb a b && startsWith s' p'
  | String _ _, EmptyString => false
  end.

(** [s.includes(p)]: [p] occurs in [s] at some position. *)
Fixpoint includes (s p : string) : bool :=
  startsWith s p ||
  match s with
  | EmptyString => false
  | String _ s' => includes s' p
  end.

(** TAB, LF, VT, FF, CR, SPACE and NO-BREAK SPACE. *)
Definition isJsWhitespace (c : ascii) : bool :=
  let n := nat_of_ascii c in
  ((9 <=? n)%nat && (n <=? 13)%nat) || (n =? 32)%nat || (n =? 160)%nat.
Arguments isJsWhitespace : simpl never.

Fixpoint trimStart (s : string) : string :=
  match s with
  | EmptyString => EmptyString
  | String c r => if isJsWhitespace c then trimStart r else s
  end.

Fixpoint trimEnd (s : string) : string :=
  match s with
  | EmptyString => EmptyString
  | String c r =>
      let r' := trimEnd r in
      if (r' =? EmptyString) && isJsWhitespace c then EmptyString else String c r'
  end.

(** [s.trim()] *)
Definition trim (s : string) : string := trimEnd (trimStart s).

(** JavaScript truthiness of a string: only [""] is falsy. *)
Definition truthy (s : string) : bool := negb (s =? "").

(** [!s.trim()]: the string is empty once trimmed. *)
Definition isBlank (s : string) : bool := negb (truthy (trim s)).

(** All characters of [s] satisfy [p]. *)
Fixpoint allChars (p : ascii -> bool) (s : string) : bool :=
  match s with
  | EmptyString => true
  | String c r => p c && allChars p r
  end.

(** ** Lowering *)

Lemma lowerAscii_idem c : lowerAscii (lowerAscii c) = lowerAscii c.
Proof.
  unfold lowerAscii.
  destruct ((65 <=? nat_of_ascii c)%nat && (nat_of_ascii c <=? 90)%nat) eqn:E.
  - apply andb_true_iff in E as [E1 E2]. apply Nat.leb_le in E1, E2.
    rewrite nat_ascii_embedding by lia.
    replace ((65 <=? nat_of_ascii c + 32)%nat && (nat_of_ascii c + 32 <=? 90)%nat)
      with false; [done|].
    symmetry. apply andb_false_iff. right. apply Nat.leb_gt. lia.
  - by rewrite E.
Qed.

Lemma toLowerCase_idem s : toLowerCase (toLowerCase s) = toLowerCase s.
Proof. induction s as [|c s IH]; simpl; [done|]. by rewrite lowerAscii_idem, IH. Qed.

Lemma toLowerCase_length s : String.length (toLowerCase s) = String.length s.
Proof. induction s as [|c s IH]; simpl; [done|]. by rewrite IH. Qed.

Lemma toLowerCase_empty : toLowerCase "" = "".
Proof. done. Qed.

(** ** Substring search *)

Lemma startsWith_spec s p : startsWith s p = true <-> exists suf, s = p ++ suf.
Proof.
  revert s. induction p as [|a p IH]; intros s; simpl.
  - split; [intros _; by exists s | intros _; done].
  - destruct s as [|b s]; simpl.
    + split; [done|]. intros [suf Hs]. discriminate.
    + rewrite andb_true_iff, IH, Ascii.eqb_eq. split.
      * intros [-> [suf ->]]. by exists suf.
      * intros [suf Hs]. injection Hs as -> ->. eauto.
Qed.

Lemma includes_spec s p :
  includes s p = true <-> exists pre suf, s = pre ++ p ++ suf.
Proof.
  induction s as [|c s IH]; simpl; rewrite orb_true_iff, startsWith_spec.
  - split.
    + intros [[suf Hs] | H]; [by exists "", suf | discriminate].
    + intros (pre & suf & Hs). destruct pre; [|discriminate]. left. by exists suf.
  - rewrite IH. split.
    + intros [[suf Hs] | (pre & suf & Hs)].
      * by exists "", suf.
      * exists (String c pre), suf. by rewrite Hs.
    + intros (pre & suf & Hs). destruct pre as [|d pre]; simpl in Hs.
      * left. by exists suf.
      * injection Hs as -> Hs. right. by exists pre, suf.
Qed.

Lemma includes_empty s : includes s "" = true.
Proof. apply includes_spec. by exists "", s. Qed.

Lemma append_empty_r s : s ++ "" = s.
Proof. induction s as [|c s IH]; simpl; [done|]. by rewrite IH. Qed.

Lemma includes_refl s : includes s s = true.
Proof. apply includes_spec. exists "", "". by rewrite append_empty_r. Qed.

(** ** Trimming *)

Lemma trimEnd_empty s : trimEnd s = "" <-> allChars isJsWhitespace s = true.
Proof.
  induction s as [|c s IH]; simpl; [done|].
  destruct (trimEnd s =? "") eqn:E; simpl.
  - apply String.eqb_eq in E. assert (Hs := proj1 IH E). rewrite Hs, andb_true_r.
    destruct (isJsWhitespace c); simpl; split; (done || discriminate).
  - apply String.eqb_neq in E. split; [discriminate|].
    intros H. apply andb_true_iff in H as [_ H]. by apply IH in H.
Qed.

Lemma allChars_trimStart s :
  allChars isJsWhitespace (trimStart s) = allChars isJsWhitespace s.
Proof.
  induction s as [|c s IH]; simpl; [done|].
  destruct (isJsWhitespace c) eqn:E; simpl; [done|]. by rewrite E.
Qed.

Lemma trim_blank s : trim s = "" <-> allChars isJsWhitespace s = true.
Proof. unfold trim. by rewrite trimEnd_empty, allChars_trimStart. Qed.

(** [!s.trim()] holds exactly for strings made of whitespace only. *)
Lemma isBlank_spec s : isBlank s = true <-> allChars isJsWhitespace s = true.
Proof.
  unfold isBlank, truthy. rewrite negb_involutive, String.eqb_eq. apply trim_blank.
Qed.

Lemma truthy_spec s : truthy s = true <-> s <> "".
Proof.
  unfold truthy. rewrite negb_true_iff, String.eqb_neq. done.
Qed.

End JsString.

#[export] Hint Rewrite JsString.toLowerCase_idem JsString.includes_empty : ggg_bool.
#[export] Hint Resolve JsString.includes_empty JsString.includes_refl : ggg.
