(* ===== verification/Float64.v ===== *)
(** JavaScript numbers as IEEE 754 binary64 values, as far as the pages
    compute with them: the rating sum and mean of [communityStats]
    (CommunityPage.tsx line 235) and the counters' [index * 0.2] delay
    (HomePage.tsx line 356).

    Every finite double is an integer multiple of [2^-1074], the smallest
    subnormal.  A finite double is therefore kept as that integer [K] (its
    value is [K * 2^-1074]); rounding a real [W * 2^-1074] to a double keeps
    the 53 leading bits of [W]: with [j = max 0 (log2 W - 52)] the result is
    [2^j] times [W / 2^j] rounded to nearest, ties to even.  This one rule
    covers normal and subnormal numbers, and the carry of a mantissa
    [2^53] into the next binade needs no special case.  A result of
    magnitude [2^1024] or more overflows to an infinity.  The negative zero
    is identified with the positive one: the operations modelled here never
    divide by a zero they produced, and [toString] and [toFixed] print both
    zeros alike. *)

From Stdlib Require Import ZArith Bool Lia.
From stdpp Require Import base tactics decidable.
From S2P Require Import Prelude.

Module Float64.
Local Open Scope Z_scope.

(** [2^1074]: one unit of [K] is the smallest subnormal. *)
Definition scale : Z := 2 ^ 1074.

(** [2^1024] in units of [2^-1074]: the first magnitude that overflows. *)
Definition overflowK : Z := 2 ^ 2098.

Inductive double :=
| Finite (K : Z)
| Infinity (neg : bool)
| NaN.

#[export] Instance double_eq_dec : EqDecision double.
Proof. solve_decision. Defined.

(** [N / D] rounded to the nearest integer, ties to even ([N >= 0], [D > 0]). *)
Definition rne (N D : Z) : Z :=
  let m := N / D in
  match Z.compare (2 * (N mod D)) D with
  | Lt => m
  | Gt => m + 1
  | Eq => if Z.even m then m else m + 1
  end.

(** The exponent of the last kept bit of [P / Q] (in units of [2^-1074]):
    [floor (log2 (P / Q)) - 52], and [0] for subnormal magnitudes. *)
Definition ulpExp (P Q : Z) : Z := Z.max 0 (Z.log2 (P / Q) - 52).

(** The double nearest to [P / Q] (units of [2^-1074]), [P >= 0], [Q > 0]. *)
Definition roundPos (P Q : Z) : Z :=
  let u := 2 ^ ulpExp P Q in u * rne P (Q * u).

(** The double nearest to the real [P / Q * 2^-1074], [Q > 0], with
    overflow to the infinity of the sign. *)
Definition roundK (P Q : Z) : double :=
  let K := if P <? 0 then - roundPos (- P) Q else roundPos P Q in
  if overflowK <=? Z.abs K then Infinity (K <? 0) else Finite K.

(** The number value of a mathematical integer ([𝔽(n)]). *)
Definition ofZ (n : Z) : double := roundK (n * scale) 1.

(** The number value of the rational [p / q], [q > 0]: the double a
    decimal literal such as [0.2] denotes. *)
Definition ofQ (p q : Z) : double := roundK (p * scale) q.

(** [x + y] (Number::add). *)
Definition add (x y : double) : double :=
  match x, y with
  | NaN, _ | _, NaN => NaN
  | Infinity a, Infinity b => if Bool.eqb a b then Infinity a else NaN
  | Infinity a, Finite _ | Finite _, Infinity a => Infinity a
  | Finite a, Finite b => roundK (a + b) 1
  end.

(** [x * y] (Number::multiply). *)
Definition mul (x y : double) : double :=
  match x, y with
  | NaN, _ | _, NaN => NaN
  | Infinity a, Infinity b => Infinity (xorb a b)
  | Infinity a, Finite b | Finite b, Infinity a =>
      if b =? 0 then NaN else Infinity (xorb a (b <? 0))
  | Finite a, Finite b => roundK (a * b) scale
  end.

(** [x / y] (Number::divide). *)
Definition div (x y : double) : double :=
  match x, y with
  | NaN, _ | _, NaN => NaN
  | Infinity _, Infinity _ => NaN
  | Infinity a, Finite b => Infinity (xorb a (b <? 0))
  | Finite _, Infinity _ => Finite 0
  | Finite a, Finite b =>
      if b =? 0 then (if a =? 0 then NaN else Infinity (a <? 0))
      else if b <? 0 then roundK (- a * scale) (- b) else roundK (a * scale) b
  end.

(** A finite double: the integer [K] is a value of the format. *)
Definition representable (K : Z) : bool :=
  (Z.abs K <? overflowK) && (roundPos (Z.abs K) 1 =? Z.abs K).

(** A value of the format: every finite one is representable. *)
Definition isDouble (x : double) : bool :=
  match x with Finite K => representable K | _ => true end.

(** ** Rounding to nearest, ties to even *)

Lemma rne_spec N D :
  0 < D ->
  D * (2 * rne N D - 1) <= 2 * N <= D * (2 * rne N D + 1).
Proof.
  intros HD. unfold rne.
  pose proof (Z.div_mod N D ltac:(lia)) as Hdm.
  pose proof (Z.mod_pos_bound N D HD) as Hb.
  set (m := N / D) in *. set (r := N mod D) in *.
  destruct (Z.compare_spec (2 * r) D); [destruct (Z.even m)|..]; nia.
Qed.

Lemma rne_unique N D m :
  0 < D -> D * (2 * m - 1) < 2 * N < D * (2 * m + 1) -> rne N D = m.
Proof.
  intros HD Hm. pose proof (rne_spec N D HD) as Hs.
  assert (rne N D - 1 < m < rne N D + 1) by nia. lia.
Qed.

Lemma rne_exact m D : 0 < D -> rne (m * D) D = m.
Proof. intros HD. apply rne_unique; nia. Qed.

(** ** The exponent of the last kept bit *)

Lemma log2_div P Q e :
  0 < Q -> 0 <= e -> 2 ^ e * Q <= P < 2 ^ (e + 1) * Q -> Z.log2 (P / Q) = e.
Proof.
  intros HQ He [Hlo Hhi]. apply Z.log2_unique; [done|]. split.
  - apply Z.div_le_lower_bound; lia.
  - apply Z.div_lt_upper_bound; lia.
Qed.

Lemma ulpExp_zero P Q : 0 < Q -> 0 <= P < 2 ^ 53 * Q -> ulpExp P Q = 0.
Proof.
  intros HQ HP. unfold ulpExp.
  destruct (Z.eq_dec (P / Q) 0) as [->|Hne]; [done|].
  assert (Hlt : P / Q < 2 ^ 53) by (apply Z.div_lt_upper_bound; lia).
  assert (0 < P / Q) by (pose proof (Z.div_pos P Q ltac:(lia) HQ); lia).
  assert (Z.log2 (P / Q) < 53) by (apply Z.log2_lt_pow2; lia). lia.
Qed.

Lemma ulpExp_pos P Q j :
  0 < Q -> 0 <= j -> 2 ^ j * 2 ^ 52 * Q <= P < 2 ^ j * 2 ^ 53 * Q -> ulpExp P Q = j.
Proof.
  intros HQ Hj HP. unfold ulpExp. rewrite (log2_div P Q (j + 52)); [lia|done|lia|].
  rewrite !Z.pow_add_r by lia. replace (2 ^ 53) with (2 ^ 52 * 2 ^ 1) in HP by done. lia.
Qed.

(** The shape of a positive finite double: [K = 2^j * m] with a 53-bit
    mantissa [m], normalised ([m >= 2^52]) unless [j = 0]. *)
Lemma representable_shape K :
  0 < K -> roundPos K 1 = K ->
  let j := ulpExp K 1 in
  0 <= j /\ K = 2 ^ j * (K / 2 ^ j) /\ K / 2 ^ j < 2 ^ 53 /\
  (0 < j -> 2 ^ 52 <= K / 2 ^ j).
Proof.
  intros HK Hr j. assert (Hj : 0 <= j) by (unfold j, ulpExp; lia).
  assert (Hu : 0 < 2 ^ j) by (apply Z.pow_pos_nonneg; lia).
  assert (Hdiv : K = 2 ^ j * (K / 2 ^ j)).
  { unfold roundPos in Hr. cbv zeta in Hr. fold j in Hr. rewrite Z.mul_1_l in Hr.
    remember (rne K (2 ^ j)) as m. rewrite <- Hr.
    rewrite (Z.mul_comm (2 ^ j) m), Z.div_mul by lia. lia. }
  pose proof (Z.log2_spec K HK) as [Hl Hh].
  split; [done|]. split; [done|]. unfold j, ulpExp in *. rewrite ?Z.div_1_r in *.
  destruct (Z.max_spec 0 (Z.log2 K - 52)) as [[Hlt Hm]|[Hge Hm]]; rewrite Hm in *.
  - rewrite Z.pow_succ_r in Hh by apply Z.log2_nonneg.
    replace (Z.log2 K) with ((Z.log2 K - 52) + 52) in Hl, Hh by lia.
    rewrite Z.pow_add_r in Hl, Hh by lia.
    split; [apply Z.div_lt_upper_bound; lia|].
    intros _. apply Z.div_le_lower_bound; lia.
  - rewrite Z.pow_0_r, Z.div_1_r. split; [|lia].
    assert (Z.log2 K <= 52) by lia.
    assert (2 ^ (Z.log2 K + 1) <= 2 ^ 53) by (apply Z.pow_le_mono_r; lia). lia.
Qed.

Lemma roundPos_by_exp P Q j m :
  0 < Q -> 0 <= j -> ulpExp P Q = j ->
  Q * 2 ^ j * (2 * m - 1) < 2 * P < Q * 2 ^ j * (2 * m + 1) ->
  roundPos P Q = 2 ^ j * m.
Proof.
  intros HQ Hj He Hm. unfold roundPos. rewrite He. f_equal.
  apply rne_unique; [|done]. pose proof (Z.pow_pos_nonneg 2 j). lia.
Qed.

(** Every real within the rounding interval of a finite double rounds to
    it.  The interval is half a unit in the last place on each side, and a
    quarter unit below a power of two, whose lower neighbour is closer. *)
Lemma roundPos_near K P Q :
  0 < Q -> 0 < K -> roundPos K 1 = K -> 0 <= P ->
  2 * Z.abs (P - K * Q) < Q * 2 ^ ulpExp K 1 ->
  (K * Q <= P \/ 4 * (K * Q - P) < Q * 2 ^ ulpExp K 1 \/
   2 ^ 52 < K / 2 ^ ulpExp K 1 \/ ulpExp K 1 = 0) ->
  roundPos P Q = K.
Proof.
  intros HQ HK Hr HP Hnear Hside.
  destruct (representable_shape K HK Hr) as (Hj & HKm & Hm53 & Hm52).
  set (j := ulpExp K 1) in *. set (m := K / 2 ^ j) in *.
  assert (Hu : 0 < 2 ^ j) by (apply Z.pow_pos_nonneg; lia).
  set (u := 2 ^ j) in *.
  destruct (decide (K * Q <= P \/ 2 ^ 52 < m \/ j = 0)) as [Hmain|Hbnd].
  - rewrite HKm. apply roundPos_by_exp; [done|done| |nia].
    destruct (decide (j = 0)) as [Hj0|Hj0].
    + rewrite Hj0. apply ulpExp_zero; [done|].
      assert (u = 1) by (unfold u; rewrite Hj0; done). nia.
    + apply ulpExp_pos; [done|done|]. specialize (Hm52 ltac:(lia)). nia.
  - assert (Hlt : P < K * Q) by lia. assert (Hj0 : 0 < j) by lia.
    assert (Hm : m = 2 ^ 52) by (specialize (Hm52 Hj0); lia).
    assert (H4 : 4 * (K * Q - P) < Q * u) by lia.
    assert (Hu2 : u = 2 * 2 ^ (j - 1)).
    { unfold u. replace j with ((j - 1) + 1) at 1 by lia. rewrite Z.pow_add_r by lia. lia. }
    assert (0 < 2 ^ (j - 1)) by (apply Z.pow_pos_nonneg; lia).
    set (u' := 2 ^ (j - 1)) in *.
    rewrite HKm, Hm, Hu2. replace (2 * u' * 2 ^ 52) with (u' * 2 ^ 53) by lia.
    apply roundPos_by_exp; [done|lia| |nia].
    apply ulpExp_pos; [done|lia|]. nia.
Qed.

(** A multiple of its own last-bit unit is its own rounding. *)
Lemma roundPos_exact P : 0 <= P -> (2 ^ ulpExp P 1 | P) -> roundPos P 1 = P.
Proof.
  intros HP [c Hc]. unfold roundPos. cbv zeta.
  assert (Hu : 0 < 2 ^ ulpExp P 1) by (apply Z.pow_pos_nonneg; unfold ulpExp; lia).
  set (u := 2 ^ ulpExp P 1) in *. rewrite Z.mul_1_l.
  replace (rne P u) with c; [lia|]. rewrite Hc. symmetry. by apply rne_exact.
Qed.

(** [Number.MAX_SAFE_INTEGER = 2^53 - 1] *)
Definition maxSafeInteger : Z := 2 ^ 53 - 1.

Lemma roundPos_safe a : 0 <= a <= maxSafeInteger -> roundPos (a * scale) 1 = a * scale.
Proof.
  unfold maxSafeInteger, scale. intros Ha. apply roundPos_exact; [lia|].
  unfold ulpExp. rewrite Z.div_1_r.
  destruct (Z.eq_dec a 0) as [->|Ha0]; [apply Z.divide_0_r|].
  rewrite Z.log2_mul_pow2 by lia.
  assert (Z.log2 a < 53) by (apply Z.log2_lt_pow2; lia).
  set (j := Z.max 0 (Z.log2 a + 1074 - 52)).
  exists (a * 2 ^ (1074 - j)). rewrite <- Z.mul_assoc, <- Z.pow_add_r by lia.
  do 2 f_equal. lia.
Qed.

(** Safe integers are doubles: [𝔽(n) = n] for [|n| <= 2^53 - 1]. *)
Lemma ofZ_safe n : Z.abs n <= maxSafeInteger -> ofZ n = Finite (n * scale).
Proof.
  intros Hn. unfold ofZ, roundK.
  assert (Hs : 0 < scale) by done.
  assert (Hb : Z.abs (n * scale) < overflowK).
  {     assert (Ho : overflowK = 2 ^ 1024 * scale) by done.
    unfold maxSafeInteger in Hn. rewrite Ho, Z.abs_mul, (Z.abs_eq scale) by lia.
    apply Z.mul_lt_mono_pos_r; [done|]. eapply Z.le_lt_trans; [exact Hn|done]. }
  destruct (Z.ltb_spec (n * scale) 0) as [Hneg|Hnn].
  - replace (- (n * scale)) with (- n * scale) by lia.
    rewrite roundPos_safe by nia. replace (- (- n * scale)) with (n * scale) by lia.
    destruct (Z.leb_spec overflowK (Z.abs (n * scale))); [lia|done].
  - rewrite roundPos_safe by nia.
    destruct (Z.leb_spec overflowK (Z.abs (n * scale))); [lia|done].
Qed.

(** ** Rounding depends on the value [P / Q] only *)

Lemma rne_scale N D c : 0 < D -> 0 < c -> rne (N * c) (D * c) = rne N D.
Proof.
  intros HD Hc. unfold rne.
  rewrite Z.div_mul_cancel_r, Z.mul_mod_distr_r by lia.
  replace (Z.compare (2 * (N mod D * c)) (D * c)) with (Z.compare (2 * (N mod D)) D); [done|].
  set (r := N mod D).
  destruct (Z.compare_spec (2 * r) D), (Z.compare_spec (2 * (r * c)) (D * c));
    first [done | exfalso; nia].
Qed.

Lemma ulpExp_scale P Q c : 0 < Q -> 0 < c -> ulpExp (P * c) (Q * c) = ulpExp P Q.
Proof. intros HQ Hc. unfold ulpExp. by rewrite Z.div_mul_cancel_r by lia. Qed.

Lemma roundPos_scale P Q c : 0 < Q -> 0 < c -> roundPos (P * c) (Q * c) = roundPos P Q.
Proof.
  intros HQ Hc. unfold roundPos. rewrite ulpExp_scale by done.
  assert (0 < 2 ^ ulpExp P Q) by (apply Z.pow_pos_nonneg; unfold ulpExp; lia).
  replace (Q * c * 2 ^ ulpExp P Q) with (Q * 2 ^ ulpExp P Q * c) by lia.
  rewrite rne_scale by nia. done.
Qed.

Lemma roundK_scale P Q c : 0 < Q -> 0 < c -> roundK (P * c) (Q * c) = roundK P Q.
Proof.
  intros HQ Hc. unfold roundK.
  replace (- (P * c)) with (- P * c) by lia. rewrite !roundPos_scale by done.
  replace (P * c <? 0) with (P <? 0); [done|].
  destruct (Z.ltb_spec P 0), (Z.ltb_spec (P * c) 0); nia.
Qed.

(** The quotient of two safe integers is the double nearest to their
    exact quotient. *)
Lemma div_ofZ a b :
  Z.abs a <= maxSafeInteger -> 0 < b <= maxSafeInteger ->
  div (ofZ a) (ofZ b) = roundK (a * scale) b.
Proof.
  intros Ha Hb. rewrite !ofZ_safe by lia. assert (Hs : 0 < scale) by done. simpl.
  destruct (Z.eqb_spec (b * scale) 0); [nia|]. destruct (Z.ltb_spec (b * scale) 0); [nia|].
  replace (a * scale * scale) with (a * scale * scale) by done.
  by rewrite roundK_scale by lia.
Qed.

(** ** The rounding error *)

(** The result is within half a unit of its last place of [P / Q]. *)
Lemma roundPos_error P Q :
  0 < Q -> 2 * Z.abs (Q * roundPos P Q - P) <= Q * 2 ^ ulpExp P Q.
Proof.
  intros HQ. unfold roundPos. cbv zeta.
  assert (0 < 2 ^ ulpExp P Q) by (apply Z.pow_pos_nonneg; unfold ulpExp; lia).
  pose proof (rne_spec P (Q * 2 ^ ulpExp P Q) ltac:(nia)). nia.
Qed.

(** In the normal range that unit is at most [2^-52] times the value. *)
Lemma ulpExp_normal P Q :
  0 < Q -> 0 < ulpExp P Q -> 2 ^ ulpExp P Q * 2 ^ 52 * Q <= P.
Proof.
  intros HQ Hj. unfold ulpExp in *.
  destruct (Z.max_spec 0 (Z.log2 (P / Q) - 52)) as [[_ ->]|[_ Hm]]; [|lia].
  rewrite <- Z.pow_add_r by lia. replace (Z.log2 (P / Q) - 52 + 52) with (Z.log2 (P / Q)) by lia.
  assert (HPQ : 0 < P / Q) by (destruct (Z.log2_spec (P / Q)); [|]; try lia;
    destruct (Z.le_gt_cases (P / Q) 0) as [Hle|]; [rewrite Z.log2_nonpos in *; lia|lia]).
  pose proof (Z.log2_spec (P / Q) HPQ) as [Hl _].
  pose proof (Z.mul_div_le P Q HQ). nia.
Qed.

Lemma roundPos_nonneg P Q : 0 <= P -> 0 < Q -> 0 <= roundPos P Q.
Proof.
  intros HP HQ. unfold roundPos. cbv zeta.
  assert (0 < 2 ^ ulpExp P Q) by (apply Z.pow_pos_nonneg; unfold ulpExp; lia).
  assert (HD : 0 < Q * 2 ^ ulpExp P Q) by nia.
  pose proof (rne_spec P _ HD) as Hs. set (D := Q * 2 ^ ulpExp P Q) in *.
  assert (0 <= rne P D) by nia. nia.
Qed.

Lemma roundK_nonneg P Q :
  0 <= P -> 0 < Q -> roundPos P Q < overflowK -> roundK P Q = Finite (roundPos P Q).
Proof.
  intros HP HQ Ho. pose proof (roundPos_nonneg P Q HP HQ). unfold roundK.
  destruct (Z.ltb_spec P 0); [lia|].
  destruct (Z.leb_spec overflowK (Z.abs (roundPos P Q))); [lia|done].
Qed.

Lemma representable_spec K :
  representable K = true <-> Z.abs K < overflowK /\ roundPos (Z.abs K) 1 = Z.abs K.
Proof. unfold representable. by rewrite andb_true_iff, Z.ltb_lt, Z.eqb_eq. Qed.

Lemma ulpExp_pos_of P Q : 0 < Q -> 2 ^ 53 * Q <= P -> 0 < ulpExp P Q.
Proof.
  intros HQ HP. unfold ulpExp.
  assert (2 ^ 53 <= P / Q) by (apply Z.div_le_lower_bound; lia).
  assert (53 <= Z.log2 (P / Q)) by (rewrite <- (Z.log2_pow2 53) by lia; by apply Z.log2_le_mono).
  lia.
Qed.

(** Relative error: in the normal range the rounded value differs from
    [P / Q] by at most [2^-53] times [P / Q]. *)
Lemma roundPos_relative P Q :
  0 < Q -> 2 ^ 53 * Q <= P -> 2 ^ 53 * Z.abs (Q * roundPos P Q - P) <= P.
Proof.
  intros HQ HP. pose proof (roundPos_error P Q HQ) as He.
  pose proof (ulpExp_normal P Q HQ (ulpExp_pos_of P Q HQ HP)) as Hn.
  set (u := 2 ^ ulpExp P Q) in *. nia.
Qed.

Lemma rne_ge_floor N D : 0 < D -> N / D <= rne N D.
Proof. intros HD. unfold rne. destruct (Z.compare _ _); [destruct (Z.even _)|..]; lia. Qed.

(** Rounding never goes below a power of two the value reaches. *)
Lemma roundPos_ge_pow2 P e :
  52 <= e -> 2 ^ e <= P -> 2 ^ e <= roundPos P 1.
Proof.
  intros He HP. unfold roundPos. cbv zeta. rewrite Z.mul_1_l.
  assert (Hl : e <= Z.log2 P) by (rewrite <- (Z.log2_pow2 e) by lia; by apply Z.log2_le_mono).
  unfold ulpExp. rewrite Z.div_1_r.
  replace (Z.max 0 (Z.log2 P - 52)) with (Z.log2 P - 52) by lia.
  pose proof (Z.log2_spec P ltac:(pose proof (Z.pow_pos_nonneg 2 e); lia)) as [Hlo _].
  assert (Hu : 0 < 2 ^ (Z.log2 P - 52)) by (apply Z.pow_pos_nonneg; lia).
  assert (Hm : 2 ^ 52 <= P / 2 ^ (Z.log2 P - 52)).
  { apply Z.div_le_lower_bound; [done|]. rewrite <- Z.pow_add_r by lia.
    replace (Z.log2 P - 52 + 52) with (Z.log2 P) by lia. done. }
  pose proof (rne_ge_floor P (2 ^ (Z.log2 P - 52)) Hu).
  assert (2 ^ e <= 2 ^ (Z.log2 P - 52) * 2 ^ 52).
  { rewrite <- Z.pow_add_r by lia. apply Z.pow_le_mono_r; lia. }
  nia.
Qed.

(** ** Every operation returns a value of the format *)

Lemma pow2_divide u j : 0 <= u <= j -> (2 ^ u | 2 ^ j).
Proof.
  intros Hu. exists (2 ^ (j - u)). rewrite <- Z.pow_add_r by lia. f_equal; lia.
Qed.

Lemma rne_le_pow N D e : 0 < D -> 0 <= e -> N < 2 ^ e * D -> rne N D <= 2 ^ e.
Proof.
  intros HD He HN. pose proof (rne_spec N D HD) as [Hlo _].
  assert (Hlt : D * (2 * rne N D - 1) < D * (2 * 2 ^ e)) by lia.
  apply Z.mul_lt_mono_pos_l in Hlt; lia.
Qed.

(** The exact value lies below the binade after the one of its last kept bit. *)
Lemma roundPos_binade P Q : 0 < Q -> 0 <= P -> P < 2 ^ 53 * (Q * 2 ^ ulpExp P Q).
Proof.
  intros HQ HP. assert (Hd : 0 <= P / Q) by (apply Z.div_pos; lia).
  assert (Hb : P / Q < 2 ^ (ulpExp P Q + 53)).
  { unfold ulpExp. destruct (Z.eq_dec (P / Q) 0) as [->|Hne]; [apply Z.pow_pos_nonneg; lia|].
    pose proof (Z.log2_spec (P / Q) ltac:(lia)) as [_ Hhi].
    eapply Z.lt_le_trans; [exact Hhi|]. apply Z.pow_le_mono_r; lia. }
  rewrite Z.pow_add_r in Hb by (unfold ulpExp; lia).
  pose proof (Z.mul_succ_div_gt P Q HQ). nia.
Qed.

(** Rounding is idempotent: its result is a fixed point of rounding. *)
Lemma roundPos_idem P Q : 0 < Q -> 0 <= P -> roundPos (roundPos P Q) 1 = roundPos P Q.
Proof.
  intros HQ HP. pose proof (roundPos_binade P Q HQ HP) as Hb.
  unfold roundPos at 2 3. cbv zeta.
  set (j := ulpExp P Q) in *. assert (Hj : 0 <= j) by (unfold j, ulpExp; lia).
  assert (Hu : 0 < 2 ^ j) by (apply Z.pow_pos_nonneg; lia).
  set (m := rne P (Q * 2 ^ j)).
  assert (Hm : 0 <= m <= 2 ^ 53).
  { split; [pose proof (rne_ge_floor P (Q * 2 ^ j) ltac:(lia));
            pose proof (Z.div_pos P (Q * 2 ^ j) HP ltac:(lia)); lia|].
    apply rne_le_pow; lia. }
  apply roundPos_exact; [lia|]. unfold ulpExp. rewrite Z.div_1_r.
  destruct (Z.eq_dec m (2 ^ 53)) as [->|Hne].
  - rewrite <- Z.pow_add_r, Z.log2_pow2 by lia. apply pow2_divide; lia.
  - apply Z.divide_mul_l. apply pow2_divide. split; [lia|].
    destruct (Z.eq_dec m 0) as [->|Hm0]; [rewrite Z.mul_0_r; simpl; lia|].
    assert (Hl : Z.log2 (2 ^ j * m) < j + 53).
    { apply Z.log2_lt_pow2; [nia|]. rewrite Z.pow_add_r by lia. nia. }
    lia.
Qed.

Lemma roundK_isDouble P Q : 0 < Q -> isDouble (roundK P Q) = true.
Proof.
  intros HQ. unfold roundK.
  assert (HR : forall R, 0 <= R -> roundPos R 1 = R ->
            isDouble (if overflowK <=? Z.abs R then Infinity (R <? 0) else Finite R) = true /\
            isDouble (if overflowK <=? Z.abs (- R) then Infinity (- R <? 0) else Finite (- R)) = true).
  { intros R HR0 HRr. rewrite Z.abs_opp, Z.abs_eq by lia.
    destruct (Z.leb_spec overflowK R); [done|]. simpl.
    split; apply representable_spec; rewrite ?Z.abs_opp, Z.abs_eq by lia; done. }
  destruct (Z.ltb_spec P 0).
  - apply (HR (roundPos (- P) Q)); [apply roundPos_nonneg|apply roundPos_idem]; lia.
  - apply (HR (roundPos P Q)); [apply roundPos_nonneg|apply roundPos_idem]; lia.
Qed.

#[export] Hint Resolve roundK_isDouble : ggg.

End Float64.
