(* ===== verification/Encoding.v ===== *)
(** Character encodings, to read the bytes of HomePage.tsx as the browser
    does.  The source file is UTF-8; a string literal of the file is kept
    as a Rocq [string], that is, as the sequence of its UTF-8 bytes.
    [utf8Encode] and [utf8Decode] relate code points and bytes (RFC 3629,
    without the checks of overlong forms and surrogates, which the encoder
    never produces); [macRoman] is the Mac OS Roman character set, the
    reading of a byte as one character.  [misread] is what happens to a
    text whose UTF-8 bytes are read as Mac OS Roman and saved again as
    UTF-8, and [repair] undoes it: no information is lost (lemma
    [repair_misread]). *)

From Stdlib Require Import String Ascii ZArith List Bool Lia.
From stdpp Require Import base tactics.
From S2P Require Import Prelude.

Module Encoding.
Local Open Scope Z_scope.

(** The bytes of a string literal. *)
Definition bytesOf (s : string) : list Z :=
  map (fun a => Z.of_nat (nat_of_ascii a)) (list_ascii_of_string s).

(** ** UTF-8 *)

Definition utf8Encode (cp : Z) : list Z :=
  if cp <? 0x80 then [cp]
  else if cp <? 0x800 then [0xC0 + cp / 64; 0x80 + cp mod 64]
  else if cp <? 0x10000 then [0xE0 + cp / 4096; 0x80 + (cp / 64) mod 64; 0x80 + cp mod 64]
  else [0xF0 + cp / 262144; 0x80 + (cp / 4096) mod 64; 0x80 + (cp / 64) mod 64;
        0x80 + cp mod 64].

Definition utf8EncodeAll (cps : list Z) : list Z := flat_map utf8Encode cps.

(** A continuation byte [10xxxxxx]. *)
Definition cont (b : Z) : bool := (0x80 <=? b) && (b <? 0xC0).

Definition consOpt (x : Z) (o : option (list Z)) : option (list Z) :=
  match o with Some l => Some (x :: l) | None => None end.

Fixpoint utf8Decode (l : list Z) : option (list Z) :=
  match l with
  | [] => Some []
  | b0 :: r =>
      if b0 <? 0x80 then consOpt b0 (utf8Decode r)
      else if b0 <? 0xC0 then None
      else if b0 <? 0xE0 then
        match r with
        | b1 :: r1 =>
            if cont b1 then consOpt ((b0 - 0xC0) * 64 + (b1 - 0x80)) (utf8Decode r1) else None
        | _ => None
        end
      else if b0 <? 0xF0 then
        match r with
        | b1 :: b2 :: r2 =>
            if cont b1 && cont b2
            then consOpt ((b0 - 0xE0) * 4096 + (b1 - 0x80) * 64 + (b2 - 0x80)) (utf8Decode r2)
            else None
        | _ => None
        end
      else if b0 <? 0xF8 then
        match r with
        | b1 :: b2 :: b3 :: r3 =>
            if cont b1 && cont b2 && cont b3
            then consOpt ((b0 - 0xF0) * 262144 + (b1 - 0x80) * 4096 + (b2 - 0x80) * 64 +
                          (b3 - 0x80)) (utf8Decode r3)
            else None
        | _ => None
        end
      else None
  end.

(** ** Mac OS Roman *)

(** The characters of the bytes [0x80] to [0xFF]. *)
Definition macRomanHigh : list Z := [
  0xC4; 0xC5; 0xC7; 0xC9; 0xD1; 0xD6; 0xDC; 0xE1;
  0xE0; 0xE2; 0xE4; 0xE3; 0xE5; 0xE7; 0xE9; 0xE8;
  0xEA; 0xEB; 0xED; 0xEC; 0xEE; 0xEF; 0xF1; 0xF3;
  0xF2; 0xF4; 0xF6; 0xF5; 0xFA; 0xF9; 0xFB; 0xFC;
  0x2020; 0xB0; 0xA2; 0xA3; 0xA7; 0x2022; 0xB6; 0xDF;
  0xAE; 0xA9; 0x2122; 0xB4; 0xA8; 0x2260; 0xC6; 0xD8;
  0x221E; 0xB1; 0x2264; 0x2265; 0xA5; 0xB5; 0x2202; 0x2211;
  0x220F; 0x3C0; 0x222B; 0xAA; 0xBA; 0x3A9; 0xE6; 0xF8;
  0xBF; 0xA1; 0xAC; 0x221A; 0x192; 0x2248; 0x2206; 0xAB;
  0xBB; 0x2026; 0xA0; 0xC0; 0xC3; 0xD5; 0x152; 0x153;
  0x2013; 0x2014; 0x201C; 0x201D; 0x2018; 0x2019; 0xF7; 0x25CA;
  0xFF; 0x178; 0x2044; 0x20AC; 0x2039; 0x203A; 0xFB01; 0xFB02;
  0x2021; 0xB7; 0x201A; 0x201E; 0x2030; 0xC2; 0xCA; 0xC1;
  0xCB; 0xC8; 0xCD; 0xCE; 0xCF; 0xCC; 0xD3; 0xD4;
  0xF8FF; 0xD2; 0xDA; 0xDB; 0xD9; 0x131; 0x2C6; 0x2DC;
  0xAF; 0x2D8; 0x2D9; 0x2DA; 0xB8; 0x2DD; 0x2DB; 0x2C7
].

Definition macRoman (b : Z) : Z :=
  if b <? 0x80 then b else nth (Z.to_nat (b - 0x80)) macRomanHigh 0.

Fixpoint indexOf (x : Z) (l : list Z) : option nat :=
  match l with
  | [] => None
  | y :: r => if x =? y then Some 0%nat else option_map S (indexOf x r)
  end.

(** The byte Mac OS Roman reads as the character [cp], if any. *)
Definition macRomanInv (cp : Z) : option Z :=
  if (0 <=? cp) && (cp <? 0x80) then Some cp
  else option_map (fun i => 0x80 + Z.of_nat i) (indexOf cp macRomanHigh).

Fixpoint mapOpt (f : Z -> option Z) (l : list Z) : option (list Z) :=
  match l with
  | [] => Some []
  | x :: r => match f x with Some y => consOpt y (mapOpt f r) | None => None end
  end.

(** UTF-8 text read as Mac OS Roman and written back as UTF-8. *)
Definition misread (cps : list Z) : list Z := utf8EncodeAll (map macRoman (utf8EncodeAll cps)).

(** The inverse: the code points of the text whose misreading has these bytes. *)
Definition repair (bytes : list Z) : option (list Z) :=
  match utf8Decode bytes with
  | Some shown => match mapOpt macRomanInv shown with Some b => utf8Decode b | None => None end
  | None => None
  end.

Definition validCodePoint (cp : Z) : Prop := 0 <= cp < 0x110000.

Definition validCodePointb (cp : Z) : bool := (0 <=? cp) && (cp <? 0x110000).

(** ** Lemmas *)

Lemma validCodePoints_check cps : forallb validCodePointb cps = true -> Forall validCodePoint cps.
Proof.
  intros H. apply Forall_forall. intros cp Hin.
  pose proof (proj1 (forallb_forall _ _) H cp Hin) as Hc.
  unfold validCodePointb in Hc. apply andb_true_iff in Hc as [H1 H2].
  apply Z.leb_le in H1. apply Z.ltb_lt in H2. unfold validCodePoint. lia.
Qed.

(** Decide the comparisons of a goal whose outcome [lia] knows. *)
Ltac zcompare :=
  repeat first [ rewrite (proj2 (Z.ltb_lt _ _)) by lia | rewrite (proj2 (Z.ltb_ge _ _)) by lia
               | rewrite (proj2 (Z.leb_le _ _)) by lia | rewrite (proj2 (Z.leb_gt _ _)) by lia ].

(** The base-64 digits of a code point. *)
Lemma digits64 cp :
  0 <= cp ->
  cp = 64 * (cp / 64) + cp mod 64 /\ 0 <= cp mod 64 < 64 /\
  cp / 64 = 64 * (cp / 4096) + (cp / 64) mod 64 /\ 0 <= (cp / 64) mod 64 < 64 /\
  cp / 4096 = 64 * (cp / 262144) + (cp / 4096) mod 64 /\ 0 <= (cp / 4096) mod 64 < 64 /\
  0 <= cp / 262144.
Proof.
  intros H.
  assert (E1 : cp / 64 / 64 = cp / 4096) by (rewrite Z.div_div by lia; reflexivity).
  assert (E2 : cp / 4096 / 64 = cp / 262144) by (rewrite Z.div_div by lia; reflexivity).
  pose proof (Z.div_mod cp 64 ltac:(lia)). pose proof (Z.div_mod (cp / 64) 64 ltac:(lia)).
  pose proof (Z.div_mod (cp / 4096) 64 ltac:(lia)).
  pose proof (Z.mod_pos_bound cp 64 ltac:(lia)). pose proof (Z.mod_pos_bound (cp / 64) 64 ltac:(lia)).
  pose proof (Z.mod_pos_bound (cp / 4096) 64 ltac:(lia)).
  assert (0 <= cp / 262144) by (apply Z.div_pos; lia).
  rewrite E1 in *. rewrite E2 in *. lia.
Qed.

Lemma utf8Decode_encode cp rest :
  validCodePoint cp -> utf8Decode (utf8Encode cp ++ rest) = consOpt cp (utf8Decode rest).
Proof.
  unfold validCodePoint. intros Hcp. pose proof (digits64 cp ltac:(lia)) as D.
  unfold utf8Encode.
  destruct (Z.ltb_spec cp 0x80); [cbn [app utf8Decode]; zcompare; done|].
  destruct (Z.ltb_spec cp 0x800); [|destruct (Z.ltb_spec cp 0x10000)];
    cbn [app utf8Decode]; unfold cont; zcompare; cbn [andb]; f_equal; lia.
Qed.

Lemma utf8Decode_encodeAll cps :
  Forall validCodePoint cps -> utf8Decode (utf8EncodeAll cps) = Some cps.
Proof.
  induction 1 as [|cp cps Hcp _ IH]; [done|].
  unfold utf8EncodeAll in *. cbn [flat_map]. by rewrite utf8Decode_encode, IH.
Qed.

Lemma utf8Encode_bytes cp : validCodePoint cp -> Forall (fun b => 0 <= b < 256) (utf8Encode cp).
Proof.
  unfold validCodePoint. intros Hcp. pose proof (digits64 cp ltac:(lia)) as D.
  unfold utf8Encode.
  destruct (Z.ltb_spec cp 0x80); [|destruct (Z.ltb_spec cp 0x800);
                                    [|destruct (Z.ltb_spec cp 0x10000)]];
    repeat constructor; lia.
Qed.

Lemma utf8EncodeAll_bytes cps :
  Forall validCodePoint cps -> Forall (fun b => 0 <= b < 256) (utf8EncodeAll cps).
Proof.
  unfold utf8EncodeAll. induction 1 as [|cp cps Hcp _ IH]; [constructor|].
  cbn [flat_map]. apply Forall_app. split; [by apply utf8Encode_bytes|exact IH].
Qed.

Lemma macRoman_high_check :
  forallb (fun i => let b := 0x80 + Z.of_nat i in
                    (macRoman b <? 0x110000) &&
                    match macRomanInv (macRoman b) with Some b' => b' =? b | None => false end)
    (seq 0 128) = true.
Proof. vm_compute. reflexivity. Qed.

(** Mac OS Roman is a bijection from the bytes onto 256 code points. *)
Lemma macRoman_byte b :
  0 <= b < 256 -> validCodePoint (macRoman b) /\ macRomanInv (macRoman b) = Some b.
Proof.
  intros Hb. unfold validCodePoint. destruct (Z.ltb_spec b 0x80).
  - unfold macRomanInv, macRoman. zcompare. cbn [andb]. split; [split; lia|done].
  - pose proof (proj1 (forallb_forall _ _) macRoman_high_check (Z.to_nat (b - 0x80))
                  ltac:(apply in_seq; lia)) as Hc.
    cbv beta zeta in Hc. rewrite Z2Nat.id in Hc by lia.
    replace (0x80 + (b - 0x80)) with b in Hc by lia.
    apply andb_true_iff in Hc as [Hv Hi]. apply Z.ltb_lt in Hv.
    destruct (macRomanInv (macRoman b)) as [b'|]; [|done]. apply Z.eqb_eq in Hi as ->.
    split; [|done]. split; [|done]. unfold macRoman. zcompare.
    assert (Hnth : Forall (fun x => 0 <= x) macRomanHigh) by (repeat constructor; lia).
    destruct (nth_in_or_default (Z.to_nat (b - 0x80)) macRomanHigh 0) as [Hin| ->]; [|lia].
    rewrite Forall_forall in Hnth. by apply Hnth.
Qed.

Lemma mapOpt_macRoman bs :
  Forall (fun b => 0 <= b < 256) bs ->
  Forall validCodePoint (map macRoman bs) /\ mapOpt macRomanInv (map macRoman bs) = Some bs.
Proof.
  induction 1 as [|b bs Hb _ [IHv IH]]; [done|].
  destruct (macRoman_byte b Hb) as [Hv Hi]. cbn [map mapOpt]. rewrite Hi, IH.
  split; [by constructor|done].
Qed.

(** Misreading loses nothing: [repair] recovers the text. *)
Lemma repair_misread cps : Forall validCodePoint cps -> repair (misread cps) = Some cps.
Proof.
  intros Hv. destruct (mapOpt_macRoman _ (utf8EncodeAll_bytes _ Hv)) as [Hv' Hi].
  unfold repair, misread. rewrite utf8Decode_encodeAll, Hi by done.
  by apply utf8Decode_encodeAll.
Qed.

End Encoding.
