(* ===== verification/NumberFormat.v ===== *)
(** How the pages print numbers: [Number::toString] (ECMA-262 §6.1.6.1.20,
    used by a template literal such as [`${index * 0.2}s`], HomePage.tsx
    line 356, and by JSX text such as [{communityStats.totalReviews}]) and
    [Number.prototype.toFixed] ([averageRating.toFixed(1)],
    CommunityPage.tsx line 269), on the doubles of [Float64].

    [toString] prints the shortest decimal that reads back as the same
    double: for [k = 1, 2, ...] it tries the two [k]-digit decimals around
    the value (any [k]-digit decimal that reads back lies between one of
    them and the value), keeps those that read back, and prefers the closer
    one, then the even one.  The search is bounded by 17 digits, which is
    proved enough for every double.  [stringToNumber] reads the decimal
    literals back ([StringToNumber] restricted to optional sign, digits,
    fraction, exponent and [Infinity]; the white space, empty-string and
    hexadecimal forms are not needed for the printer's output). *)

From Stdlib Require Import String Ascii ZArith List Bool Lia.
From stdpp Require Import base tactics.
From S2P Require Import Prelude Float64.
Import ListNotations.
Open Scope string_scope.
Open Scope list_scope.

Module NumberFormat.
Import Float64.
Local Open Scope Z_scope.

(** ** Decimal digits *)

Definition digitChar (d : Z) : ascii := ascii_of_nat (48 + Z.to_nat d).

(** The decimal digits of [n >= 0], most significant first, prepended to
    [acc]; the fuel bounds the number of digits. *)
Fixpoint digitsAux (fuel : nat) (n : Z) (acc : list Z) : list Z :=
  match fuel with
  | O => n :: acc
  | S f => if n <? 10 then n :: acc else digitsAux f (n / 10) (n mod 10 :: acc)
  end.

(** A number has fewer decimal digits than bits. *)
Definition toDigits (n : Z) : list Z := digitsAux (Z.to_nat (Z.log2 n)) n [].

Definition digitsValue (ds : list Z) : Z := fold_left (fun a d => a * 10 + d) ds 0.

Definition digitsString (ds : list Z) : string := string_of_list_ascii (map digitChar ds).

Definition zeros (n : Z) : list Z := repeat 0 (Z.to_nat n).

(** ** Reading decimal literals back *)

Definition isDigitChar (c : ascii) : bool :=
  (48 <=? nat_of_ascii c)%nat && (nat_of_ascii c <=? 57)%nat.

Definition charDigit (c : ascii) : Z := Z.of_nat (nat_of_ascii c) - 48.

Arguments digitChar : simpl never.
Arguments isDigitChar : simpl never.
Arguments charDigit : simpl never.

(** The longest prefix of digits, and the rest. *)
Fixpoint spanDigits (l : list ascii) : list Z * list ascii :=
  match l with
  | c :: r =>
      if isDigitChar c then let '(ds, rest) := spanDigits r in (charDigit c :: ds, rest)
      else ([], l)
  | [] => ([], [])
  end.

(** The rest of [l] after its first character, when that character is [c]. *)
Definition dropChar (c : ascii) (l : list ascii) : option (list ascii) :=
  match l with
  | d :: r => if (d =? c)%char then Some r else None
  | [] => None
  end.

(** An optional sign: whether it is [-], and the rest. *)
Definition optSign (l : list ascii) : bool * list ascii :=
  match dropChar "-" l with
  | Some r => (true, r)
  | None => match dropChar "+" l with Some r => (false, r) | None => (false, l) end
  end.

(** The exponent part after [e] or [E]: [(+|-)? digits], to the end of
    the input. *)
Definition parseExponent (l : list ascii) : option Z :=
  let '(neg, l) := optSign l in
  match spanDigits l with
  | (ds, []) => if (0 <? length ds)%nat then
                  Some (if neg then - digitsValue ds else digitsValue ds)
                else None
  | _ => None
  end.

(** [StrUnsignedDecimalLiteral] as (significand, power of ten). *)
Definition parseUnsigned (l : list ascii) : option (Z * Z) :=
  let '(ip, r1) := spanDigits l in
  let '(fp, r2) := match dropChar "." r1 with Some r => spanDigits r | None => ([], r1) end in
  if (length ip =? 0)%nat && (length fp =? 0)%nat then None
  else
    let sig := digitsValue (ip ++ fp) in
    let shift := Z.of_nat (length fp) in
    match r2 with
    | [] => Some (sig, - shift)
    | c :: r3 =>
        if (c =? "e")%char || (c =? "E")%char then
          match parseExponent r3 with Some e => Some (sig, e - shift) | None => None end
        else None
    end.

(** The double nearest to [sig * 10^e]. *)
Definition roundDecimal (sig e : Z) : double :=
  if 0 <=? e then roundK (sig * 10 ^ e * scale) 1 else roundK (sig * scale) (10 ^ (- e)).

Definition negate (x : double) : double :=
  match x with
  | Finite K => Finite (- K)
  | Infinity neg => Infinity (negb neg)
  | NaN => NaN
  end.

(** [StrUnsignedDecimalLiteral] or [Infinity]; anything else is [NaN]. *)
Definition unsignedToNumber (l : list ascii) : double :=
  if String.eqb (string_of_list_ascii l) "Infinity" then Infinity false
  else match parseUnsigned l with
       | Some (sig, e) => roundDecimal sig e
       | None => NaN
       end.

Definition stringToNumber (s : string) : double :=
  let '(neg, l) := optSign (list_ascii_of_string s) in
  if neg then negate (unsignedToNumber l) else unsignedToNumber l.

(** ** [Number::toString] *)

(** The decimal exponent [n] of a positive double [K]:
    [10^(n-1) <= K * 2^-1074 < 10^n].  Every positive double is at least
    [2^-1074 > 10^-330]. *)
Definition decExp (K : Z) : Z := Z.of_nat (length (toDigits (K * 10 ^ 330 / scale))) - 330.

(** [floor (K * 2^-1074 / 10^q)] and whether the division is exact. *)
Definition floorAt (K q : Z) : Z * bool :=
  if 0 <=? q then (K / (scale * 10 ^ q), K mod (scale * 10 ^ q) =? 0)
  else (K * 10 ^ (- q) / scale, K * 10 ^ (- q) mod scale =? 0).

(** Twice the distance from [s * 10^q] to [K * 2^-1074], in a unit that
    depends only on [q]: compares candidates at the same [q]. *)
Definition distAt (K q s : Z) : Z :=
  if 0 <=? q then Z.abs (s * 10 ^ q * scale - K) else Z.abs (s * scale - K * 10 ^ (- q)).

(** The [k]-digit candidate for [K], if one of the two around it reads
    back as [K]: the closer one, and the even one on a tie. *)
Definition candidate (K n0 k : Z) : option Z :=
  let q := n0 - k in
  let '(lo, exact) := floorAt K q in
  let hi := if exact then lo else lo + 1 in
  let okLo := bool_decide (roundDecimal lo q = Finite K) in
  let okHi := bool_decide (roundDecimal hi q = Finite K) in
  match okLo, okHi with
  | true, true =>
      match Z.compare (distAt K q lo) (distAt K q hi) with
      | Lt => Some lo
      | Gt => Some hi
      | Eq => Some (if Z.even lo then lo else hi)
      end
  | true, false => Some lo
  | false, true => Some hi
  | false, false => None
  end.

(** [(s, k, n)] of the specification: [10^(k-1) <= s < 10^k] and the
    value [s * 10^(n-k)]; a candidate [10^k] is [10^(k-1)] one decade up. *)
Fixpoint shortestFrom (K n0 k : Z) (fuel : nat) : option (Z * Z * Z) :=
  match fuel with
  | O => None
  | S f =>
      match candidate K n0 k with
      | Some s => if s =? 10 ^ k then Some (10 ^ (k - 1), k, n0 + 1) else Some (s, k, n0)
      | None => shortestFrom K n0 (k + 1) f
      end
  end.

Definition shortest (K : Z) : option (Z * Z * Z) := shortestFrom K (decExp K) 1 17.

(** [e], the sign of the exponent and its digits (step 9). *)
Definition exponentPart (e : Z) : string :=
  ("e" ++ (if (e <? 0)%Z then "-" else "+") ++ digitsString (toDigits (Z.abs e)))%string.

(** Steps 6 to 9 of the specification: the digits of [s] ([k] of them)
    with the decimal point placed by [n]. *)
Definition formatDecimal (s k n : Z) : string :=
  let ds := toDigits s in
  if (k <=? n) && (n <=? 21) then digitsString (ds ++ zeros (n - k))
  else if (0 <? n) && (n <=? 21) then
    (digitsString (firstn (Z.to_nat n) ds) ++ "." ++ digitsString (skipn (Z.to_nat n) ds))%string
  else if (-6 <? n) && (n <=? 0) then
    ("0." ++ digitsString (app (zeros (- n)) ds))%string
  else
    let expo := exponentPart (n - 1) in
    if k =? 1 then (digitsString ds ++ expo)%string
    else (digitsString (firstn 1 ds) ++ "." ++ digitsString (skipn 1 ds) ++ expo)%string.

Definition toStringPos (K : Z) : string :=
  match shortest K with
  | Some (s, k, n) => formatDecimal s k n
  | None => ""
  end.

Definition toString (x : double) : string :=
  match x with
  | NaN => "NaN"
  | Infinity neg => ((if neg then "-" else "") ++ "Infinity")%string
  | Finite K =>
      if K =? 0 then "0"
      else if K <? 0 then ("-" ++ toStringPos (- K))%string else toStringPos K
  end.

(** ** [Number.prototype.toFixed] *)

(** Steps 10-12 for [x >= 0] below [10^21]: the integer [n] nearest to
    [x * 10^f] (the larger one on a tie), printed with [f] decimals. *)
Definition fixedDigits (f : nat) (n : Z) : string :=
  let m := if n =? 0 then [0] else toDigits n in
  if (f =? 0)%nat then digitsString m
  else
    let k := length m in
    let m := if (k <=? f)%nat then repeat 0 (f + 1 - k) ++ m else m in
    let k := length m in
    (digitsString (firstn (k - f) m) ++ "." ++ digitsString (skipn (k - f) m))%string.

Definition toFixed (f : nat) (x : double) : string :=
  match x with
  | NaN => "NaN"
  | Infinity _ => toString x
  | Finite K =>
      let sign := if K <? 0 then "-" else "" in
      let a := Z.abs K in
      if 10 ^ 21 * scale <=? a then (sign ++ toString (Finite a))%string
      else (sign ++ fixedDigits f ((2 * a * 10 ^ Z.of_nat f + scale) / (2 * scale)))%string
  end.

(** ** Digits: values and bounds *)

Definition isDigit (d : Z) : Prop := 0 <= d < 10.

Lemma digitsValue_app l1 l2 :
  digitsValue (l1 ++ l2) = digitsValue l1 * 10 ^ Z.of_nat (length l2) + digitsValue l2.
Proof.
  unfold digitsValue. rewrite fold_left_app.
  generalize (fold_left (fun a d => a * 10 + d) l1 0) as a.
  induction l2 as [|d l2 IH] using rev_ind; intros a; simpl; [lia|].
  rewrite !fold_left_app, IH, length_app. simpl.
  rewrite Nat2Z.inj_add, Z.pow_add_r by lia. simpl. lia.
Qed.

Lemma digitsValue_cons d l :
  digitsValue (d :: l) = d * 10 ^ Z.of_nat (length l) + digitsValue l.
Proof. apply (digitsValue_app [d] l). Qed.

Lemma digitsValue_zeros m l : digitsValue (zeros m ++ l) = digitsValue l.
Proof.
  rewrite digitsValue_app. unfold zeros, digitsValue.
  induction (Z.to_nat m) as [|i IH]; simpl; [lia|]. exact IH.
Qed.

Lemma digitsValue_bounds l :
  Forall isDigit l -> 0 <= digitsValue l < 10 ^ Z.of_nat (length l).
Proof.
  induction l as [|d l IH]; intros Hl; [unfold digitsValue; simpl; lia|].
  inversion Hl as [|? ? Hd Hr]; subst. unfold isDigit in Hd.
  specialize (IH Hr). rewrite digitsValue_cons. simpl length.
  rewrite Nat2Z.inj_succ, Z.pow_succ_r by lia. nia.
Qed.

Lemma digitsValue_lower d l :
  Forall isDigit l -> 1 <= d -> 10 ^ Z.of_nat (length l) <= digitsValue (d :: l).
Proof.
  intros Hl Hd. rewrite digitsValue_cons. pose proof (digitsValue_bounds l Hl). nia.
Qed.

Lemma digitsAux_spec f : forall n acc,
  0 <= n < 10 ^ (Z.of_nat f + 1) ->
  exists d ds, digitsAux f n acc = d :: ds ++ acc /\ isDigit d /\ (0 < n -> 0 < d) /\
               Forall isDigit ds /\ digitsValue (d :: ds) = n.
Proof.
  induction f as [|f IH]; intros n acc Hn; simpl.
  - exists n, []. simpl in Hn. unfold isDigit, digitsValue; simpl.
    repeat split; try constructor; lia.
  - destruct (Z.ltb_spec n 10).
    + exists n, []. unfold isDigit, digitsValue; simpl.
      repeat split; try constructor; lia.
    + destruct (IH (n / 10) (n mod 10 :: acc)) as (d & ds & -> & Hd & Hpos & Hds & Hv).
      { split; [apply Z.div_pos; lia|]. apply Z.div_lt_upper_bound; [lia|].
        rewrite Nat2Z.inj_succ in Hn. rewrite <- Z.pow_succ_r by lia.
        replace (Z.succ (Z.of_nat f + 1)) with (Z.succ (Z.of_nat f) + 1) by lia. lia. }
      exists d, (ds ++ [n mod 10]). rewrite <- app_assoc. split; [done|].
      split; [done|]. split; [intros _; apply Hpos; apply Z.div_str_pos; lia|].
      split; [apply Forall_app; split; [done|]; constructor; [|done];
              unfold isDigit; pose proof (Z.mod_pos_bound n 10); lia|].
      rewrite app_comm_cons, digitsValue_app, Hv. simpl.
      rewrite (Z.div_mod n 10) at 3 by lia. unfold digitsValue. simpl. lia.
Qed.

Lemma toDigits_spec n :
  0 <= n ->
  exists d ds, toDigits n = d :: ds /\ isDigit d /\ (0 < n -> 0 < d) /\
               Forall isDigit ds /\ digitsValue (d :: ds) = n.
Proof.
  intros Hn. unfold toDigits.
  destruct (digitsAux_spec (Z.to_nat (Z.log2 n)) n [] ) as (d & ds & H & ?).
  - split; [done|]. rewrite Z2Nat.id by apply Z.log2_nonneg.
    destruct (Z.eq_dec n 0) as [->|]; [done|].
    pose proof (Z.log2_spec n ltac:(lia)) as [_ Hlt].
    eapply Z.lt_le_trans; [exact Hlt|]. rewrite <- Z.add_1_r.
    apply Z.pow_le_mono_l. lia.
  - exists d, ds. rewrite H, app_nil_r. done.
Qed.

Lemma toDigits_value n : 0 <= n -> digitsValue (toDigits n) = n.
Proof. intros Hn. by destruct (toDigits_spec n Hn) as (d & ds & -> & _ & _ & _ & ?). Qed.

Lemma toDigits_digits n : 0 <= n -> Forall isDigit (toDigits n).
Proof.
  intros Hn. destruct (toDigits_spec n Hn) as (d & ds & -> & ? & _ & ? & _). by constructor.
Qed.

(** The number of digits: [10^(k-1) <= n < 10^k] for [k] digits. *)
Lemma toDigits_length n :
  0 < n ->
  10 ^ (Z.of_nat (length (toDigits n)) - 1) <= n < 10 ^ Z.of_nat (length (toDigits n)).
Proof.
  intros Hn. destruct (toDigits_spec n ltac:(lia)) as (d & ds & Hd & Hdd & Hpos & Hds & Hv).
  rewrite Hd. simpl length. rewrite Nat2Z.inj_succ, Z.sub_1_r, Z.pred_succ.
  split; [rewrite <- Hv; apply digitsValue_lower; [done|specialize (Hpos Hn); lia]|].
  rewrite <- Hv. rewrite <- Nat2Z.inj_succ.
  change (S (length ds)) with (length (d :: ds)). apply digitsValue_bounds. by constructor.
Qed.

(** A number with [k] digits has them all printed. *)
Lemma toDigits_length_unique n k :
  1 <= k -> 10 ^ (k - 1) <= n < 10 ^ k -> Z.of_nat (length (toDigits n)) = k.
Proof.
  intros Hk Hn. assert (Hn0 : 0 < n).
  { pose proof (Z.pow_pos_nonneg 10 (k - 1)). lia. }
  pose proof (toDigits_length n Hn0) as [Hlo Hhi].
  set (l := Z.of_nat (length (toDigits n))) in *.
  destruct (Z.lt_total l k) as [Hlt|[Heq|Hgt]]; [|done|].
  - assert (10 ^ l <= 10 ^ (k - 1)) by (apply Z.pow_le_mono_r; lia). lia.
  - assert (10 ^ k <= 10 ^ (l - 1)) by (apply Z.pow_le_mono_r; lia). lia.
Qed.

(** ** Reading printed digits back *)

Lemma digitChar_spec d :
  isDigit d -> isDigitChar (digitChar d) = true /\ charDigit (digitChar d) = d.
Proof.
  unfold isDigit. intros Hd.
  assert (d = 0 \/ d = 1 \/ d = 2 \/ d = 3 \/ d = 4 \/ d = 5 \/ d = 6 \/ d = 7 \/ d = 8 \/ d = 9)
    as Hc by lia.
  destruct Hc as [->|[->|[->|[->|[->|[->|[->|[->|[->| ->]]]]]]]]]; split; reflexivity.
Qed.

Lemma spanDigits_digits ds rest :
  Forall isDigit ds -> (forall c r, rest = c :: r -> isDigitChar c = false) ->
  spanDigits (map digitChar ds ++ rest) = (ds, rest).
Proof.
  intros Hds Hrest. induction Hds as [|d ds Hd _ IH].
  - destruct rest as [|c r]; [done|]. cbn [map app spanDigits].
    by rewrite (Hrest c r eq_refl).
  - cbn [map app spanDigits]. destruct (digitChar_spec d Hd) as [-> ->]. by rewrite IH.
Qed.

Lemma list_ascii_of_string_app s1 s2 :
  list_ascii_of_string (s1 ++ s2) = list_ascii_of_string s1 ++ list_ascii_of_string s2.
Proof. induction s1 as [|c s1 IH]; simpl; [done|]. by rewrite IH. Qed.

Lemma digitsString_list ds : list_ascii_of_string (digitsString ds) = map digitChar ds.
Proof. apply list_ascii_of_string_of_list_ascii. Qed.

(** The value [sig * 10^e] only matters. *)
Lemma roundDecimal_shift sig e t :
  0 <= t -> roundDecimal (sig * 10 ^ t) e = roundDecimal sig (e + t).
Proof.
  intros Ht. unfold roundDecimal.
  assert (0 < scale) by done.
  destruct (Z.leb_spec 0 e), (Z.leb_spec 0 (e + t)); [| lia | |].
  - f_equal. rewrite Z.pow_add_r by lia. lia.
  - replace (sig * 10 ^ t * scale) with (sig * 10 ^ (e + t) * scale * 10 ^ (- e)).
    + replace (10 ^ (- e)) with (1 * 10 ^ (- e)) at 2 by lia.
      apply roundK_scale; [lia|apply Z.pow_pos_nonneg; lia].
    + rewrite <- !Z.mul_assoc. f_equal. rewrite (Z.mul_comm scale), Z.mul_assoc.
      f_equal. rewrite <- Z.pow_add_r by lia. f_equal. lia.
  - replace (10 ^ (- e)) with (10 ^ (- (e + t)) * 10 ^ t)
      by (rewrite <- Z.pow_add_r by lia; f_equal; lia).
    replace (sig * 10 ^ t * scale) with (sig * scale * 10 ^ t) by lia.
    apply roundK_scale; apply Z.pow_pos_nonneg; lia.
Qed.

Lemma digitsString_app ds1 ds2 :
  list_ascii_of_string (digitsString (ds1 ++ ds2)) = map digitChar ds1 ++ map digitChar ds2.
Proof. by rewrite digitsString_list, map_app. Qed.

Lemma spanDigits_point ds rest :
  Forall isDigit ds -> spanDigits (map digitChar ds ++ "."%char :: rest) = (ds, "."%char :: rest).
Proof. intros Hds. apply spanDigits_digits; [done|]. by intros c r [= <- _]. Qed.

Lemma spanDigits_e ds rest :
  Forall isDigit ds -> spanDigits (map digitChar ds ++ "e"%char :: rest) = (ds, "e"%char :: rest).
Proof. intros Hds. apply spanDigits_digits; [done|]. by intros c r [= <- _]. Qed.

Lemma spanDigits_all ds : Forall isDigit ds -> spanDigits (map digitChar ds) = (ds, []).
Proof.
  intros Hds. rewrite <- (app_nil_r (map digitChar ds)).
  apply spanDigits_digits; [done|]. by intros c r ?.
Qed.

Lemma parseExponent_spec e :
  parseExponent ((if (e <? 0)%Z then "-"%char else "+"%char) :: map digitChar (toDigits (Z.abs e))) =
  Some e.
Proof.
  assert (Hd := toDigits_digits (Z.abs e) ltac:(lia)).
  destruct (toDigits_spec (Z.abs e) ltac:(lia)) as (d & ds & Hds & _).
  unfold parseExponent.
  destruct (Z.ltb_spec e 0); cbn [optSign dropChar Ascii.eqb Bool.eqb andb];
    rewrite (spanDigits_all _ Hd); rewrite Hds; simpl;
    rewrite <- Hds, toDigits_value by lia; f_equal; lia.
Qed.

Lemma parseUnsigned_int ip :
  Forall isDigit ip -> ip <> [] -> parseUnsigned (map digitChar ip) = Some (digitsValue ip, 0).
Proof.
  intros Hip Hne. unfold parseUnsigned. rewrite spanDigits_all by done.
  destruct ip; [done|]. simpl. by rewrite app_nil_r.
Qed.

Lemma parseUnsigned_frac ip fp :
  Forall isDigit ip -> Forall isDigit fp -> ip <> [] ->
  parseUnsigned (map digitChar ip ++ "."%char :: map digitChar fp) =
  Some (digitsValue (ip ++ fp), - Z.of_nat (length fp)).
Proof.
  intros Hip Hfp Hne. unfold parseUnsigned. rewrite spanDigits_point by done.
  cbn [dropChar Ascii.eqb Bool.eqb andb]. rewrite (spanDigits_all _ Hfp). destruct ip; done.
Qed.

Lemma parseUnsigned_int_exp ip e :
  Forall isDigit ip -> ip <> [] ->
  parseUnsigned (map digitChar ip ++ "e"%char ::
                   (if (e <? 0)%Z then "-"%char else "+"%char) :: map digitChar (toDigits (Z.abs e))) =
  Some (digitsValue ip, e).
Proof.
  intros Hip Hne. unfold parseUnsigned. rewrite spanDigits_e by done.
  destruct ip; [done|]. cbn -[parseExponent]. rewrite parseExponent_spec, app_nil_r.
  f_equal. f_equal. lia.
Qed.

Lemma parseUnsigned_frac_exp ip fp e :
  Forall isDigit ip -> Forall isDigit fp -> ip <> [] ->
  parseUnsigned (map digitChar ip ++ "."%char :: map digitChar fp ++ "e"%char ::
                   (if (e <? 0)%Z then "-"%char else "+"%char) :: map digitChar (toDigits (Z.abs e))) =
  Some (digitsValue (ip ++ fp), e - Z.of_nat (length fp)).
Proof.
  intros Hip Hfp Hne. unfold parseUnsigned. rewrite spanDigits_point by done.
  cbn [dropChar Ascii.eqb Bool.eqb andb]. rewrite spanDigits_e by done.
  destruct ip; [done|]. cbn -[parseExponent]. by rewrite parseExponent_spec.
Qed.

Lemma exponentPart_list e :
  list_ascii_of_string (exponentPart e) =
  "e"%char :: (if (e <? 0)%Z then "-"%char else "+"%char) :: map digitChar (toDigits (Z.abs e)).
Proof. unfold exponentPart. destruct (e <? 0)%Z; simpl; by rewrite digitsString_list. Qed.

Lemma zeros_digits m : Forall isDigit (zeros m).
Proof. apply Forall_forall. intros x Hx. apply repeat_spec in Hx. subst. unfold isDigit. lia. Qed.

Lemma zeros_length m : 0 <= m -> Z.of_nat (length (zeros m)) = m.
Proof. intros Hm. unfold zeros. rewrite repeat_length. lia. Qed.

Lemma digitsValue_zeros_r l m :
  0 <= m -> digitsValue (l ++ zeros m) = digitsValue l * 10 ^ m.
Proof.
  intros Hm. rewrite digitsValue_app, zeros_length by done.
  rewrite <- (app_nil_r (zeros m)), digitsValue_zeros. unfold digitsValue. simpl. lia.
Qed.

Lemma Forall_firstn_skipn {A} (P : A -> Prop) (m : nat) (l : list A) :
  Forall P l -> Forall P (firstn m l) /\ Forall P (skipn m l).
Proof. intros H. rewrite <- (firstn_skipn m l) in H. by apply Forall_app in H. Qed.

(** Step 9, the exponential form [d.ddde+x]: it reads back as the
    decimal it prints. *)
Lemma exponentForm_parse s k n :
  1 <= k -> 10 ^ (k - 1) <= s < 10 ^ k ->
  exists sig e,
    parseUnsigned (list_ascii_of_string
      (if k =? 1 then (digitsString (toDigits s) ++ exponentPart (n - 1))%string
       else (digitsString (firstn 1 (toDigits s)) ++ "." ++
             digitsString (skipn 1 (toDigits s)) ++ exponentPart (n - 1))%string)) =
      Some (sig, e) /\
    roundDecimal sig e = roundDecimal s (n - k).
Proof.
  intros Hk Hs.
  pose proof (toDigits_length_unique s k Hk Hs) as Hlen.
  assert (Hs0 : 0 <= s) by (pose proof (Z.pow_pos_nonneg 10 (k - 1)); lia).
  pose proof (toDigits_digits s Hs0) as Hd. pose proof (toDigits_value s Hs0) as Hv.
  destruct (toDigits_spec s Hs0) as (d0 & ds0 & Hds & _).
  set (l := toDigits s) in *.
  assert (Hne : l <> []) by (rewrite Hds; discriminate).
  destruct (Z.eqb_spec k 1) as [->|Hk1].
  - rewrite list_ascii_of_string_app, digitsString_list, exponentPart_list.
    eexists _, _. split; [apply parseUnsigned_int_exp; done|]. rewrite Hv. f_equal; lia.
  - rewrite !list_ascii_of_string_app, !digitsString_list, exponentPart_list.
    cbn [list_ascii_of_string app].
    eexists _, _. split; [apply parseUnsigned_frac_exp|].
    + by apply Forall_firstn_skipn.
    + by apply Forall_firstn_skipn.
    + by rewrite Hds.
    + rewrite firstn_skipn, Hv, length_skipn. f_equal; lia.
Qed.

(** The printed decimal reads back as [s * 10^(n-k)]. *)
Lemma formatDecimal_parse s k n :
  1 <= k -> 10 ^ (k - 1) <= s < 10 ^ k ->
  exists sig e, parseUnsigned (list_ascii_of_string (formatDecimal s k n)) = Some (sig, e) /\
                roundDecimal sig e = roundDecimal s (n - k).
Proof.
  intros Hk Hs.
  pose proof (toDigits_length_unique s k Hk Hs) as Hlen.
  assert (Hs0 : 0 <= s) by (pose proof (Z.pow_pos_nonneg 10 (k - 1)); lia).
  pose proof (toDigits_digits s Hs0) as Hd. pose proof (toDigits_value s Hs0) as Hv.
  destruct (toDigits_spec s Hs0) as (d0 & ds0 & Hds & _).
  unfold formatDecimal. set (l := toDigits s) in *.
  assert (Hne : l <> []) by (rewrite Hds; discriminate).
  destruct ((k <=? n) && (n <=? 21)) eqn:B6; [|destruct ((0 <? n) && (n <=? 21)) eqn:B7;
    [|destruct ((-6 <? n) && (n <=? 0)) eqn:B8]].
  - apply andb_true_iff in B6 as [B6 _]. apply Z.leb_le in B6.
    eexists _, 0. rewrite digitsString_list. split.
    + apply parseUnsigned_int; [apply Forall_app; split; [done|apply zeros_digits]|].
      by destruct l.
    + rewrite digitsValue_zeros_r, Hv by lia. rewrite roundDecimal_shift by lia. f_equal; lia.
  - apply andb_true_iff in B7 as [B7 B7']. apply Z.ltb_lt in B7. apply Z.leb_le in B7'.
    apply andb_false_iff in B6 as [B6|B6]; apply Z.leb_gt in B6; [|lia].
    rewrite !list_ascii_of_string_app, !digitsString_list. cbn [list_ascii_of_string app].
    eexists _, _. split; [apply parseUnsigned_frac|].
    + by apply Forall_firstn_skipn.
    + by apply Forall_firstn_skipn.
    + rewrite Hds. destruct (Z.to_nat n) eqn:E; [lia|discriminate].
    + rewrite firstn_skipn, Hv, length_skipn. f_equal; lia.
  - apply andb_true_iff in B8 as [B8a B8b]. apply Z.ltb_lt in B8a. apply Z.leb_le in B8b.
    replace (list_ascii_of_string ("0." ++ digitsString (zeros (- n) ++ l)))
      with (map digitChar [0] ++ "."%char :: map digitChar (zeros (- n) ++ l))
      by (cbn [list_ascii_of_string String.append]; by rewrite digitsString_list).
    eexists _, _. split; [apply parseUnsigned_frac|].
    + repeat constructor; lia.
    + apply Forall_app. split; [apply zeros_digits|done].
    + discriminate.
    + rewrite digitsValue_app, digitsValue_zeros, Hv, length_app, Nat2Z.inj_add, zeros_length by lia.
      unfold digitsValue at 1. simpl. f_equal; lia.
  - by apply exponentForm_parse.
Qed.

(** ** The shortest decimal: soundness and termination *)

(** All decimals below have at least [10^-400] as unit: multiplying by
    [10^400] makes every comparison one between integers. *)
Lemma roundDecimal_T sig q :
  -400 <= q -> roundDecimal sig q = roundK (sig * (scale * 10 ^ (q + 400))) (10 ^ 400).
Proof.
  intros Hq. unfold roundDecimal. assert (Hs : 0 < scale) by done.
  destruct (Z.leb_spec 0 q).
  - rewrite <- (roundK_scale _ 1 (10 ^ 400)) by (try apply Z.pow_pos_nonneg; lia).
    rewrite Z.mul_1_l, Z.pow_add_r by lia. f_equal. lia.
  - rewrite <- (roundK_scale _ _ (10 ^ (q + 400))) by (apply Z.pow_pos_nonneg; lia).
    rewrite <- Z.pow_add_r by lia. replace (- q + (q + 400)) with 400 by lia. f_equal. lia.
Qed.

Lemma floorAt_T K q :
  -400 <= q ->
  floorAt K q = (K * 10 ^ 400 / (scale * 10 ^ (q + 400)),
                 K * 10 ^ 400 mod (scale * 10 ^ (q + 400)) =? 0).
Proof.
  intros Hq. unfold floorAt. assert (Hs : 0 < scale) by done.
  assert (0 < 10 ^ (q + 400)) by (apply Z.pow_pos_nonneg; lia).
  destruct (Z.leb_spec 0 q).
  - rewrite Z.pow_add_r by lia. rewrite Z.mul_assoc.
    rewrite Z.div_mul_cancel_r, Z.mul_mod_distr_r by (try apply Z.pow_pos_nonneg; lia).
    f_equal. destruct (Z.eqb_spec (K mod (scale * 10 ^ q)) 0), (Z.eqb_spec (K mod (scale * 10 ^ q) * 10 ^ 400) 0);
      try done; [lia|]. exfalso. apply Z.mul_eq_0 in e as [|]; [done|].
    pose proof (Z.pow_pos_nonneg 10 400). lia.
  - replace (10 ^ 400) with (10 ^ (- q) * 10 ^ (q + 400)) by (rewrite <- Z.pow_add_r by lia; f_equal; lia).
    rewrite Z.mul_assoc, Z.div_mul_cancel_r, Z.mul_mod_distr_r by lia.
    f_equal. destruct (Z.eqb_spec (K * 10 ^ (- q) mod scale) 0),
      (Z.eqb_spec (K * 10 ^ (- q) mod scale * 10 ^ (q + 400)) 0); try done; [lia|].
    exfalso. apply Z.mul_eq_0 in e as [|]; lia.
Qed.

(** The decimal exponent: [10^(n-1) <= K * 2^-1074 < 10^n]. *)
Lemma decExp_spec K :
  0 < K ->
  -329 <= decExp K /\
  10 ^ (decExp K - 1 + 400) * scale <= K * 10 ^ 400 < 10 ^ (decExp K + 400) * scale.
Proof.
  intros HK. unfold decExp. assert (Hs : 0 < scale) by done.
  assert (Hbig : scale <= 10 ^ 330) by (apply Z.leb_le; vm_compute; reflexivity).
  set (N := K * 10 ^ 330 / scale).
  assert (HN : 1 <= N) by (apply Z.div_le_lower_bound; lia).
  pose proof (toDigits_length N ltac:(lia)) as [Hlo Hhi].
  set (d := Z.of_nat (length (toDigits N))) in *.
  assert (Hd : 1 <= d) by (destruct (Z.le_gt_cases d 0); [|lia];
    assert (10 ^ d <= 1) by (destruct (Z.eq_dec d 0) as [->|]; [done|rewrite Z.pow_neg_r; lia]); lia).
  pose proof (Z.mul_div_le (K * 10 ^ 330) scale Hs) as Hm1.
  pose proof (Z.mul_succ_div_gt (K * 10 ^ 330) scale Hs) as Hm2. fold N in Hm1, Hm2.
  split; [lia|].
  replace (d - 330 - 1 + 400) with ((d - 1) + 70) by lia.
  replace (d - 330 + 400) with (d + 70) by lia.
  replace (10 ^ 400) with (10 ^ 330 * 10 ^ 70) by (rewrite <- Z.pow_add_r; lia).
  rewrite !Z.pow_add_r by lia.
  assert (0 < 10 ^ 70) by (apply Z.pow_pos_nonneg; lia). nia.
Qed.

Lemma candidate_sound K n0 k s :
  candidate K n0 k = Some s ->
  roundDecimal s (n0 - k) = Finite K /\
  (s = fst (floorAt K (n0 - k)) \/ s = fst (floorAt K (n0 - k)) + 1).
Proof.
  unfold candidate. destruct (floorAt K (n0 - k)) as [lo ex]. simpl.
  destruct (bool_decide (roundDecimal lo (n0 - k) = Finite K)) eqn:Hl;
    destruct (bool_decide (roundDecimal (if ex then lo else lo + 1) (n0 - k) = Finite K)) eqn:Hh;
    apply bool_decide_eq_true in Hl || apply bool_decide_eq_false in Hl;
    apply bool_decide_eq_true in Hh || apply bool_decide_eq_false in Hh;
    try (intros [= <-]; split; [done|]; destruct ex; tauto); try discriminate.
  destruct (Z.compare _ _); [destruct (Z.even lo)|..]; intros [= <-];
    (split; [done|]; destruct ex; tauto).
Qed.

Lemma candidate_some K n0 k :
  let q := n0 - k in
  (roundDecimal (fst (floorAt K q)) q = Finite K \/
   roundDecimal (if snd (floorAt K q) then fst (floorAt K q) else fst (floorAt K q) + 1) q =
     Finite K) ->
  candidate K n0 k <> None.
Proof.
  simpl. unfold candidate. destruct (floorAt K (n0 - k)) as [lo ex]. simpl.
  intros [H|H]; [rewrite (bool_decide_eq_true_2 _ H)|rewrite (bool_decide_eq_true_2 _ H)];
    repeat case_match; discriminate.
Qed.

(** A decimal within the rounding interval of [K] reads back as [K]. *)
Lemma roundDecimal_near K sig q :
  0 < K -> roundPos K 1 = K -> K < overflowK -> -400 <= q -> 0 <= sig ->
  let G := scale * 10 ^ (q + 400) in
  let u := 2 ^ ulpExp K 1 in
  2 * Z.abs (sig * G - K * 10 ^ 400) < 10 ^ 400 * u ->
  (K * 10 ^ 400 <= sig * G \/ 4 * (K * 10 ^ 400 - sig * G) < 10 ^ 400 * u \/
   2 ^ 52 < K / u \/ ulpExp K 1 = 0) ->
  roundDecimal sig q = Finite K.
Proof.
  intros HK Hr Ho Hq Hsig G u Hnear Hside.
  assert (HG : 0 < G) by (unfold G; pose proof (Z.pow_pos_nonneg 10 (q + 400)); unfold scale; lia).
  assert (HT : 0 < 10 ^ 400) by done.
  rewrite roundDecimal_T by done. fold G.
  assert (Hp : roundPos (sig * G) (10 ^ 400) = K)
    by (apply roundPos_near; [done|done|done|nia|exact Hnear|exact Hside]).
  rewrite roundK_nonneg; [by rewrite Hp|nia|done|by rewrite Hp].
Qed.

(** Seventeen significant digits always read back: the search stops. *)
Lemma candidate_17 K :
  0 < K -> roundPos K 1 = K -> K < overflowK -> candidate K (decExp K) 17 <> None.
Proof.
  intros HK Hr Ho. destruct (decExp_spec K HK) as (Hn0 & Hlo & Hhi).
  set (n0 := decExp K) in *. set (q := n0 - 17).
  destruct (representable_shape K HK Hr) as (Hj & HKm & Hm53 & Hm52).
  assert (Hu : 0 < 2 ^ ulpExp K 1) by (apply Z.pow_pos_nonneg; lia).
  set (u := 2 ^ ulpExp K 1) in *. set (m := K / u) in *.
  assert (HT : 0 < 10 ^ 400) by done.
  assert (HG : 0 < scale * 10 ^ (q + 400))
    by (pose proof (Z.pow_pos_nonneg 10 (q + 400)); unfold scale; lia).
  set (G := scale * 10 ^ (q + 400)) in *.
  assert (HX : 10 ^ 16 * G <= K * 10 ^ 400).
  { replace (n0 - 1 + 400) with (16 + (q + 400)) in Hlo by (unfold q; lia).
    rewrite Z.pow_add_r in Hlo by lia. unfold G. lia. }
  set (X := K * 10 ^ 400) in *.
  assert (HGu : G < 10 ^ 400 * u) by nia.
  assert (HGb : 2 ^ 52 = m -> 2 * G < 10 ^ 400 * u) by nia.
  apply candidate_some. fold q. rewrite floorAt_T by (unfold q; lia). simpl. fold G X.
  pose proof (Z.mod_pos_bound X G HG) as Hmod. pose proof (Z.div_mod X G ltac:(lia)) as Hdm.
  set (lo := X / G) in *. set (D := X mod G) in *.
  assert (Hlo0 : 0 <= lo) by (apply Z.div_pos; lia).
  destruct (Z.le_gt_cases (2 * D) G) as [Hc|Hc].
  - left. apply roundDecimal_near; try done; [unfold q; lia| |].
    + fold G X. nia.
    + fold G X u. destruct (decide (2 ^ 52 < m \/ ulpExp K 1 = 0)) as [Hm|Hm]; [tauto|].
      right; left. specialize (HGb ltac:(specialize (Hm52 ltac:(lia)); lia)). nia.
  - right. destruct (Z.eqb_spec D 0) as [HD|HD]; [lia|].
    apply roundDecimal_near; try done; [unfold q; lia|lia| |].
    + fold G X. nia.
    + left. fold G X. nia.
Qed.

(** ** Reading back the printed number *)

Lemma parseUnsigned_head l sig e :
  parseUnsigned l = Some (sig, e) ->
  exists c r, l = c :: r /\ (isDigitChar c = true \/ c = "."%char).
Proof.
  intros H. destruct l as [|c r]; [discriminate|]. exists c, r. split; [done|].
  destruct (isDigitChar c) eqn:E; [by left|right].
  unfold parseUnsigned in H. cbn [spanDigits] in H. rewrite E in H.
  unfold dropChar in H. destruct (Ascii.eqb_spec c "."); [done|]. discriminate.
Qed.

Lemma unsignedToNumber_parse l sig e :
  parseUnsigned l = Some (sig, e) -> unsignedToNumber l = roundDecimal sig e.
Proof.
  intros H. unfold unsignedToNumber. rewrite H.
  destruct (parseUnsigned_head l sig e H) as (c & r & -> & Hc).
  destruct (String.eqb_spec (string_of_list_ascii (c :: r)) "Infinity") as [Hi|]; [|done].
  exfalso. injection Hi as -> _. destruct Hc as [Hc|Hc]; [discriminate|discriminate].
Qed.

Lemma optSign_unsigned l sig e :
  parseUnsigned l = Some (sig, e) -> optSign l = (false, l).
Proof.
  intros H. destruct (parseUnsigned_head l sig e H) as (c & r & -> & Hc).
  unfold optSign, dropChar.
  destruct (Ascii.eqb_spec c "-") as [->|]; [destruct Hc; discriminate|].
  destruct (Ascii.eqb_spec c "+") as [->|]; [destruct Hc; discriminate|done].
Qed.

Lemma stringToNumber_unsigned l sig e :
  parseUnsigned l = Some (sig, e) ->
  stringToNumber (string_of_list_ascii l) = roundDecimal sig e.
Proof.
  intros H. unfold stringToNumber. rewrite list_ascii_of_string_of_list_ascii.
  rewrite (optSign_unsigned l sig e H). by apply unsignedToNumber_parse.
Qed.

Lemma stringToNumber_minus l sig e :
  parseUnsigned l = Some (sig, e) ->
  stringToNumber ("-" ++ string_of_list_ascii l) = negate (roundDecimal sig e).
Proof.
  intros H. unfold stringToNumber. cbn [list_ascii_of_string String.append].
  rewrite list_ascii_of_string_of_list_ascii. cbn [optSign dropChar Ascii.eqb Bool.eqb andb].
  by rewrite (unsignedToNumber_parse l sig e H).
Qed.

(** The [k]-digit floor has [k] digits. *)
Lemma floorAt_digits K k :
  0 < K -> 1 <= k <= 17 ->
  10 ^ (k - 1) <= fst (floorAt K (decExp K - k)) < 10 ^ k.
Proof.
  intros HK Hk. destruct (decExp_spec K HK) as (Hn0 & Hlo & Hhi).
  rewrite floorAt_T by lia. simpl.
  assert (HG : 0 < scale * 10 ^ (decExp K - k + 400))
    by (pose proof (Z.pow_pos_nonneg 10 (decExp K - k + 400)); unfold scale; lia).
  replace (decExp K - 1 + 400) with ((k - 1) + (decExp K - k + 400)) in Hlo by lia.
  replace (decExp K + 400) with (k + (decExp K - k + 400)) in Hhi by lia.
  rewrite Z.pow_add_r in Hlo, Hhi by lia.
  split; [apply Z.div_le_lower_bound|apply Z.div_lt_upper_bound]; lia.
Qed.

Lemma shortestFrom_some K f k :
  1 <= k <= 17 -> 18 <= k + Z.of_nat f -> candidate K (decExp K) 17 <> None ->
  shortestFrom K (decExp K) k f <> None.
Proof.
  revert k. induction f as [|f IH]; intros k Hk Hf H17; [lia|]. simpl.
  destruct (candidate K (decExp K) k) as [c|] eqn:Hc; [by case_match|].
  destruct (Z.eq_dec k 17) as [->|]; [done|]. apply IH; [lia|lia|done].
Qed.

Lemma shortestFrom_sound K f k s k' n :
  0 < K -> 1 <= k -> k + Z.of_nat f <= 18 ->
  shortestFrom K (decExp K) k f = Some (s, k', n) ->
  1 <= k' < k + Z.of_nat f /\ 10 ^ (k' - 1) <= s < 10 ^ k' /\ roundDecimal s (n - k') = Finite K.
Proof.
  intros HK. revert k. induction f as [|f IH]; intros k Hk Hf; [done|]. simpl.
  destruct (candidate K (decExp K) k) as [c|] eqn:Hc;
    [|intros Hs; destruct (IH (k + 1) ltac:(lia) ltac:(lia) Hs) as (? & ? & ?); split; [lia|done]].
  destruct (candidate_sound _ _ _ _ Hc) as [Hr Hlohi].
  pose proof (floorAt_digits K k HK ltac:(lia)) as Hd.
  destruct (Z.eqb_spec c (10 ^ k)) as [->|Hne]; intros [= <- <- <-].
  - split; [lia|]. split; [split; [lia|apply Z.pow_lt_mono_r; lia]|].
    rewrite <- Hr. replace (10 ^ k) with (10 ^ (k - 1) * 10 ^ 1)
      by (rewrite <- Z.pow_add_r by lia; f_equal; lia).
    rewrite roundDecimal_shift by lia. f_equal. lia.
  - split; [lia|]. split; [lia|done].
Qed.

Lemma toStringPos_parse K :
  0 < K -> roundPos K 1 = K -> K < overflowK ->
  exists sig e, parseUnsigned (list_ascii_of_string (toStringPos K)) = Some (sig, e) /\
                roundDecimal sig e = Finite K.
Proof.
  intros HK Hr Ho. unfold toStringPos, shortest.
  destruct (shortestFrom K (decExp K) 1 17) as [[[s k] n]|] eqn:Hs.
  - destruct (shortestFrom_sound K 17 1 s k n HK ltac:(lia) ltac:(simpl; lia) Hs)
      as (Hk & Hsk & Hv).
    destruct (formatDecimal_parse s k n ltac:(lia) Hsk) as (sig & e & Hp & He).
    exists sig, e. split; [done|]. by rewrite He.
  - exfalso. apply (shortestFrom_some K 17 1); [lia|simpl; lia|by apply candidate_17|exact Hs].
Qed.

(** ** [toFixed] reads back as the rounded value *)

Lemma fixedDigits_parse f n :
  0 <= n ->
  parseUnsigned (list_ascii_of_string (fixedDigits f n)) = Some (n, - Z.of_nat f).
Proof.
  intros Hn. unfold fixedDigits.
  set (m0 := if n =? 0 then [0] else toDigits n).
  assert (Hm0 : Forall isDigit m0 /\ digitsValue m0 = n /\ m0 <> []).
  { unfold m0. destruct (Z.eqb_spec n 0) as [->|].
    - split; [repeat constructor; lia|]. split; [done|discriminate].
    - split; [by apply toDigits_digits|]. split; [by apply toDigits_value|].
      destruct (toDigits_spec n Hn) as (d & ds & -> & _). discriminate. }
  destruct Hm0 as (Hd & Hv & Hne).
  destruct (Nat.eqb_spec f 0) as [->|Hf].
  - rewrite digitsString_list, parseUnsigned_int by done. by rewrite Hv.
  - set (m1 := if (length m0 <=? f)%nat then repeat 0 (f + 1 - length m0) ++ m0 else m0).
    assert (Hm1 : Forall isDigit m1 /\ digitsValue m1 = n /\ (f + 1 <= length m1)%nat).
    { unfold m1. destruct (Nat.leb_spec (length m0) f).
      - split; [apply Forall_app; split; [|done]|].
        + apply Forall_forall. intros x Hx. apply repeat_spec in Hx as ->. unfold isDigit. lia.
        + rewrite length_app, repeat_length. split; [|lia].
          replace (repeat 0 (f + 1 - length m0)) with (zeros (Z.of_nat (f + 1 - length m0)))
            by (unfold zeros; by rewrite Nat2Z.id).
          by rewrite digitsValue_zeros.
      - split; [done|]. split; [done|lia]. }
    destruct Hm1 as (Hd1 & Hv1 & Hl1). clearbody m1.
    rewrite !list_ascii_of_string_app, !digitsString_list. cbn [list_ascii_of_string app].
    rewrite parseUnsigned_frac.
    + rewrite firstn_skipn, Hv1, length_skipn. do 3 f_equal. lia.
    + by apply Forall_firstn_skipn.
    + by apply Forall_firstn_skipn.
    + destruct m1 as [|d m1]; [simpl in Hl1; lia|].
      destruct (length (d :: m1) - f)%nat eqn:E; [simpl in *; lia|discriminate].
Qed.

(** ** Integers print as their decimal numeral *)

(** Digit lists of the same length and value are equal. *)
Lemma digits_eq l1 : forall l2,
  Forall isDigit l1 -> Forall isDigit l2 -> length l1 = length l2 ->
  digitsValue l1 = digitsValue l2 -> l1 = l2.
Proof.
  induction l1 as [|x l1 IH] using rev_ind; intros l2 H1 H2 Hlen Hv.
  - destruct l2; [done|simpl in Hlen; lia].
  - destruct l2 as [|y l2 _] using rev_ind; [rewrite length_app in Hlen; simpl in Hlen; lia|].
    rewrite !length_app in Hlen. simpl in Hlen.
    apply Forall_app in H1 as [H1 Hx]. apply Forall_app in H2 as [H2 Hy].
    inversion Hx as [|? ? Hx' _]; inversion Hy as [|? ? Hy' _]; subst. unfold isDigit in *.
    rewrite !digitsValue_app in Hv. unfold digitsValue at 2 4 in Hv. simpl in Hv.
    assert (x = y /\ digitsValue l1 = digitsValue l2) as [-> Hv'] by lia.
    rewrite (IH l2); [done|done|done|lia|done].
Qed.

Lemma decExp_int n :
  1 <= n <= maxSafeInteger -> decExp (n * scale) = Z.of_nat (length (toDigits n)).
Proof.
  intros Hn. assert (Hs : 0 < scale) by done.
  destruct (decExp_spec (n * scale) ltac:(nia)) as (He & Hlo & Hhi).
  pose proof (toDigits_length n ltac:(lia)) as [Dlo Dhi].
  set (e := decExp (n * scale)) in *. set (D := Z.of_nat (length (toDigits n))) in *.
  assert (HD : 1 <= D) by (destruct (Z.le_gt_cases D 0); [|lia];
    assert (10 ^ D <= 1) by (destruct (Z.eq_dec D 0) as [->|]; [done|rewrite Z.pow_neg_r; lia]); lia).
  assert (He1 : 1 <= e).
  { destruct (Z.le_gt_cases e 0) as [Hle|]; [|lia].
    assert (10 ^ (e + 400) <= 10 ^ 400) by (apply Z.pow_le_mono_r; lia). nia. }
  rewrite (Z.pow_add_r 10 (e - 1) 400) in Hlo by lia. rewrite (Z.pow_add_r 10 e 400) in Hhi by lia.
  assert (HT : 0 < scale * 10 ^ 400) by done.
  assert (Hlo' : 10 ^ (e - 1) * (scale * 10 ^ 400) <= n * (scale * 10 ^ 400)) by lia.
  assert (Hhi' : n * (scale * 10 ^ 400) < 10 ^ e * (scale * 10 ^ 400)) by lia.
  apply Z.mul_le_mono_pos_r in Hlo'; [|done]. apply Z.mul_lt_mono_pos_r in Hhi'; [|done].
  clear Hlo Hhi. rename Hlo' into Hlo. rename Hhi' into Hhi.
  destruct (Z.lt_total e D) as [Hlt|[Heq|Hgt]]; [|done|].
  - assert (10 ^ e <= 10 ^ (D - 1)) by (apply Z.pow_le_mono_r; lia). lia.
  - assert (10 ^ D <= 10 ^ (e - 1)) by (apply Z.pow_le_mono_r; lia). lia.
Qed.

Lemma roundDecimal_int s q : 0 <= q -> roundDecimal s q = ofZ (s * 10 ^ q).
Proof. intros Hq. unfold roundDecimal, ofZ. by rewrite (proj2 (Z.leb_le 0 q) Hq). Qed.

(** A safe integer is hit only by itself: any other integer reads back as
    another double. *)
Lemma ofZ_int_other n v :
  1 <= n <= maxSafeInteger -> 0 <= v -> v <> n -> ofZ v <> Finite (n * scale).
Proof.
  intros Hn Hv Hne. assert (Hs : 0 < scale) by done.
  destruct (Z.le_gt_cases v maxSafeInteger) as [Hsafe|Hbig].
  - rewrite ofZ_safe by lia. intros [= E]. apply Hne. nia.
  - unfold ofZ, roundK. rewrite (proj2 (Z.ltb_ge _ 0)) by nia.
    assert (Hr : 2 ^ 1127 <= roundPos (v * scale) 1).
    { apply roundPos_ge_pow2; [lia|]. unfold maxSafeInteger in Hbig.
      replace (2 ^ 1127) with (2 ^ 53 * scale) by done. nia. }
    destruct (Z.leb_spec overflowK (Z.abs (roundPos (v * scale) 1))); [discriminate|].
    intros [= E]. unfold maxSafeInteger in Hn.
    replace (2 ^ 1127) with (2 ^ 53 * scale) in Hr by done. nia.
Qed.

Lemma candidate_int n k :
  1 <= n <= maxSafeInteger ->
  let D := Z.of_nat (length (toDigits n)) in
  1 <= k <= D ->
  candidate (n * scale) D k =
    if n mod 10 ^ (D - k) =? 0 then Some (n / 10 ^ (D - k)) else None.
Proof.
  intros Hn D Hk. assert (Hs : 0 < scale) by done.
  assert (Hp : 0 < 10 ^ (D - k)) by (apply Z.pow_pos_nonneg; lia).
  unfold candidate. unfold floorAt. rewrite (proj2 (Z.leb_le 0 (D - k))) by lia.
  rewrite (Z.mul_comm scale (10 ^ (D - k))), Z.div_mul_cancel_r, Z.mul_mod_distr_r by lia.
  pose proof (Z.div_mod n (10 ^ (D - k)) ltac:(lia)) as Hdm.
  pose proof (Z.mod_pos_bound n (10 ^ (D - k)) Hp) as Hmb.
  set (lo := n / 10 ^ (D - k)) in *. set (r := n mod 10 ^ (D - k)) in *.
  assert (Hlo0 : 0 <= lo) by (apply Z.div_pos; lia).
  destruct (Z.eqb_spec r 0) as [Hr|Hr].
  - rewrite (proj2 (Z.eqb_eq (r * scale) 0)) by lia.
    assert (Hok : roundDecimal lo (D - k) = Finite (n * scale)).
    { rewrite roundDecimal_int by lia. rewrite ofZ_safe by nia. f_equal. lia. }
    cbv beta iota. rewrite (bool_decide_eq_true_2 _ Hok), Z.compare_refl.
    by destruct (Z.even lo).
  - rewrite (proj2 (Z.eqb_neq (r * scale) 0)) by nia.
    rewrite !bool_decide_eq_false_2; [done| |];
      rewrite roundDecimal_int by lia; apply ofZ_int_other; nia.
Qed.

Lemma shortestFrom_int n k f :
  1 <= n <= maxSafeInteger ->
  let D := Z.of_nat (length (toDigits n)) in
  1 <= k <= D -> D < k + Z.of_nat f ->
  exists k', k <= k' <= D /\ n mod 10 ^ (D - k') = 0 /\
             shortestFrom (n * scale) D k f = Some (n / 10 ^ (D - k'), k', D).
Proof.
  intros Hn D. revert k. induction f as [|f IH]; intros k Hk Hf; [lia|]. simpl.
  rewrite candidate_int by done. fold D.
  destruct (Z.eqb_spec (n mod 10 ^ (D - k)) 0) as [Hr|Hr].
  - exists k. split; [lia|]. split; [done|].
    pose proof (toDigits_length n ltac:(lia)) as [_ Dhi]. fold D in Dhi.
    assert (Hp : 0 < 10 ^ (D - k)) by (apply Z.pow_pos_nonneg; lia).
    assert (n / 10 ^ (D - k) < 10 ^ k).
    { apply Z.div_lt_upper_bound; [done|]. rewrite <- Z.pow_add_r by lia.
      replace (D - k + k) with D by lia. done. }
    by rewrite (proj2 (Z.eqb_neq _ _)) by lia.
  - destruct (Z.eq_dec k D) as [->|HkD]; [by rewrite Z.sub_diag, Z.pow_0_r, Z.mod_1_r in Hr|].
    destruct (IH (k + 1) ltac:(lia) ltac:(lia)) as (k' & Hk' & Hr' & Hs).
    exists k'. split; [lia|]. by split.
Qed.

(** [String(n)] for a positive safe integer is its decimal numeral. *)
Lemma toString_int n :
  1 <= n <= maxSafeInteger -> toString (ofZ n) = digitsString (toDigits n).
Proof.
  intros Hn. assert (Hs : 0 < scale) by done.
  rewrite ofZ_safe by lia. unfold toString.
  rewrite (proj2 (Z.eqb_neq _ 0)) by nia. rewrite (proj2 (Z.ltb_ge _ 0)) by nia.
  unfold toStringPos, shortest. rewrite decExp_int by done.
  pose proof (toDigits_length n ltac:(lia)) as [Dlo Dhi].
  set (D := Z.of_nat (length (toDigits n))) in *.
  assert (HD1 : 1 <= D) by (destruct (Z.le_gt_cases D 0); [|lia];
    assert (10 ^ D <= 1) by (destruct (Z.eq_dec D 0) as [->|]; [done|rewrite Z.pow_neg_r; lia]); lia).
  assert (HD : D <= 16).
  { destruct (Z.le_gt_cases D 16); [done|].
    assert (10 ^ 16 <= 10 ^ (D - 1)) by (apply Z.pow_le_mono_r; lia).
    unfold maxSafeInteger in Hn. lia. }
  destruct (shortestFrom_int n 1 17 Hn ltac:(lia) ltac:(simpl; lia)) as (k & Hk & Hr & Hsh).
  fold D in Hk, Hr, Hsh. rewrite Hsh.
  assert (Hp : 0 < 10 ^ (D - k)) by (apply Z.pow_pos_nonneg; lia).
  pose proof (Z.div_mod n (10 ^ (D - k)) ltac:(lia)) as Hdm. rewrite Hr, Z.add_0_r in Hdm.
  set (s := n / 10 ^ (D - k)) in *.
  assert (Hsk : 10 ^ (k - 1) <= s < 10 ^ k).
  { assert (E1 : 10 ^ D = 10 ^ (D - k) * 10 ^ k)
      by (rewrite <- Z.pow_add_r by lia; f_equal; lia).
    assert (E2 : 10 ^ (D - 1) = 10 ^ (D - k) * 10 ^ (k - 1))
      by (rewrite <- Z.pow_add_r by lia; f_equal; lia).
    rewrite E1 in Dhi. rewrite E2 in Dlo. rewrite Hdm in Dlo, Dhi. nia. }
  unfold formatDecimal. rewrite (proj2 (Z.leb_le k D)), (proj2 (Z.leb_le D 21)) by lia. simpl.
  f_equal. apply digits_eq.
  - apply Forall_app. split; [apply toDigits_digits; lia|apply zeros_digits].
  - apply toDigits_digits. lia.
  - apply Nat2Z.inj. rewrite length_app, Nat2Z.inj_add, zeros_length by lia.
    rewrite (toDigits_length_unique s k) by lia. fold D. lia.
  - rewrite digitsValue_zeros_r, !toDigits_value by lia. lia.
Qed.

Lemma toString_nat n :
  0 <= n <= maxSafeInteger -> toString (ofZ n) = digitsString (toDigits n).
Proof.
  intros Hn. destruct (Z.eq_dec n 0) as [->|]; [reflexivity|]. apply toString_int. lia.
Qed.

(** [x.toFixed(f)] below [10^21]: the sign, then the digits of
    [n = floor(|x| * 10^f + 1/2)], which lies within half a unit of
    [|x| * 10^f]. *)
Lemma toFixed_round f K :
  Z.abs K < 10 ^ 21 * scale ->
  let n := (2 * Z.abs K * 10 ^ Z.of_nat f + scale) / (2 * scale) in
  toFixed f (Finite K) = ((if (K <? 0)%Z then "-" else "") ++ fixedDigits f n)%string /\
  scale * (2 * n - 1) <= 2 * Z.abs K * 10 ^ Z.of_nat f < scale * (2 * n + 1).
Proof.
  intros HK n. assert (Hs : 0 < scale) by done. split.
  - simpl. destruct (Z.leb_spec (10 ^ 21 * scale) (Z.abs K)); [lia|done].
  - pose proof (Z.mul_div_le (2 * Z.abs K * 10 ^ Z.of_nat f + scale) (2 * scale) ltac:(lia))
      as H1.
    pose proof (Z.mul_succ_div_gt (2 * Z.abs K * 10 ^ Z.of_nat f + scale) (2 * scale)
                  ltac:(lia)) as H2.
    fold n in H1, H2. lia.
Qed.

(** ** Properties *)

(** [Number::toString] terminates: for every positive finite double
    the search for the shortest decimal that reads back as the same double
    succeeds with at most 17 significant digits, and its result [(s, k, n)]
    has exactly [k] digits and denotes [s * 10^(n-k)], which rounds to the
    double. *)
Theorem shortest_terminates K :
  0 < K -> representable K = true ->
  exists s k n, shortest K = Some (s, k, n) /\ 1 <= k <= 17 /\
                10 ^ (k - 1) <= s < 10 ^ k /\ roundDecimal s (n - k) = Finite K.
Proof.
  intros HK Hrep. apply representable_spec in Hrep as [Ho Hr]. rewrite Z.abs_eq in * by lia.
  unfold shortest. destruct (shortestFrom K (decExp K) 1 17) as [[[s k] n]|] eqn:Hs.
  - destruct (shortestFrom_sound K 17 1 s k n HK ltac:(lia) ltac:(simpl; lia) Hs)
      as (Hk & Hsk & Hv).
    exists s, k, n. split; [done|]. split; [simpl in Hk; lia|]. done.
  - exfalso. apply (shortestFrom_some K 17 1); [lia|simpl; lia|by apply candidate_17|exact Hs].
Qed.

(** What [toString] prints reads back as the same number:
    [Number(String(x)) = x] for every double (finite, infinite or NaN;
    the negative zero is not distinguished). *)
Theorem toString_roundtrip x : isDouble x = true -> stringToNumber (toString x) = x.
Proof.
  destruct x as [K|[]|]; intros Hx; [|reflexivity..].
  apply representable_spec in Hx as [Ho Hr].
  destruct (Z.eqb_spec K 0) as [->|HK0]; [reflexivity|].
  unfold toString. rewrite (proj2 (Z.eqb_neq K 0) HK0).
  destruct (Z.ltb_spec K 0) as [Hneg|Hpos].
  - rewrite Z.abs_neq in Ho, Hr by lia.
    destruct (toStringPos_parse (- K) ltac:(lia) Hr Ho) as (sig & e & Hp & He).
    rewrite <- (string_of_list_ascii_of_string (toStringPos (- K))).
    rewrite (stringToNumber_minus _ sig e Hp), He. simpl. by rewrite Z.opp_involutive.
  - rewrite Z.abs_eq in Ho, Hr by lia.
    destruct (toStringPos_parse K ltac:(lia) Hr Ho) as (sig & e & Hp & He).
    rewrite <- (string_of_list_ascii_of_string (toStringPos K)).
    by rewrite (stringToNumber_unsigned _ sig e Hp), He.
Qed.

(** [x.toFixed(f)] for a finite [x] below [10^21] in magnitude prints
    the sign of [x] and the integer [n] nearest to [|x| * 10^f] (the larger
    one on a tie) with [f] decimals: the string reads back as
    [n * 10^-f]. *)
Theorem toFixed_nearest f K :
  Z.abs K < 10 ^ 21 * scale ->
  exists n, toFixed f (Finite K) = ((if (K <? 0)%Z then "-" else "") ++ fixedDigits f n)%string /\
    scale * (2 * n - 1) <= 2 * Z.abs K * 10 ^ Z.of_nat f < scale * (2 * n + 1) /\
    parseUnsigned (list_ascii_of_string (fixedDigits f n)) = Some (n, - Z.of_nat f).
Proof.
  intros HK. destruct (toFixed_round f K HK) as [Hfix Hn].
  eexists. split; [exact Hfix|]. split; [exact Hn|].
  apply fixedDigits_parse. apply Z.div_pos; [|done].
  pose proof (Z.pow_nonneg 10 (Z.of_nat f)). assert (0 < scale) by done. nia.
Qed.

End NumberFormat.
