(* ===== verification/Domain.v ===== *)
(** The data of the community page: complaints (read from the complaint
    context), reviews (the [Review] interface of CommunityPage.tsx, lines
    23-39) and the review collection the page renders ([generateReviews],
    lines 59-146).  A JavaScript [Date] is represented by its [getTime()]
    value, milliseconds since the epoch, as a [Z]. *)

From Stdlib Require Import String ZArith List.
From stdpp Require Import base tactics decidable strings numbers.
From S2P Require Import Prelude.
Import ListNotations.
Open Scope string_scope.

(** The complaint record the page reads.  The type is declared in the
    complaint context, outside the sources; its fields are those of the
    spec (section 3) that the page uses. *)
Module Complaint.
Inductive status := submitted | routed | in_progress | resolved | closed.

#[export] Instance status_eq_dec : EqDecision status.
Proof. solve_decision. Defined.

Record location := mkLocation { address : string }.

Record t := mkComplaint {
  id : string;
  title : string;
  location_ : location;
  status_ : status;
  submittedBy : string;
  rating : option Z
}.

(** JavaScript truthiness of the optional numeric [c.rating]:
    [undefined] and [0] are falsy. *)
Definition ratingTruthy (c : t) : bool :=
  match rating c with Some r => negb (r =? 0)%Z | None => false end.

(** [c.status === 'resolved'] *)
Definition isResolved (c : t) : bool := bool_decide (status_ c = resolved).
End Complaint.

(** The authenticated user of the auth context: only its [id] is read. *)
Module User.
Record t := mkUser { id : string; name : string }.
End User.

(** [interface Review]; [createdAt] is the [getTime()] of the [Date]. *)
Module Review.
Record t := mkReview {
  id : string;
  complaintId : string;
  userId : string;
  userName : string;
  userAvatar : option string;
  rating : Z;
  title : string;
  content : string;
  photos : option (list string);
  helpful : Z;
  notHelpful : Z;
  createdAt : Z;
  category : string;
  location : string;
  serviceProvider : string
}.

#[export] Instance eq_dec : EqDecision t.
Proof. solve_decision. Defined.
End Review.

(** [new Date('2024-06-dd').getTime()]: ISO dates without a time are UTC
    midnight. *)
Definition date_2024_06_10 : Z := 1717977600000.
Definition date_2024_06_08 : Z := 1717804800000.
Definition date_2024_06_05 : Z := 1717545600000.
Definition date_2024_06_03 : Z := 1717372800000.
Definition date_2024_06_01 : Z := 1717200000000.

(** [generateReviews]: the resolved complaints it computes are unused; the
    result is the fixed list below, whatever the complaints are (the
    avatar and photo URLs as the source writes them). *)
Definition generateReviews (complaints : list Complaint.t) : list Review.t :=
  let _resolvedComplaints :=
    List.filter (fun c => Complaint.isResolved c && Complaint.ratingTruthy c)
      complaints in
  [ {| Review.id := "review-1"; Review.complaintId := "complaint-1";
       Review.userId := "user-1"; Review.userName := "Sarah Johnson";
       Review.userAvatar := Some
         "https://images.pexels.com/photos/774909/pexels-photo-774909.jpeg?auto=compress&cs=tinysrgb&w=150&h=150&fit=crop";
       Review.rating := 5; Review.title := "Excellent Water Service Repair";
       Review.content := "The water department responded quickly to my complaint about low water pressure. The technician was professional, explained the issue clearly, and fixed it within 2 hours. Very impressed with the service quality!";
       Review.photos := Some
         ["https://images.pexels.com/photos/1108572/pexels-photo-1108572.jpeg?auto=compress&cs=tinysrgb&w=400"];
       Review.helpful := 12; Review.notHelpful := 1; Review.createdAt := date_2024_06_10;
       Review.category := "Water Services"; Review.location := "Downtown District";
       Review.serviceProvider := "City Water Department" |};
    {| Review.id := "review-2"; Review.complaintId := "complaint-2";
       Review.userId := "user-2"; Review.userName := "Michael Chen";
       Review.userAvatar := Some
         "https://images.pexels.com/photos/1222271/pexels-photo-1222271.jpeg?auto=compress&cs=tinysrgb&w=150&h=150&fit=crop";
       Review.rating := 4; Review.title := "Road Repair Completed Successfully";
       Review.content := "The pothole on Main Street was finally fixed after my complaint. It took about a week, but the quality of work is good. The road is smooth now and should last for years. Thank you to the road maintenance team!";
       Review.photos := None;
       Review.helpful := 8; Review.notHelpful := 0; Review.createdAt := date_2024_06_08;
       Review.category := "Roads & Transportation"; Review.location := "Main Street";
       Review.serviceProvider := "Public Works Department" |};
    {| Review.id := "review-3"; Review.complaintId := "complaint-3";
       Review.userId := "user-3"; Review.userName := "Emily Rodriguez";
       Review.userAvatar := Some
         "https://images.pexels.com/photos/1239291/pexels-photo-1239291.jpeg?auto=compress&cs=tinysrgb&w=150&h=150&fit=crop";
       Review.rating := 5; Review.title := "Street Light Fixed Promptly";
       Review.content := "Reported a broken street light near the school and it was fixed the next day! Great response time and the new LED light is much brighter. Makes the area safer for kids walking to school.";
       Review.photos := Some
         ["https://images.pexels.com/photos/1108572/pexels-photo-1108572.jpeg?auto=compress&cs=tinysrgb&w=400"];
       Review.helpful := 15; Review.notHelpful := 0; Review.createdAt := date_2024_06_05;
       Review.category := "Street Lighting"; Review.location := "School District";
       Review.serviceProvider := "Electrical Services" |};
    {| Review.id := "review-4"; Review.complaintId := "complaint-4";
       Review.userId := "user-4"; Review.userName := "David Kim";
       Review.userAvatar := None;
       Review.rating := 3; Review.title := "Sanitation Service - Room for Improvement";
       Review.content := "The garbage collection issue was resolved, but it took longer than expected. The crew was friendly when they came, but communication could be better. Overall satisfied with the outcome.";
       Review.photos := None;
       Review.helpful := 5; Review.notHelpful := 2; Review.createdAt := date_2024_06_03;
       Review.category := "Sanitation"; Review.location := "Residential Area";
       Review.serviceProvider := "Waste Management" |};
    {| Review.id := "review-5"; Review.complaintId := "complaint-5";
       Review.userId := "user-5"; Review.userName := "Lisa Thompson";
       Review.userAvatar := None;
       Review.rating := 5; Review.title := "Outstanding Electrical Service";
       Review.content := "Power outage was resolved within 4 hours of reporting. The electrical team worked efficiently and kept us updated throughout the process. Excellent emergency response!";
       Review.photos := None;
       Review.helpful := 20; Review.notHelpful := 1; Review.createdAt := date_2024_06_01;
       Review.category := "Electricity"; Review.location := "North District";
       Review.serviceProvider := "Power Company" |} ].

(** The collection does not depend on the complaint store. *)
Lemma generateReviews_const cs1 cs2 : generateReviews cs1 = generateReviews cs2.
Proof. reflexivity. Qed.
