(* ===== verification/Eligibility.v ===== *)
(** The eligibility list of CommunityPage.tsx, lines 150-155:
    [userResolvedComplaints], the complaints the current user submitted,
    that are resolved, and that the user has not reviewed.  The user comes
    from the auth context and may be absent ([user?.id] is [undefined]). *)

From Stdlib Require Import String ZArith List Bool.
From stdpp Require Import base tactics decidable list.
From S2P Require Import Prelude Domain.
Import ListNotations.
Open Scope string_scope.

Module Eligibility.

(** [s === user?.id]: a string is never equal to [undefined]. *)
Definition eqUserId (s : string) (user : option User.t) : bool :=
  match user with
  | Some u => s ===ₛ User.id u
  | None => false
  end.

(** [r.complaintId === c.id && r.userId === user?.id] *)
Definition reviewedBy (user : option User.t) (c : Complaint.t) (r : Review.t) : bool :=
  (Review.complaintId r ===ₛ Complaint.id c) && eqUserId (Review.userId r) user.

(** The predicate of the [filter] call. *)
Definition eligible (reviews : list Review.t) (user : option User.t) (c : Complaint.t) : bool :=
  eqUserId (Complaint.submittedBy c) user &&
  Complaint.isResolved c &&
  negb (existsb (reviewedBy user c) reviews).

Definition userResolvedComplaints (complaints : list Complaint.t)
    (reviews : list Review.t) (user : option User.t) : list Complaint.t :=
  List.filter (eligible reviews user) complaints.

(** ** Lemmas *)

Lemma eligible_spec reviews u c :
  eligible reviews (Some u) c = true <->
  Complaint.submittedBy c = User.id u /\
  Complaint.status_ c = Complaint.resolved /\
  ~ (exists r, In r reviews /\ Review.complaintId r = Complaint.id c /\
               Review.userId r = User.id u).
Proof.
  unfold eligible, reviewedBy, eqUserId, Complaint.isResolved.
  rewrite !andb_true_iff, negb_true_iff, String.eqb_eq, bool_decide_eq_true.
  rewrite <- not_true_iff_false, existsb_exists.
  split.
  - intros [[H1 H2] Hn]. do 2 (split; [done|]).
    intros (r & Hr & Hc & Hu). apply Hn. exists r. split; [done|]. by bsimpl.
  - intros (H1 & H2 & Hn). split; [split; done|].
    intros (r & Hr & Hb). apply Hn. exists r.
    apply andb_true_iff in Hb as [H3 H4]. apply String.eqb_eq in H3, H4. naive_solver.
Qed.

Lemma userResolvedComplaints_no_user complaints reviews :
  userResolvedComplaints complaints reviews None = [].
Proof. apply filter_none. intros c _. done. Qed.

(** A review by [u] of complaint [r.complaintId] removes exactly that
    complaint from [u]'s list. *)
Lemma eligible_cons_same reviews u r c :
  Review.userId r = User.id u ->
  eligible (r :: reviews) (Some u) c =
    eligible reviews (Some u) c && negb (Review.complaintId r =? Complaint.id c).
Proof.
  intros Hu. unfold eligible, reviewedBy, eqUserId. simpl.
  rewrite Hu, String.eqb_refl, andb_true_r, negb_orb.
  by destruct (Complaint.submittedBy c =? User.id u), (Complaint.isResolved c),
    (Review.complaintId r =? Complaint.id c), (existsb _ reviews).
Qed.

Lemma eligible_cons_other reviews u r c :
  Review.userId r <> User.id u ->
  eligible (r :: reviews) (Some u) c = eligible reviews (Some u) c.
Proof.
  intros Hu. unfold eligible, reviewedBy, eqUserId. simpl.
  apply String.eqb_neq in Hu. by rewrite Hu, andb_false_r.
Qed.

(** ** Properties *)

(** C4: a complaint is in the eligibility list of user [u] exactly when it
    is in the complaint store, was submitted by [u], is resolved, and no
    review of it by [u] exists; the list keeps the store's order. *)
Theorem userResolvedComplaints_spec complaints reviews u c :
  (In c (userResolvedComplaints complaints reviews (Some u)) <->
   In c complaints /\ Complaint.submittedBy c = User.id u /\
   Complaint.status_ c = Complaint.resolved /\
   ~ (exists r, In r reviews /\ Review.complaintId r = Complaint.id c /\
                Review.userId r = User.id u)) /\
  userResolvedComplaints complaints reviews (Some u) ⊆+ complaints.
Proof.
  unfold userResolvedComplaints. split; [|apply filter_sublist].
  by rewrite filter_In, eligible_spec.
Qed.

(** C5: adding a review by [u] removes exactly the reviewed complaint from
    [u]'s eligibility list (every complaint with that id); a review by
    another user leaves the list unchanged. *)
Theorem userResolvedComplaints_add_review complaints reviews u r :
  userResolvedComplaints complaints (r :: reviews) (Some u) =
    (if Review.userId r =? User.id u
     then List.filter (fun c => negb (Review.complaintId r =? Complaint.id c))
            (userResolvedComplaints complaints reviews (Some u))
     else userResolvedComplaints complaints reviews (Some u)).
Proof.
  unfold userResolvedComplaints. destruct (String.eqb_spec (Review.userId r) (User.id u)).
  - rewrite filter_filter. apply filter_ext. intros c. by apply eligible_cons_same.
  - apply filter_ext. intros c. by apply eligible_cons_other.
Qed.

End Eligibility.
