(* ===== verification/StableSort.v ===== *)
(** [Array.prototype.sort(comparefn)] as the page calls it (CommunityPage.tsx,
    line 170: [[...filteredReviews].sort((a, b) => ...)]).  Since ES2019 the
    sort is required to be stable; for a consistent comparator its result is
    then determined: it is the permutation of the input that is ordered by
    the comparator and keeps the input order of elements that compare
    equal.  [sortBy] is a stable insertion sort with the comparator's sign
    convention ([comparefn(x, y) > 0] puts [y] first).  [StableSorter] is
    the abstract contract of a stable sort for comparators of the form
    [key b - key a] (all the page uses), and [stable_sorters_agree] shows
    that every implementation of the contract, whichever algorithm an engine
    runs, returns the list [sortBy] returns. *)

From Stdlib Require Import ZArith List Bool Sorted Permutation Lia.
From stdpp Require Import base tactics decidable.
From S2P Require Import Prelude.
Import ListNotations.
Local Open Scope Z_scope.

Module StableSort.

Section Sort.
Context {A : Type} (cmp : A -> A -> Z).

(** Insert [x], which precedes every element of [l] in the input, in
    front of the first element it does not compare greater than. *)
Fixpoint insertBy (x : A) (l : list A) : list A :=
  match l with
  | [] => [x]
  | y :: r => if (0 <? cmp x y)%Z then y :: insertBy x r else x :: y :: r
  end.

Definition sortBy (l : list A) : list A := fold_right insertBy [] l.

Lemma insertBy_perm x l : Permutation (insertBy x l) (x :: l).
Proof.
  induction l as [|y l IH]; simpl; [done|].
  destruct (0 <? cmp x y)%Z; [|done].
  rewrite IH. apply perm_swap.
Qed.

Lemma sortBy_perm l : Permutation (sortBy l) l.
Proof.
  induction l as [|x l IH]; simpl; [done|].
  by rewrite insertBy_perm, IH.
Qed.
End Sort.

(** ** Comparators of the form [(a, b) => key(b) - key(a)] *)
Section Descending.
Context {A : Type} (key : A -> Z).

Definition cmpDesc (a b : A) : Z := key b - key a.

(** Non-increasing order of the keys. *)
Definition descKey (a b : A) : Prop := key b <= key a.

Definition sameKey (k : Z) (a : A) : bool := key a =? k.

Lemma descKey_trans : Relations_1.Transitive descKey.
Proof. intros a b c; unfold descKey; lia. Qed.

Lemma HdRel_insertBy y x l :
  descKey y x -> HdRel descKey y l -> HdRel descKey y (insertBy cmpDesc x l).
Proof.
  intros Hyx Hl. destruct l as [|z l]; simpl; [by constructor|].
  destruct (0 <? cmpDesc x z)%Z; constructor; [by inversion Hl | done].
Qed.

Lemma insertBy_sorted x l :
  Sorted descKey l -> Sorted descKey (insertBy cmpDesc x l).
Proof.
  induction 1 as [|y l Hl IH Hhd]; simpl; [by repeat constructor|].
  unfold cmpDesc at 1. destruct (Z.ltb_spec 0 (key y - key x)).
  - constructor; [done|]. apply HdRel_insertBy; [unfold descKey; lia|done].
  - constructor; [by constructor|]. constructor. unfold descKey; lia.
Qed.

Lemma sortBy_sorted l : Sorted descKey (sortBy cmpDesc l).
Proof. induction l as [|x l IH]; simpl; [constructor|]. by apply insertBy_sorted. Qed.

(** The insertion never moves [x] past an element of its own key. *)
Lemma insertBy_sameKey k x l :
  List.filter (sameKey k) (insertBy cmpDesc x l) = List.filter (sameKey k) (x :: l).
Proof.
  induction l as [|y l IH]; simpl; [done|].
  unfold cmpDesc at 1. destruct (Z.ltb_spec 0 (key y - key x)) as [Hlt|]; [|done].
  simpl. rewrite IH. simpl. unfold sameKey.
  destruct (Z.eqb_spec (key x) k), (Z.eqb_spec (key y) k); simpl; try done. lia.
Qed.

Lemma sortBy_stable k l :
  List.filter (sameKey k) (sortBy cmpDesc l) = List.filter (sameKey k) l.
Proof.
  induction l as [|x l IH]; simpl; [done|].
  rewrite insertBy_sameKey. simpl. by rewrite IH.
Qed.

Lemma sorted_head_max x l y :
  Sorted descKey (x :: l) -> In y (x :: l) -> key y <= key x.
Proof.
  intros Hs Hy. apply Sorted_StronglySorted in Hs; [|apply descKey_trans].
  destruct Hy as [->|Hy]; [lia|].
  apply StronglySorted_inv in Hs as [_ Hall].
  by apply (proj1 (Forall_forall _ _) Hall) in Hy.
Qed.

Lemma filter_sameKey_In k x l :
  In x l -> key x = k -> In x (List.filter (sameKey k) l).
Proof. intros Hx Hk. apply filter_In. split; [done|]. by apply Z.eqb_eq. Qed.

(** Two lists sorted by key with the same elements of each key, in the
    same order, are equal. *)
Lemma sorted_sameKey_unique l1 l2 :
  Sorted descKey l1 -> Sorted descKey l2 ->
  (forall k, List.filter (sameKey k) l1 = List.filter (sameKey k) l2) ->
  l1 = l2.
Proof.
  revert l2. induction l1 as [|x l1 IH]; intros [|y l2] S1 S2 Hk; [done| | |].
  - specialize (Hk (key y)). simpl in Hk. unfold sameKey in Hk at 1.
    by rewrite Z.eqb_refl in Hk.
  - specialize (Hk (key x)). simpl in Hk. unfold sameKey in Hk at 1.
    by rewrite Z.eqb_refl in Hk.
  - assert (Hxy : key x = key y).
    { assert (In y (List.filter (sameKey (key y)) (x :: l1))) as Hy.
      { rewrite Hk. apply filter_sameKey_In; [by left | done]. }
      assert (In x (List.filter (sameKey (key x)) (y :: l2))) as Hx.
      { rewrite <- Hk. apply filter_sameKey_In; [by left | done]. }
      apply filter_In in Hy as [Hy _]. apply filter_In in Hx as [Hx _].
      apply (sorted_head_max x l1) in Hy; [|done].
      apply (sorted_head_max y l2) in Hx; [|done]. lia. }
    assert (x = y) as <-.
    { specialize (Hk (key x)). simpl in Hk. unfold sameKey in Hk.
      rewrite Hxy, !Z.eqb_refl in Hk. by injection Hk. }
    f_equal. apply IH.
    + by apply Sorted_inv in S1 as [? _].
    + by apply Sorted_inv in S2 as [? _].
    + intros k. specialize (Hk k). simpl in Hk.
      destruct (sameKey k x); [by injection Hk | done].
Qed.
(** Sorting a list that is already ordered leaves it unchanged. *)
Lemma sortBy_sorted_id l : Sorted descKey l -> sortBy cmpDesc l = l.
Proof.
  intros Hl. apply sorted_sameKey_unique; [apply sortBy_sorted | done |].
  intros k. apply sortBy_stable.
Qed.
End Descending.

(** ** The contract of a stable sort, and its uniqueness *)

Record StableSorter {A : Type} (key : A -> Z) := {
  ss_sort : list A -> list A;
  ss_perm : forall l, Permutation (ss_sort l) l;
  ss_sorted : forall l, Sorted (descKey key) (ss_sort l);
  ss_stable : forall k l,
    List.filter (sameKey key k) (ss_sort l) = List.filter (sameKey key k) l
}.
Arguments ss_sort {A key} _ _.

(** The insertion sort meets the contract. *)
Definition insertionSorter {A : Type} (key : A -> Z) : StableSorter key := {|
  ss_sort := sortBy (cmpDesc key);
  ss_perm := sortBy_perm (cmpDesc key);
  ss_sorted := sortBy_sorted key;
  ss_stable := sortBy_stable key
|}.

(** Any sort that meets the contract of a stable sort (a permutation
    of its input, ordered by non-increasing key, keeping the input order of
    equal keys) returns exactly what the insertion sort [sortBy] returns:
    the model of [Array.prototype.sort] does not depend on the engine's
    algorithm. *)
Theorem stable_sorters_agree {A : Type} (key : A -> Z) (S : StableSorter key) l :
  ss_sort S l = sortBy (cmpDesc key) l.
Proof.
  apply (sorted_sameKey_unique key).
  - apply ss_sorted.
  - apply sortBy_sorted.
  - intros k. by rewrite ss_stable, sortBy_stable.
Qed.

End StableSort.
