(* ===== verification/ReviewQuery.v ===== *)
(** The filter and sort pipeline of CommunityPage.tsx: the predicates of
    [filteredReviews] (lines 157-168), the comparator of [sortedReviews]
    (lines 170-180) and the sort itself ([StableSort.sortBy]).  The filter
    values are the strings the page keeps in its state ([searchTerm],
    [categoryFilter], [ratingFilter]); [sortBy] is the union type
    ['recent' | 'rating' | 'helpful'], set from the sort select's string
    value through an [as any] cast (lines 486-490). *)

From Stdlib Require Import String ZArith List Bool Sorted Permutation Lia.
From stdpp Require Import base tactics decidable list.
From S2P Require Import Prelude JsString Domain StableSort.
Import ListNotations.
Open Scope string_scope.

Module ReviewQuery.
Import JsString StableSort.

Inductive SortBy := recent | rating | helpful.

#[export] Instance SortBy_eq_dec : EqDecision SortBy.
Proof. solve_decision. Defined.

(** The [value] of the sort select's [<option>]s (lines 488-490), which
    [value={sortBy}] selects. *)
Definition sortByValue (b : SortBy) : string :=
  match b with recent => "recent" | rating => "rating" | helpful => "helpful" end.

Definition sortOptions : list string := ["recent"; "rating"; "helpful"].

(** [setSortBy(e.target.value as any)] (line 486) as read by
    [switch (sortBy)] (lines 171-179): ['rating'], ['helpful'], and the
    [default:] branch shared with ['recent'] for any other string. *)
Definition sortByOfValue (v : string) : SortBy :=
  if v ===ₛ "rating" then rating else if v ===ₛ "helpful" then helpful else recent.

(** ** Filtering *)

(** [matchesSearch]: the lowered search term occurs in the lowered title,
    content or category. *)
Definition matchesSearch (searchTerm : string) (review : Review.t) : bool :=
  includes (toLowerCase (Review.title review)) (toLowerCase searchTerm) ||
  includes (toLowerCase (Review.content review)) (toLowerCase searchTerm) ||
  includes (toLowerCase (Review.category review)) (toLowerCase searchTerm).

Definition matchesCategory (categoryFilter : string) (review : Review.t) : bool :=
  (categoryFilter ===ₛ "all") ||
  includes (toLowerCase (Review.category review)) (toLowerCase categoryFilter).

Definition matchesRating (ratingFilter : string) (review : Review.t) : bool :=
  (ratingFilter ===ₛ "all") ||
  ((ratingFilter ===ₛ "5") && (Review.rating review =? 5)%Z) ||
  ((ratingFilter ===ₛ "4") && (Review.rating review =? 4)%Z) ||
  ((ratingFilter ===ₛ "3") && (Review.rating review <=? 3)%Z).

Definition reviewMatches (searchTerm categoryFilter ratingFilter : string)
    (review : Review.t) : bool :=
  matchesSearch searchTerm review && matchesCategory categoryFilter review &&
  matchesRating ratingFilter review.

Definition filteredReviews (reviews : list Review.t)
    (searchTerm categoryFilter ratingFilter : string) : list Review.t :=
  List.filter (reviewMatches searchTerm categoryFilter ratingFilter) reviews.

(** ** Sorting *)

(** The comparator: [b.rating - a.rating], [b.helpful - a.helpful], or
    [new Date(b.createdAt).getTime() - new Date(a.createdAt).getTime()]. *)
Definition compareReviews (sortBy : SortBy) (a b : Review.t) : Z :=
  match sortBy with
  | rating => Review.rating b - Review.rating a
  | helpful => Review.helpful b - Review.helpful a
  | recent => Review.createdAt b - Review.createdAt a
  end%Z.

Definition sortedReviews (sortBy : SortBy) (filtered : list Review.t) : list Review.t :=
  StableSort.sortBy (compareReviews sortBy) filtered.

(** The key each comparator compares, in decreasing order. *)
Definition sortKey (sortBy : SortBy) (r : Review.t) : Z :=
  match sortBy with
  | rating => Review.rating r
  | helpful => Review.helpful r
  | recent => Review.createdAt r
  end.

(** ** Lemmas *)

(** [s] occurs in [t] ignoring ASCII case. *)
Definition occursCI (t s : string) : Prop :=
  exists pre suf, toLowerCase t = pre ++ toLowerCase s ++ suf.

Lemma compareReviews_desc sortBy : compareReviews sortBy = cmpDesc (sortKey sortBy).
Proof. by destruct sortBy. Qed.

Lemma matchesSearch_spec st r :
  matchesSearch st r = true <->
  occursCI (Review.title r) st \/ occursCI (Review.content r) st \/
  occursCI (Review.category r) st.
Proof. unfold matchesSearch, occursCI. rewrite !orb_true_iff, !includes_spec. tauto. Qed.

Lemma matchesCategory_spec cf r :
  matchesCategory cf r = true <-> cf = "all" \/ occursCI (Review.category r) cf.
Proof. unfold matchesCategory, occursCI. by rewrite orb_true_iff, includes_spec, String.eqb_eq. Qed.

Lemma matchesRating_spec rf r :
  matchesRating rf r = true <->
  rf = "all" \/ (rf = "5" /\ Review.rating r = 5%Z) \/
  (rf = "4" /\ Review.rating r = 4%Z) \/ (rf = "3" /\ (Review.rating r <= 3)%Z).
Proof. unfold matchesRating. bsimpl. tauto. Qed.

Lemma matchesSearch_lower_eq st1 st2 r :
  toLowerCase st1 = toLowerCase st2 -> matchesSearch st1 r = matchesSearch st2 r.
Proof. intros H. unfold matchesSearch. by rewrite H. Qed.

Lemma matchesSearch_empty r : matchesSearch "" r = true.
Proof. unfold matchesSearch. simpl. by rewrite !includes_empty. Qed.

Lemma sortedReviews_as_sortBy sortBy l :
  sortedReviews sortBy l = StableSort.sortBy (cmpDesc (sortKey sortBy)) l.
Proof. unfold sortedReviews. by rewrite compareReviews_desc. Qed.

Lemma matchesRating_other rf r :
  rf <> "all" -> rf <> "5" -> rf <> "4" -> rf <> "3" -> matchesRating rf r = false.
Proof.
  intros H1 H2 H3 H4. apply not_true_iff_false. rewrite matchesRating_spec. naive_solver.
Qed.

Lemma filteredReviews_neutral reviews : filteredReviews reviews "" "all" "all" = reviews.
Proof. apply filter_all. intros r _. unfold reviewMatches. by rewrite matchesSearch_empty. Qed.

Lemma sortedReviews_nil sortBy l : sortedReviews sortBy l = [] <-> l = [].
Proof.
  split; intros H; [|by subst].
  pose proof (sortBy_perm (cmpDesc (sortKey sortBy)) l) as P.
  rewrite <- sortedReviews_as_sortBy, H in P.
  apply Permutation.Permutation_nil. by symmetry.
Qed.

(** ** Properties *)

(** C6: a review is displayed by the filter exactly when it is in the
    collection, the lowered search term occurs in its lowered title,
    content or category, the category filter is ["all"] or occurs in its
    lowered category, and the rating filter is ["all"], or ["5"] with
    rating 5, or ["4"] with rating 4, or ["3"] with rating at most 3; the
    filter keeps the collection's order. *)
Theorem filteredReviews_spec reviews st cf rf r :
  (In r (filteredReviews reviews st cf rf) <->
   In r reviews /\
   (occursCI (Review.title r) st \/ occursCI (Review.content r) st \/
    occursCI (Review.category r) st) /\
   (cf = "all" \/ occursCI (Review.category r) cf) /\
   (rf = "all" \/ (rf = "5" /\ Review.rating r = 5%Z) \/
    (rf = "4" /\ Review.rating r = 4%Z) \/ (rf = "3" /\ (Review.rating r <= 3)%Z))) /\
  filteredReviews reviews st cf rf ⊆+ reviews.
Proof.
  split; [|apply filter_sublist].
  unfold filteredReviews, reviewMatches.
  rewrite filter_In, !andb_true_iff, matchesSearch_spec, matchesCategory_spec,
    matchesRating_spec. tauto.
Qed.

(** C7: the rating buckets are asymmetric: ["5"] and ["4"] keep exactly
    the reviews rated 5 and 4, ["3"] keeps every review rated 3 or less. *)
Theorem filteredReviews_rating_buckets reviews :
  filteredReviews reviews "" "all" "5" = List.filter (fun r => Review.rating r =? 5)%Z reviews /\
  filteredReviews reviews "" "all" "4" = List.filter (fun r => Review.rating r =? 4)%Z reviews /\
  filteredReviews reviews "" "all" "3" = List.filter (fun r => Review.rating r <=? 3)%Z reviews.
Proof.
  unfold filteredReviews, reviewMatches, matchesCategory, matchesRating.
  split; [|split]; apply filter_ext; intros r;
    rewrite matchesSearch_empty; simpl; by rewrite ?orb_false_r.
Qed.

(** C14: the search is case-insensitive: two search terms with the same
    lowering select the same reviews, and the neutral query (empty search,
    category and rating ["all"]) selects every review. *)
Theorem filteredReviews_case_insensitive reviews st1 st2 cf rf :
  toLowerCase st1 = toLowerCase st2 ->
  filteredReviews reviews st1 cf rf = filteredReviews reviews st2 cf rf /\
  filteredReviews reviews "" "all" "all" = reviews.
Proof.
  intros H. split.
  - apply filter_ext. intros r. unfold reviewMatches. by rewrite (matchesSearch_lower_eq st1 st2).
  - apply filteredReviews_neutral.
Qed.

Lemma filteredReviews_case_insensitive_witness :
  toLowerCase "POTHOLE" = toLowerCase "pothole" /\
  filteredReviews (generateReviews []) "POTHOLE" "all" "all" =
    filteredReviews (generateReviews []) "pothole" "all" "all" /\
  map Review.id (filteredReviews (generateReviews []) "pothole" "all" "all") = ["review-2"].
Proof.
  split; [reflexivity|]. split; [|vm_compute; reflexivity].
  apply (filteredReviews_case_insensitive (generateReviews []) "POTHOLE" "pothole" "all" "all").
  reflexivity.
Defined.

(** C8: the display order is a stable sort of the filtered reviews: a
    permutation of them, ordered by non-increasing rating, helpful count or
    creation time (as [sortBy] says), in which reviews with equal keys keep
    their collection order; sorting it again changes nothing. *)
Theorem sortedReviews_spec sortBy l :
  Permutation (sortedReviews sortBy l) l /\
  Sorted (descKey (sortKey sortBy)) (sortedReviews sortBy l) /\
  (forall k, List.filter (sameKey (sortKey sortBy) k) (sortedReviews sortBy l) =
             List.filter (sameKey (sortKey sortBy) k) l) /\
  sortedReviews sortBy (sortedReviews sortBy l) = sortedReviews sortBy l.
Proof.
  rewrite !sortedReviews_as_sortBy. split; [|split; [|split]].
  - apply sortBy_perm.
  - apply sortBy_sorted.
  - intros k. apply sortBy_stable.
  - apply sortBy_sorted_id, sortBy_sorted.
Qed.

(** The sort select round-trips: the option a state displays
    ([value={sortBy}]) reads back as that state, each option's value reads
    back as itself, and any other value ([as any] lets one through) falls
    into the [default:] branch and sorts as 'recent'. *)
Theorem sortBy_value_roundtrip :
  (forall b, sortByOfValue (sortByValue b) = b) /\
  (forall v, In v sortOptions -> sortByValue (sortByOfValue v) = v) /\
  (forall v, ~ In v sortOptions -> compareReviews (sortByOfValue v) = compareReviews recent).
Proof.
  split; [by intros []|]. split.
  - intros v [<-|[<-|[<-|[]]]]; reflexivity.
  - intros v Hv. unfold sortByOfValue.
    destruct (String.eqb_spec v "rating") as [->|]; [exfalso; apply Hv; simpl; tauto|].
    destruct (String.eqb_spec v "helpful") as [->|]; [exfalso; apply Hv; simpl; tauto|done].
Qed.

End ReviewQuery.
