(* ===== verification/Stats.v ===== *)
(** The statistics panel of CommunityPage.tsx, [communityStats] (lines
    233-238), what the panel prints (lines 248-296) and the star display
    [renderStars] (lines 212-231).  The counts are integers; the mean
    rating is computed as the code computes it, on doubles ([Float64]):
    [reduce] adds the ratings one by one with rounding, [/] rounds the
    quotient, [0 / 0] is [NaN]; the panel prints it with [toFixed(1)]
    ([NumberFormat]).  [new Set(xs)] keeps the first occurrence of each
    value in insertion order. *)

From Stdlib Require Import String ZArith List Bool Permutation Lia.
From stdpp Require Import base tactics decidable list.
From S2P Require Import Prelude Domain Float64 NumberFormat.
Import ListNotations.
Open Scope string_scope.

Module Stats.
Import Float64 NumberFormat.

(** ** [new Set(xs)] and its spread *)
Definition jsSetAdd (s : list string) (x : string) : list string :=
  if x ∈ₛ? s then s else s ++ [x].

Definition jsSetOfList (xs : list string) : list string := fold_left jsSetAdd xs [].

(** ** The panel *)
Record CommunityStats := {
  totalReviews : Z;
  averageRating : double;
  helpfulReviews : Z;
  categories : Z
}.

(** [reviews.reduce((sum, r) => sum + r.rating, 0)]: one rounded addition
    per review. *)
Definition ratingSumD (reviews : list Review.t) : double :=
  fold_left (fun sum r => add sum (ofZ (Review.rating r))) reviews (ofZ 0).

(** The exact sum of the ratings, and the sum of their magnitudes, against
    which the rounded sum is measured. *)
Definition ratingSum (reviews : list Review.t) : Z :=
  fold_left (fun sum r => (sum + Review.rating r)%Z) reviews 0%Z.

Definition ratingAbsSum (reviews : list Review.t) : Z :=
  fold_left (fun sum r => (sum + Z.abs (Review.rating r))%Z) reviews 0%Z.

Definition communityStats (reviews : list Review.t) : CommunityStats := {|
  totalReviews := Z.of_nat (length reviews);
  averageRating := div (ratingSumD reviews) (ofZ (Z.of_nat (length reviews)));
  helpfulReviews :=
    Z.of_nat (length (List.filter (fun r => Review.notHelpful r <? Review.helpful r)%Z reviews));
  categories := Z.of_nat (length (jsSetOfList (map Review.category reviews)))
|}.

(** [{communityStats.averageRating.toFixed(1)}] (line 269). *)
Definition averageText (st : CommunityStats) : string := toFixed 1 (averageRating st).

(** The exact mean [sum / len] rounded to tenths, halves up: the number of
    tenths a decimal computation of the mean would print. *)
Definition meanTenths (sum len : Z) : Z := (20 * sum + len) / (2 * len).

(** [[1, 2, 3, 4, 5].map(star => star <= rating)]: which stars are filled. *)
Definition renderStars (rating : Z) : list bool :=
  map (fun star => (star <=? rating)%Z) [1; 2; 3; 4; 5]%Z.

(** ** Lemmas *)

Lemma ratingSum_acc (reviews : list Review.t) (acc : Z) :
  fold_left (fun sum r => (sum + Review.rating r)%Z) reviews acc =
  (acc + ratingSum reviews)%Z.
Proof. apply fold_left_Zadd. Qed.

Lemma ratingSum_cons r rs : ratingSum (r :: rs) = (Review.rating r + ratingSum rs)%Z.
Proof. unfold ratingSum at 1. simpl. rewrite ratingSum_acc. lia. Qed.

(** Bounds on the sum from bounds on each rating. *)
Lemma ratingSum_bounds (lo hi : Z) (reviews : list Review.t) :
  Forall (fun r => lo <= Review.rating r <= hi)%Z reviews ->
  (lo * Z.of_nat (length reviews) <= ratingSum reviews <= hi * Z.of_nat (length reviews))%Z.
Proof.
  induction 1 as [|r rs Hr Hrs IH]; [unfold ratingSum; simpl; lia|].
  rewrite ratingSum_cons. simpl length. lia.
Qed.

Lemma jsSetAdd_In s x y : In y (jsSetAdd s x) <-> In y s \/ y = x.
Proof.
  unfold jsSetAdd. destruct (x ∈ₛ? s) eqn:E.
  - apply existsb_string_In in E. naive_solver.
  - rewrite in_app_iff. simpl. naive_solver.
Qed.

Lemma jsSetAdd_NoDup s x : NoDup s -> NoDup (jsSetAdd s x).
Proof.
  unfold jsSetAdd. destruct (x ∈ₛ? s) eqn:E; [done|].
  apply existsb_string_notIn in E. intros Hs.
  apply NoDup_app. split; [done|]. split; [|apply NoDup_singleton].
  intros y Hy [<- | []]%list_elem_of_In. by apply E, list_elem_of_In.
Qed.

Lemma jsSetOfList_acc xs s :
  NoDup s ->
  NoDup (fold_left jsSetAdd xs s) /\
  (forall y, In y (fold_left jsSetAdd xs s) <-> In y s \/ In y xs).
Proof.
  revert s. induction xs as [|x xs IH]; intros s Hs; simpl; [naive_solver|].
  destruct (IH (jsSetAdd s x)) as [H1 H2]; [by apply jsSetAdd_NoDup|].
  split; [done|]. intros y. rewrite H2, jsSetAdd_In. naive_solver.
Qed.

Lemma jsSetOfList_spec xs :
  NoDup (jsSetOfList xs) /\ (forall y, In y (jsSetOfList xs) <-> In y xs).
Proof.
  destruct (jsSetOfList_acc xs []) as [H1 H2]; [constructor|].
  split; [done|]. intros y. rewrite H2. simpl. tauto.
Qed.

Lemma ratingAbsSum_cons r rs :
  ratingAbsSum (r :: rs) = (Z.abs (Review.rating r) + ratingAbsSum rs)%Z.
Proof. unfold ratingAbsSum at 1. simpl. rewrite fold_left_Zadd. unfold ratingAbsSum. lia. Qed.

Lemma ratingAbsSum_pos reviews :
  Forall (fun r => 0 <= Review.rating r)%Z reviews -> ratingAbsSum reviews = ratingSum reviews.
Proof.
  induction 1 as [|r rs Hr _ IH]; [done|].
  rewrite ratingSum_cons, ratingAbsSum_cons, IH. lia.
Qed.

Lemma ratingSum_abs reviews : (Z.abs (ratingSum reviews) <= ratingAbsSum reviews)%Z.
Proof.
  induction reviews as [|r rs IH]; [unfold ratingSum, ratingAbsSum; simpl; lia|].
  rewrite ratingSum_cons, ratingAbsSum_cons. lia.
Qed.

(** While every partial sum is a safe integer, [reduce] adds exactly. *)
Lemma ratingSumD_acc reviews acc :
  (Z.abs acc + ratingAbsSum reviews <= maxSafeInteger)%Z ->
  fold_left (fun sum r => add sum (ofZ (Review.rating r))) reviews (Finite (acc * scale)) =
  Finite ((acc + ratingSum reviews) * scale).
Proof.
  revert acc. induction reviews as [|r rs IH]; intros acc Hacc.
  - unfold ratingSum. simpl. by rewrite Z.add_0_r.
  - rewrite ratingAbsSum_cons in Hacc. pose proof (ratingSum_abs rs).
    pose proof (Z.abs_nonneg (ratingSum rs)).
    simpl. rewrite (ofZ_safe (Review.rating r)) by lia. simpl.
    rewrite <- Z.mul_add_distr_r. change (roundK ((acc + Review.rating r) * scale) 1)
      with (ofZ (acc + Review.rating r)).
    rewrite ofZ_safe by lia. rewrite IH by lia. rewrite ratingSum_cons. f_equal. lia.
Qed.

Lemma ratingSumD_exact reviews :
  (ratingAbsSum reviews <= maxSafeInteger)%Z ->
  ratingSumD reviews = Finite (ratingSum reviews * scale).
Proof.
  intros H. unfold ratingSumD. rewrite ofZ_safe by done.
  rewrite ratingSumD_acc by (simpl; lia). done.
Qed.

(** The mean of a non-empty collection with a safe sum: the double
    nearest to the exact quotient, with its relative error. *)
Lemma averageRating_nearest reviews :
  reviews <> [] -> (ratingAbsSum reviews <= maxSafeInteger)%Z ->
  (Z.of_nat (length reviews) <= maxSafeInteger)%Z ->
  averageRating (communityStats reviews) =
    roundK (ratingSum reviews * scale) (Z.of_nat (length reviews)) /\
  (0 < ratingSum reviews ->
   2 ^ 53 * Z.abs (Z.of_nat (length reviews) *
                   roundPos (ratingSum reviews * scale) (Z.of_nat (length reviews)) -
                   ratingSum reviews * scale) <= ratingSum reviews * scale)%Z.
Proof.
  intros Hne Habs Hlen.
  assert (Hl : (0 < Z.of_nat (length reviews))%Z) by (destruct reviews; [done | simpl; lia]).
  split.
  - cbn [communityStats averageRating]. rewrite ratingSumD_exact by done.
    rewrite <- ofZ_safe by (pose proof (ratingSum_abs reviews); lia).
    apply div_ofZ; [pose proof (ratingSum_abs reviews); lia|lia].
  - intros Hpos. apply roundPos_relative; [done|].
    assert (2 ^ 53 * Z.of_nat (length reviews) <= 2 ^ 106)%Z by (unfold maxSafeInteger in Hlen; lia).
    assert (2 ^ 106 <= scale)%Z by done. nia.
Qed.

(** The arithmetic of the displayed tenths: a value [R] within relative
    error [2^-53] of [sum / len] (in units of [2^-1074]), printed with one
    decimal as [n], gives [n / 10] within half a tenth of [sum / len]. *)
Lemma tenths_bound (sum len R n : Z) :
  (0 < len -> 0 < sum -> 20 * sum < 2 ^ 53 ->
   2 ^ 53 * Z.abs (len * R - sum * scale) <= sum * scale ->
   scale * (2 * n - 1) <= 2 * R * 10 < scale * (2 * n + 1) ->
   Z.abs (2 * n * len - 20 * sum) <= len)%Z.
Proof.
  intros Hl Hs H20 Hrel Hn. assert (Hsc : (0 < scale)%Z) by done.
  assert (HA : ((2 * n - 1) * len * scale <= 20 * (len * R))%Z) by nia.
  assert (HB : (20 * (len * R) < (2 * n + 1) * len * scale)%Z) by nia.
  assert (U : ((2 * n - 1) * len < 20 * sum + 1)%Z) by nia.
  assert (L : (20 * sum - 1 < (2 * n + 1) * len)%Z) by nia.
  lia.
Qed.

(** The tenths [averageText] prints are within half a tenth of the exact
    mean, for a positive sum below [2^53 / 20]. *)
Lemma averageText_tenths reviews :
  reviews <> [] -> (ratingAbsSum reviews <= maxSafeInteger)%Z ->
  (Z.of_nat (length reviews) <= maxSafeInteger)%Z ->
  (0 < ratingSum reviews)%Z -> (20 * ratingSum reviews < 2 ^ 53)%Z ->
  exists n, averageText (communityStats reviews) = fixedDigits 1 n /\
    (Z.abs (2 * n * Z.of_nat (length reviews) - 20 * ratingSum reviews) <=
     Z.of_nat (length reviews))%Z.
Proof.
  intros Hne Habs Hlen Hpos H20.
  destruct (averageRating_nearest reviews Hne Habs Hlen) as [Havg Hrel].
  specialize (Hrel Hpos). unfold averageText. rewrite Havg.
  set (sum := ratingSum reviews) in *. set (len := Z.of_nat (length reviews)) in *.
  assert (Hl : (0 < len)%Z) by (unfold len; destruct reviews; [done|simpl; lia]).
  assert (Hs : (2 ^ 106 <= scale)%Z) by done.
  set (R := roundPos (sum * scale) len) in *.
  assert (HR : (0 <= R)%Z) by (apply roundPos_nonneg; nia).
  assert (HRb : (R <= 2 ^ 54 * scale)%Z) by nia.
  rewrite roundK_nonneg by (try nia; unfold overflowK, scale in *; lia). fold R.
  destruct (toFixed_round 1 R ltac:(unfold scale in *; lia)) as [Hfix Hn].
  rewrite Z.abs_eq in Hfix, Hn by lia. change (10 ^ Z.of_nat 1)%Z with 10%Z in Hfix, Hn.
  eexists. rewrite Hfix, (proj2 (Z.ltb_ge R 0)) by lia. split; [reflexivity|].
  apply (tenths_bound sum len R); [lia..|exact Hn].
Qed.

(** ** Properties *)

(** C13: the panel counts: [totalReviews] is the number of reviews,
    [helpfulReviews] the number of reviews with more helpful than
    not-helpful votes (at most [totalReviews]), and [categories] the number
    of distinct category strings: the length of any duplicate-free list of
    exactly the reviews' categories. *)
Theorem communityStats_counts reviews cats :
  NoDup cats -> (forall c, In c cats <-> In c (map Review.category reviews)) ->
  totalReviews (communityStats reviews) = Z.of_nat (length reviews) /\
  helpfulReviews (communityStats reviews) =
    Z.of_nat (length (List.filter (fun r => Review.notHelpful r <? Review.helpful r)%Z reviews)) /\
  (helpfulReviews (communityStats reviews) <= totalReviews (communityStats reviews))%Z /\
  categories (communityStats reviews) = Z.of_nat (length cats).
Proof.
  intros Hnd Hcats. cbn [communityStats totalReviews helpfulReviews categories].
  split; [done|]. split; [done|]. split.
  - apply inj_le, filter_length_le.
  - destruct (jsSetOfList_spec (map Review.category reviews)) as [H1 H2].
    f_equal. apply Permutation_length, NoDup_Permutation; [done|done|].
    intros c. by rewrite !list_elem_of_In, H2, Hcats.
Qed.

Lemma communityStats_counts_witness :
  NoDup ["Water Services"; "Roads & Transportation"; "Street Lighting"; "Sanitation";
         "Electricity"] /\
  categories (communityStats (generateReviews [])) = 5%Z /\
  helpfulReviews (communityStats (generateReviews [])) = 5%Z.
Proof.
  assert (Hnd : NoDup ["Water Services"; "Roads & Transportation"; "Street Lighting";
                       "Sanitation"; "Electricity"]).
  { apply (bool_decide_eq_true_1 _). vm_compute. reflexivity. }
  split; [exact Hnd|].
  destruct (communityStats_counts (generateReviews [])
              ["Water Services"; "Roads & Transportation"; "Street Lighting";
               "Sanitation"; "Electricity"] Hnd) as (_ & H2 & _ & H4).
  { intros c. simpl. tauto. }
  split; [by rewrite H4 | rewrite H2; vm_compute; reflexivity].
Defined.

(** C12: the mean rating is [NaN] (JavaScript's [0 / 0]) when there are no
    reviews.  Otherwise, while the ratings' magnitudes add up to a safe
    integer, [reduce] computes the exact sum and the mean is the double
    nearest to the exact quotient of the sum by the count, within a
    relative error of [2^-53] when the sum is positive. *)
Theorem communityStats_average reviews :
  (reviews = [] -> averageRating (communityStats reviews) = NaN) /\
  (reviews <> [] -> (ratingAbsSum reviews <= maxSafeInteger)%Z ->
   (Z.of_nat (length reviews) <= maxSafeInteger)%Z ->
   averageRating (communityStats reviews) =
     roundK (ratingSum reviews * scale) (Z.of_nat (length reviews)) /\
   (0 < ratingSum reviews ->
    2 ^ 53 * Z.abs (Z.of_nat (length reviews) *
                    roundPos (ratingSum reviews * scale) (Z.of_nat (length reviews)) -
                    ratingSum reviews * scale) <= ratingSum reviews * scale)%Z).
Proof.
  split; [intros ->; reflexivity|]. apply averageRating_nearest.
Qed.

Lemma communityStats_average_witness :
  generateReviews [] <> [] /\
  (ratingAbsSum (generateReviews []) <= maxSafeInteger)%Z /\
  (Z.of_nat (length (generateReviews [])) <= maxSafeInteger)%Z /\
  averageRating (communityStats (generateReviews [])) = ofQ 22 5.
Proof.
  assert (Hne : generateReviews [] <> []) by discriminate.
  assert (Habs : (ratingAbsSum (generateReviews []) <= maxSafeInteger)%Z)
    by (vm_compute; discriminate).
  assert (Hlen : (Z.of_nat (length (generateReviews [])) <= maxSafeInteger)%Z)
    by (vm_compute; discriminate).
  split; [exact Hne|]. split; [exact Habs|]. split; [exact Hlen|].
  destruct (proj2 (communityStats_average (generateReviews [])) Hne Habs Hlen) as [H1 _].
  rewrite H1. reflexivity.
Defined.

(** C18: the panel prints the mean rounded to one decimal as a decimal
    computation of the exact mean would, [(20 * sum + len) / (2 * len)]
    tenths, for every collection whose sum is positive and below
    [2^53 / 20], except when the exact mean lies halfway between two
    tenths: there [toFixed] rounds the binary double, whose error decides. *)
Theorem averageText_mean reviews :
  reviews <> [] -> (ratingAbsSum reviews <= maxSafeInteger)%Z ->
  (Z.of_nat (length reviews) <= maxSafeInteger)%Z ->
  (0 < ratingSum reviews)%Z -> (20 * ratingSum reviews < 2 ^ 53)%Z ->
  ((20 * ratingSum reviews + Z.of_nat (length reviews)) mod (2 * Z.of_nat (length reviews)) <> 0)%Z ->
  averageText (communityStats reviews) =
    fixedDigits 1 (meanTenths (ratingSum reviews) (Z.of_nat (length reviews))).
Proof.
  intros Hne Habs Hlen Hpos H20 Htie.
  destruct (averageText_tenths reviews Hne Habs Hlen Hpos H20) as (n & -> & Hn).
  assert (Hl : (0 < Z.of_nat (length reviews))%Z) by (destruct reviews; [done|simpl; lia]).
  f_equal. unfold meanTenths.
  set (len := Z.of_nat (length reviews)) in *. set (sum := ratingSum reviews) in *.
  destruct (Z.eq_dec (20 * sum + len - 2 * len * n) (2 * len))%Z as [E|E].
  - exfalso. apply Htie. replace (20 * sum + len)%Z with ((n + 1) * (2 * len))%Z by lia.
    apply Z.mod_mul. lia.
  - apply Z.div_unique_pos with (20 * sum + len - 2 * len * n)%Z; lia.
Qed.

Lemma averageText_mean_witness :
  generateReviews [] <> [] /\ (ratingAbsSum (generateReviews []) <= maxSafeInteger)%Z /\
  (Z.of_nat (length (generateReviews [])) <= maxSafeInteger)%Z /\
  (0 < ratingSum (generateReviews []))%Z /\ (20 * ratingSum (generateReviews []) < 2 ^ 53)%Z /\
  ((20 * ratingSum (generateReviews []) + Z.of_nat (length (generateReviews []))) mod
     (2 * Z.of_nat (length (generateReviews []))) <> 0)%Z /\
  averageText (communityStats (generateReviews [])) = "4.4".
Proof.
  assert (Hne : generateReviews [] <> []) by discriminate.
  assert (H1 : (ratingAbsSum (generateReviews []) <= maxSafeInteger)%Z) by (vm_compute; discriminate).
  assert (H2 : (Z.of_nat (length (generateReviews [])) <= maxSafeInteger)%Z)
    by (vm_compute; discriminate).
  assert (H3 : (0 < ratingSum (generateReviews []))%Z) by (vm_compute; reflexivity).
  assert (H4 : (20 * ratingSum (generateReviews []) < 2 ^ 53)%Z) by (vm_compute; reflexivity).
  assert (H5 : ((20 * ratingSum (generateReviews []) + Z.of_nat (length (generateReviews []))) mod
                 (2 * Z.of_nat (length (generateReviews []))) <> 0)%Z) by (vm_compute; discriminate).
  do 6 (split; [assumption|]).
  rewrite (averageText_mean (generateReviews []) Hne H1 H2 H3 H4 H5). vm_compute. reflexivity.
Defined.

(** A review that carries only a rating. *)
Definition ratingOnly (r : Z) : Review.t :=
  Review.mkReview "" "" "" "" None r "" "" None 0 0 0 "" "" "".

(** At the halves the display depends on the binary rounding: twenty
    reviews with exact mean 4.35 show "4.3" where rounding the exact mean
    half up gives 4.4, while an exact mean of 4.45 shows "4.5", as
    rounding half up does. *)
Theorem averageText_ties :
  let low := (repeat (ratingOnly 5) 7 ++ repeat (ratingOnly 4) 13)%list in
  let high := (repeat (ratingOnly 5) 9 ++ repeat (ratingOnly 4) 11)%list in
  ratingSum low = 87%Z /\ meanTenths 87 20 = 44%Z /\ averageText (communityStats low) = "4.3" /\
  ratingSum high = 89%Z /\ meanTenths 89 20 = 45%Z /\ averageText (communityStats high) = "4.5".
Proof. vm_compute. repeat split. Qed.

(** C15: [renderStars r] fills the first [min(max(r, 0), 5)] of the five
    stars and leaves the others empty. *)
Theorem renderStars_spec (r : Z) :
  renderStars r =
    (repeat true (Z.to_nat (Z.max 0 (Z.min 5 r))) ++
     repeat false (5 - Z.to_nat (Z.max 0 (Z.min 5 r))))%list.
Proof.
  unfold renderStars. simpl.
  assert (r <= 0 \/ r = 1 \/ r = 2 \/ r = 3 \/ r = 4 \/ 5 <= r)%Z as Hr by lia.
  destruct Hr as [H|[H|[H|[H|[H|H]]]]]; try (subst r; reflexivity).
  - replace (Z.to_nat (Z.max 0 (Z.min 5 r))) with 0%nat by lia.
    repeat rewrite (proj2 (Z.leb_gt _ r)) by lia. reflexivity.
  - replace (Z.to_nat (Z.max 0 (Z.min 5 r))) with 5%nat by lia.
    repeat rewrite (proj2 (Z.leb_le _ r)) by lia. reflexivity.
Qed.

(** C17: whenever every rating is between 1 and 5 and there are fewer
    than [2^46] reviews, the panel prints the average with one decimal as
    [n / 10] with [1.0 <= n / 10 <= 5.0], within half a tenth of the exact
    mean: it never reads "NaN", "0.9" or "5.1". *)
Theorem averageText_range reviews :
  reviews <> [] -> Forall (fun r => 1 <= Review.rating r <= 5)%Z reviews ->
  (Z.of_nat (length reviews) < 2 ^ 46)%Z ->
  exists n, averageText (communityStats reviews) = fixedDigits 1 n /\ (10 <= n <= 50)%Z /\
    (Z.abs (2 * n * Z.of_nat (length reviews) - 20 * ratingSum reviews) <=
     Z.of_nat (length reviews))%Z.
Proof.
  intros Hne Hr Hlen. pose proof (ratingSum_bounds 1 5 reviews Hr) as Hb.
  assert (Habs : ratingAbsSum reviews = ratingSum reviews).
  { apply ratingAbsSum_pos. eapply Forall_impl; [exact Hr|]. simpl. lia. }
  assert (Hl : (0 < Z.of_nat (length reviews))%Z) by (destruct reviews; [done|simpl; lia]).
  destruct (averageText_tenths reviews Hne) as (n & Hfix & Hn);
    [unfold maxSafeInteger; lia..|].
  exists n. split; [done|]. split; [|done].
  set (len := Z.of_nat (length reviews)) in *. set (sum := ratingSum reviews) in *.
  assert (19 * len <= 2 * n * len <= 101 * len)%Z by lia.
  assert (19 <= 2 * n <= 101)%Z by nia. lia.
Qed.

Lemma averageText_range_witness :
  (generateReviews [] <> [] /\
   Forall (fun r => 1 <= Review.rating r <= 5)%Z (generateReviews []) /\
   (Z.of_nat (length (generateReviews [])) < 2 ^ 46)%Z) /\
  exists n, averageText (communityStats (generateReviews [])) = fixedDigits 1 n /\
    (10 <= n <= 50)%Z /\
    (Z.abs (2 * n * Z.of_nat (length (generateReviews [])) - 20 * ratingSum (generateReviews [])) <=
     Z.of_nat (length (generateReviews [])))%Z.
Proof.
  assert (H : generateReviews [] <> [] /\
              Forall (fun r => 1 <= Review.rating r <= 5)%Z (generateReviews []) /\
              (Z.of_nat (length (generateReviews [])) < 2 ^ 46)%Z).
  { split; [discriminate|]. split; [repeat constructor; simpl; lia|simpl; lia]. }
  destruct H as [H1 [H2 H3]].
  split; [split; [exact H1|split; [exact H2|exact H3]]|].
  exact (averageText_range _ H1 H2 H3).
Defined.

End Stats.
