(* ===== verification/ReviewList.v ===== *)
(** The review list of CommunityPage.tsx (lines 497-596): one card per
    review of [sortedReviews], or the empty state with a message chosen by
    the filter bar.  A card is modelled by the values it displays: the
    avatar (an image or the placeholder icon), title, stars, author, date
    ([toLocaleDateString] is not modelled: the card keeps [createdAt]),
    location, category, provider, content, the photo strip and the vote
    footer. *)

From Stdlib Require Import String ZArith List Bool Lia DecimalString.
From stdpp Require Import base tactics decidable list.
From S2P Require Import Prelude JsString Domain ReviewQuery Stats.
Import ListNotations.
Open Scope string_scope.
Open Scope list_scope.

Module ReviewList.
Import JsString ReviewQuery Stats.

(** [review.userAvatar ? <img src=... /> : <Users />] *)
Inductive Avatar := AvatarImage (src : string) | AvatarPlaceholder.

Record ReviewCard := mkReviewCard {
  card_key : string;
  card_avatar : Avatar;
  card_title : string;
  card_stars : list bool;
  card_author : string;
  card_date : Z;
  card_location : string;
  card_category : string;
  card_provider : string;
  card_content : string;
  (** [(alt, src)] of each photo: [Review photo ${index + 1}] *)
  card_photos : list (string * string);
  card_helpful : Z;
  card_notHelpful : Z;
  (** [{review.helpful + review.notHelpful} people found this review helpful] *)
  card_footerCount : Z
}.

Inductive ReviewListView :=
| Cards (cards : list ReviewCard)
| EmptyState (message : string).

(** [String(n)] for the small naturals used as photo indices. *)
Definition natToString (n : nat) : string := NilEmpty.string_of_uint (Nat.to_uint n).

(** [review.photos && review.photos.length > 0 && photos.map((photo, index) => ...)] *)
Definition photoStrip (photos : option (list string)) : list (string * string) :=
  match photos with
  | Some ps => map (fun '(i, p) => (("Review photo " ++ natToString (S i))%string, p))
                 (combine (seq 0 (length ps)) ps)
  | None => []
  end.

Definition reviewCard (review : Review.t) : ReviewCard := {|
  card_key := Review.id review;
  card_avatar :=
    match Review.userAvatar review with
    | Some src => if truthy src then AvatarImage src else AvatarPlaceholder
    | None => AvatarPlaceholder
    end;
  card_title := Review.title review;
  card_stars := renderStars (Review.rating review);
  card_author := ("by " ++ Review.userName review)%string;
  card_date := Review.createdAt review;
  card_location := Review.location review;
  card_category := Review.category review;
  card_provider := Review.serviceProvider review;
  card_content := Review.content review;
  card_photos := photoStrip (Review.photos review);
  card_helpful := Review.helpful review;
  card_notHelpful := Review.notHelpful review;
  card_footerCount := (Review.helpful review + Review.notHelpful review)%Z
|}.

(** [searchTerm || categoryFilter !== 'all' || ratingFilter !== 'all'] *)
Definition filtersActive (searchTerm categoryFilter ratingFilter : string) : bool :=
  truthy searchTerm || negb (categoryFilter ===ₛ "all") || negb (ratingFilter ===ₛ "all").

Definition emptyStateMessage (searchTerm categoryFilter ratingFilter : string) : string :=
  if filtersActive searchTerm categoryFilter ratingFilter
  then "No reviews match your current filters."
  else "Be the first to share your experience with the community!".

(** [sortedReviews.length > 0 ? sortedReviews.map(...) : <empty state>] *)
Definition renderReviewList (sorted : list Review.t)
    (searchTerm categoryFilter ratingFilter : string) : ReviewListView :=
  if (0 <? length sorted)%nat then Cards (map reviewCard sorted)
  else EmptyState (emptyStateMessage searchTerm categoryFilter ratingFilter).

(** The list the page renders for a collection and a filter bar. *)
Definition reviewListOf (reviews : list Review.t) (searchTerm categoryFilter ratingFilter : string)
    (sortBy : SortBy) : ReviewListView :=
  renderReviewList (sortedReviews sortBy (filteredReviews reviews searchTerm categoryFilter ratingFilter))
    searchTerm categoryFilter ratingFilter.

(** ** Lemmas *)

Lemma photoStrip_srcs_aux (ps : list string) (k : nat) :
  map snd (map (fun '(i, p) => (("Review photo " ++ natToString (S i))%string, p))
             (combine (seq k (length ps)) ps)) = ps.
Proof.
  revert k. induction ps as [|p ps IH]; intros k; simpl; [done|]. by rewrite IH.
Qed.

Lemma renderReviewList_cases sorted st cf rf :
  (sorted = [] /\ renderReviewList sorted st cf rf = EmptyState (emptyStateMessage st cf rf)) \/
  (sorted <> [] /\ renderReviewList sorted st cf rf = Cards (map reviewCard sorted)).
Proof. unfold renderReviewList. destruct sorted; simpl; [by left | by right]. Qed.

Lemma filtersActive_false st cf rf :
  filtersActive st cf rf = false <-> st = "" /\ cf = "all" /\ rf = "all".
Proof.
  unfold filtersActive. rewrite !orb_false_iff, !negb_false_iff, !String.eqb_eq.
  rewrite <- not_true_iff_false, truthy_spec. split; [intros [[H ?] ?]|intros (? & ? & ?)].
  - split; [|done]. by destruct (string_dec st "").
  - split; [split|]; [congruence|done|done].
Qed.

(** ** Properties *)

(** Each card shows its review's id as key, its stars, its photos in
    order (none when [photos] is absent), the placeholder avatar exactly
    when the avatar URL is absent or empty, and a footer count equal to
    helpful plus not-helpful votes, which the page labels as the number of
    people who found the review helpful. *)
Theorem reviewCard_spec r :
  card_key (reviewCard r) = Review.id r /\
  card_stars (reviewCard r) = renderStars (Review.rating r) /\
  map snd (card_photos (reviewCard r)) =
    match Review.photos r with Some ps => ps | None => [] end /\
  (card_avatar (reviewCard r) = AvatarPlaceholder <->
   Review.userAvatar r = None \/ Review.userAvatar r = Some "") /\
  card_footerCount (reviewCard r) = (Review.helpful r + Review.notHelpful r)%Z.
Proof.
  unfold reviewCard; simpl. split; [done|]. split; [done|]. split.
  - destruct (Review.photos r) as [ps|]; [apply photoStrip_srcs_aux | done].
  - split; [|done]. destruct (Review.userAvatar r) as [src|]; [|naive_solver].
    unfold truthy. destruct (String.eqb_spec src ""); simpl; naive_solver.
Qed.



End ReviewList.
