(* ===== verification/ReviewForm.v ===== *)
(** The React state of CommunityPage.tsx (lines 45-56) and the handlers
    that change it: [handleWriteReview] (lines 182-202), [handlePhotoUpload]
    (lines 204-210) and the inline [onChange] / [onClick] callbacks of the
    form and of the filter bar (lines 303, 327, 349, 370, 383, 416, 446,
    456, 472, 486).  Each [useState] cell is a field of [PageState]; a
    handler is a function from the state before the event to the state
    after it.  [handleWriteReview] also returns the payload it logs with
    [console.log], the only trace a submission leaves. *)

From Stdlib Require Import String ZArith List Bool Lia.
From stdpp Require Import base tactics decidable list.
From S2P Require Import Prelude JsString Domain ReviewQuery.
Import ListNotations.
Open Scope string_scope.
Open Scope list_scope.

Module ReviewForm.
Import JsString ReviewQuery.

(** A [File] chosen in the file input; only its identity matters here. *)
Record File := mkFile { fileName : string }.

(** [newReview]: [{ rating, title, content, photos: File[] }] *)
Record NewReview := mkNewReview {
  nr_rating : Z;
  nr_title : string;
  nr_content : string;
  nr_photos : list File
}.

Record PageState := mkPageState {
  searchTerm : string;
  categoryFilter : string;
  ratingFilter : string;
  sortBy : SortBy;
  showWriteReview : bool;
  selectedComplaint : string;
  newReview : NewReview
}.

(** [useState({ rating: 5, title: '', content: '', photos: [] })] *)
Definition emptyNewReview : NewReview := mkNewReview 5 "" "" [].

Definition initialPageState : PageState :=
  mkPageState "" "all" "all" recent false "" emptyNewReview.

(** The object passed to [console.log]: [{ complaintId, ...newReview }]. *)
Record Submission := mkSubmission {
  sub_complaintId : string;
  sub_rating : Z;
  sub_title : string;
  sub_content : string;
  sub_photos : list File
}.

Definition submissionOf (s : PageState) : Submission :=
  mkSubmission (selectedComplaint s) (nr_rating (newReview s)) (nr_title (newReview s))
    (nr_content (newReview s)) (nr_photos (newReview s)).

(** ** Setters ([setX(v)] and [setNewReview(prev => ({ ...prev, x: v }))]) *)
Definition setSearchTerm (v : string) (s : PageState) : PageState :=
  mkPageState v (categoryFilter s) (ratingFilter s) (sortBy s) (showWriteReview s)
    (selectedComplaint s) (newReview s).
Definition setCategoryFilter (v : string) (s : PageState) : PageState :=
  mkPageState (searchTerm s) v (ratingFilter s) (sortBy s) (showWriteReview s)
    (selectedComplaint s) (newReview s).
Definition setRatingFilter (v : string) (s : PageState) : PageState :=
  mkPageState (searchTerm s) (categoryFilter s) v (sortBy s) (showWriteReview s)
    (selectedComplaint s) (newReview s).
Definition setSortBy (v : SortBy) (s : PageState) : PageState :=
  mkPageState (searchTerm s) (categoryFilter s) (ratingFilter s) v (showWriteReview s)
    (selectedComplaint s) (newReview s).
Definition setShowWriteReview (v : bool) (s : PageState) : PageState :=
  mkPageState (searchTerm s) (categoryFilter s) (ratingFilter s) (sortBy s) v
    (selectedComplaint s) (newReview s).
Definition setSelectedComplaint (v : string) (s : PageState) : PageState :=
  mkPageState (searchTerm s) (categoryFilter s) (ratingFilter s) (sortBy s)
    (showWriteReview s) v (newReview s).
Definition setNewReview (f : NewReview -> NewReview) (s : PageState) : PageState :=
  mkPageState (searchTerm s) (categoryFilter s) (ratingFilter s) (sortBy s)
    (showWriteReview s) (selectedComplaint s) (f (newReview s)).

(** [onClick={() => setNewReview(prev => ({ ...prev, rating: star }))}] *)
Definition setRating (star : Z) : PageState -> PageState :=
  setNewReview (fun prev => mkNewReview star (nr_title prev) (nr_content prev) (nr_photos prev)).
Definition setTitle (v : string) : PageState -> PageState :=
  setNewReview (fun prev => mkNewReview (nr_rating prev) v (nr_content prev) (nr_photos prev)).
Definition setContent (v : string) : PageState -> PageState :=
  setNewReview (fun prev => mkNewReview (nr_rating prev) (nr_title prev) v (nr_photos prev)).

(** ** [handlePhotoUpload] *)

(** [Array.from(event.target.files || [])]; then
    [photos: [...prev.photos, ...files].slice(0, 3)]. *)
Definition handlePhotoUpload (files : option (list File)) (s : PageState) : PageState :=
  let files := match files with Some fs => fs | None => [] end in
  setNewReview (fun prev =>
    mkNewReview (nr_rating prev) (nr_title prev) (nr_content prev)
      (firstn 3 (nr_photos prev ++ files))) s.

(** ** [handleWriteReview] *)

(** [!selectedComplaint || !newReview.title.trim() || !newReview.content.trim()] *)
Definition submitBlocked (s : PageState) : bool :=
  negb (truthy (selectedComplaint s)) || isBlank (nr_title (newReview s)) ||
  isBlank (nr_content (newReview s)).

(** The reset after logging: default draft, no selection, modal closed. *)
Definition resetForm (s : PageState) : PageState :=
  setShowWriteReview false (setSelectedComplaint "" (setNewReview (fun _ => emptyNewReview) s)).

Definition handleWriteReview (s : PageState) : PageState * option Submission :=
  if submitBlocked s then (s, None)
  else (resetForm s, Some (submissionOf s)).

(** ** Lemmas *)

Lemma submitBlocked_false_iff s :
  submitBlocked s = false <->
  selectedComplaint s <> "" /\
  allChars isJsWhitespace (nr_title (newReview s)) = false /\
  allChars isJsWhitespace (nr_content (newReview s)) = false.
Proof.
  unfold submitBlocked. rewrite !orb_false_iff, negb_false_iff, truthy_spec.
  rewrite <- !not_true_iff_false, !isBlank_spec. tauto.
Qed.

Lemma firstn_3_prefix (old new : list File) :
  length old <= 3 -> exists rest, firstn 3 (old ++ new) = old ++ rest.
Proof.
  intros Hlen. exists (firstn (3 - length old) new).
  rewrite firstn_app, firstn_all2 by lia. done.
Qed.

(** ** Properties *)

(** C10: [handlePhotoUpload] appends the selected files to the draft's
    photos and keeps the first three: the draft never holds more than three
    photos, photos already attached stay first in their order, a missing
    file list counts as empty, and nothing else of the page changes. *)
Theorem handlePhotoUpload_spec files s :
  let s' := handlePhotoUpload files s in
  let fs := match files with Some fs => fs | None => [] end in
  nr_photos (newReview s') = firstn 3 (nr_photos (newReview s) ++ fs) /\
  length (nr_photos (newReview s')) = Nat.min 3 (length (nr_photos (newReview s)) + length fs) /\
  (length (nr_photos (newReview s)) <= 3 ->
   exists rest, nr_photos (newReview s') = nr_photos (newReview s) ++ rest) /\
  s' = setNewReview (fun prev => mkNewReview (nr_rating prev) (nr_title prev)
                                   (nr_content prev) (nr_photos (newReview s'))) s.
Proof.
  simpl. split; [done|]. split; [|split].
  - by rewrite length_firstn, length_app.
  - apply firstn_3_prefix.
  - done.
Qed.

Lemma handlePhotoUpload_spec_witness :
  let fs := [mkFile "a.jpg"; mkFile "b.jpg"; mkFile "c.jpg"; mkFile "d.jpg"] in
  length (nr_photos (newReview initialPageState)) <= 3 /\
  (exists rest, nr_photos (newReview (handlePhotoUpload (Some fs) initialPageState)) =
                nr_photos (newReview initialPageState) ++ rest) /\
  nr_photos (newReview (handlePhotoUpload (Some fs) initialPageState)) =
    [mkFile "a.jpg"; mkFile "b.jpg"; mkFile "c.jpg"].
Proof.
  simpl. split; [lia|]. split; [|reflexivity].
  apply (handlePhotoUpload_spec (Some [mkFile "a.jpg"; mkFile "b.jpg"; mkFile "c.jpg";
                                       mkFile "d.jpg"]) initialPageState).
  simpl. lia.
Defined.


End ReviewForm.
