(* ===== verification/PageMachine.v ===== *)
(** The community page as a state machine.  A [World] is what a render of
    CommunityPage.tsx reads: the complaints of the complaint context, the
    user of the auth context, and the page's React state.  Every render
    recomputes [reviews] (line 148) and [userResolvedComplaints] (lines
    151-155) from it.  An [Event] is something the rendered page lets the
    user do: [enabled] is read off the JSX (which controls exist, which
    options a [<select>] offers, when the submit button is disabled) and
    [dispatch] runs the callback.  [ui_step] is the step relation, [run] its
    closure with the submissions logged along the way, and [runEvents] the
    same as an executable function.  [Action] adds the one change that does
    not come from the page: the complaint context publishing a new list. *)

From Stdlib Require Import String ZArith List Bool Lia.
From stdpp Require Import base tactics decidable list numbers.
From S2P Require Import Prelude JsString Domain Eligibility ReviewQuery ReviewForm.
Import ListNotations.
Open Scope string_scope.
Open Scope list_scope.

Module PageMachine.
Import JsString Eligibility ReviewQuery ReviewForm.

Record World := mkWorld {
  complaints : list Complaint.t;
  user : option User.t;
  page : PageState
}.

Definition withPage (w : World) (p : PageState) : World :=
  mkWorld (complaints w) (user w) p.

(** [const reviews = generateReviews()] *)
Definition reviewsOf (w : World) : list Review.t := generateReviews (complaints w).

(** [userResolvedComplaints] *)
Definition eligibleOf (w : World) : list Complaint.t :=
  userResolvedComplaints (complaints w) (reviewsOf w) (user w).

(** The [value]s of the [<option>]s of the three selects (lines 330-335,
    459-464, 475-478). *)
Definition complaintOptions (w : World) : list string :=
  "" :: map Complaint.id (eligibleOf w).
Definition categoryOptions : list string :=
  ["all"; "water"; "electricity"; "roads"; "sanitation"; "street"].
Definition ratingOptions : list string := ["all"; "5"; "4"; "3"].

Inductive Event :=
| ClickWriteReview
| ClickCancel
| SelectComplaint (v : string)
| ClickStar (star : Z)
| InputTitle (v : string)
| InputContent (v : string)
| UploadPhotos (files : option (list File))
| ClickPostReview
| InputSearch (v : string)
| SelectCategory (v : string)
| SelectRatingFilter (v : string)
| SelectSortBy (v : string)
(** the Helpful ([true]) or Not Helpful ([false]) button of the card of a review *)
| ClickVote (reviewId : string) (isHelpful : bool).

(** The reviews whose cards are rendered, in order (lines 499-500). *)
Definition displayedReviews (w : World) : list Review.t :=
  let p := page w in
  sortedReviews (sortBy p)
    (filteredReviews (reviewsOf w) (searchTerm p) (categoryFilter p) (ratingFilter p)).

(** The Helpful and Not Helpful buttons of a card (lines 567-574) have no
    [onClick]: a click runs no callback and changes no state. *)
Definition voteClick (isHelpful : bool) (p : PageState) : PageState * option Submission :=
  (p, None).

(** What the rendered page offers: the "Write a Review" button only when
    the eligibility list is not empty (line 300); the form controls only
    while the modal is shown (line 313); the stars 1 to 5 (line 345); the
    submit button disabled by the same guard as [handleWriteReview]
    (line 423); each select only its options; the vote buttons of the
    cards displayed. *)
Definition enabled (w : World) (e : Event) : bool :=
  let p := page w in
  match e with
  | ClickWriteReview => (0 <? length (eligibleOf w))%nat
  | ClickCancel | InputTitle _ | InputContent _ | UploadPhotos _ => showWriteReview p
  | SelectComplaint v => showWriteReview p && (v ∈ₛ? complaintOptions w)
  | ClickStar star => showWriteReview p && (1 <=? star)%Z && (star <=? 5)%Z
  | ClickPostReview => showWriteReview p && negb (submitBlocked p)
  | InputSearch _ => true
  | SelectSortBy v => v ∈ₛ? sortOptions
  | SelectCategory v => v ∈ₛ? categoryOptions
  | SelectRatingFilter v => v ∈ₛ? ratingOptions
  | ClickVote id _ => id ∈ₛ? map Review.id (displayedReviews w)
  end.

(** The callback each event runs. *)
Definition dispatch (e : Event) (p : PageState) : PageState * option Submission :=
  match e with
  | ClickWriteReview => (setShowWriteReview true p, None)
  | ClickCancel => (setShowWriteReview false p, None)
  | SelectComplaint v => (setSelectedComplaint v p, None)
  | ClickStar star => (setRating star p, None)
  | InputTitle v => (setTitle v p, None)
  | InputContent v => (setContent v p, None)
  | UploadPhotos files => (handlePhotoUpload files p, None)
  | ClickPostReview => handleWriteReview p
  | InputSearch v => (setSearchTerm v p, None)
  | SelectCategory v => (setCategoryFilter v p, None)
  | SelectRatingFilter v => (setRatingFilter v p, None)
  | SelectSortBy v => (setSortBy (sortByOfValue v) p, None)
  | ClickVote _ isHelpful => voteClick isHelpful p
  end.

Inductive ui_step : World -> option Submission -> World -> Prop :=
| ui_step_event w e :
    enabled w e = true ->
    ui_step w (snd (dispatch e (page w))) (withPage w (fst (dispatch e (page w)))).

Definition logOf (o : option Submission) : list Submission :=
  match o with Some s => [s] | None => [] end.

Inductive run : World -> list Submission -> World -> Prop :=
| run_refl w : run w [] w
| run_cons w o w' logs w'' :
    ui_step w o w' -> run w' logs w'' -> run w (logOf o ++ logs) w''.

(** One event, if the page offers it. *)
Definition stepEvent (w : World) (e : Event) : option (World * option Submission) :=
  if enabled w e then
    Some (withPage w (fst (dispatch e (page w))), snd (dispatch e (page w)))
  else None.

Fixpoint runEvents (w : World) (es : list Event) : option (World * list Submission) :=
  match es with
  | [] => Some (w, [])
  | e :: es' =>
      match stepEvent w e with
      | None => None
      | Some (w', o) =>
          match runEvents w' es' with
          | None => None
          | Some (w'', logs) => Some (w'', logOf o ++ logs)
          end
      end
  end.

(** The complaint context may publish a new list at any time. *)
Inductive Action := UI (e : Event) | ComplaintsChanged (cs : list Complaint.t).

Fixpoint runActions (w : World) (acts : list Action) : option (World * list Submission) :=
  match acts with
  | [] => Some (w, [])
  | UI e :: acts' =>
      match stepEvent w e with
      | None => None
      | Some (w', o) =>
          match runActions w' acts' with
          | None => None
          | Some (w'', logs) => Some (w'', logOf o ++ logs)
          end
      end
  | ComplaintsChanged cs :: acts' => runActions (mkWorld cs (user w) (page w)) acts'
  end.

(** ** The validator the spec asks for (spec, section 4.2)

    The abstract contract of a submission: the selected complaint must be
    non-empty and eligible, title and content non-blank, the rating an
    integer in [1, 5]; the first failure is reported. *)
Inductive ValidationError := IneligibleComplaint | MissingTitle | MissingContent | InvalidRating.

Definition validateSubmission (eligible : list Complaint.t) (d : Submission)
    : ValidationError + unit :=
  if negb (truthy (sub_complaintId d)) ||
     negb (sub_complaintId d ∈ₛ? map Complaint.id eligible) then inl IneligibleComplaint
  else if isBlank (sub_title d) then inl MissingTitle
  else if isBlank (sub_content d) then inl MissingContent
  else if negb ((1 <=? sub_rating d)%Z && (sub_rating d <=? 5)%Z) then inl InvalidRating
  else inr tt.

(** ** The invariant of the page state *)

(** The selection is empty or an eligible complaint, the draft's rating is
    a star value, the draft holds at most three photos, and each filter
    select shows one of its options. *)
Definition inv (w : World) : Prop :=
  selectedComplaint (page w) ∈ complaintOptions w /\
  (1 <= nr_rating (newReview (page w)) <= 5)%Z /\
  length (nr_photos (newReview (page w))) <= 3 /\
  categoryFilter (page w) ∈ categoryOptions /\
  ratingFilter (page w) ∈ ratingOptions.

#[export] Instance inv_dec w : Decision (inv w).
Proof. unfold inv. apply _. Defined.

(** ** Lemmas *)

Lemma complaintOptions_withPage w p : complaintOptions (withPage w p) = complaintOptions w.
Proof. reflexivity. Qed.

Lemma eligibleOf_withPage w p : eligibleOf (withPage w p) = eligibleOf w.
Proof. reflexivity. Qed.

Lemma withPage_page w : withPage w (page w) = w.
Proof. by destruct w. Qed.

(** A vote click the page offers leaves the world as it is and logs nothing. *)
Lemma stepEvent_vote w id b :
  enabled w (ClickVote id b) = true -> stepEvent w (ClickVote id b) = Some (w, None).
Proof. intros Hen. unfold stepEvent. rewrite Hen. simpl. by rewrite withPage_page. Qed.

Lemma string_In_elem_of (s : string) (l : list string) : (s ∈ₛ? l) = true -> s ∈ l.
Proof. intros H. by apply list_elem_of_In, existsb_string_In. Qed.

Lemma inv_initial cs u : inv (mkWorld cs u initialPageState).
Proof. unfold inv. simpl. repeat split; try lia; apply list_elem_of_here. Qed.

Lemma stepEvent_ui_step w e w' o : stepEvent w e = Some (w', o) -> ui_step w o w'.
Proof.
  unfold stepEvent. destruct (enabled w e) eqn:E; [|done].
  intros [= <- <-]. by constructor.
Qed.

Lemma ui_step_stepEvent w o w' : ui_step w o w' -> exists e, stepEvent w e = Some (w', o).
Proof. intros [w0 e Hen]. exists e. unfold stepEvent. by rewrite Hen. Qed.

Lemma ui_step_world w o w' :
  ui_step w o w' -> complaints w' = complaints w /\ user w' = user w.
Proof. by intros [w0 e _]. Qed.

Lemma run_world w logs w' :
  run w logs w' -> complaints w' = complaints w /\ user w' = user w.
Proof.
  induction 1 as [|w o w' logs w'' Hs _ IH]; [done|].
  destruct IH as [-> ->]. by apply ui_step_world in Hs.
Qed.

Lemma ui_step_inv w o w' : ui_step w o w' -> inv w -> inv w'.
Proof.
  intros [w0 e Hen] (Hsel & Hrat & Hph & Hcat & Hrf).
  unfold inv. rewrite complaintOptions_withPage.
  destruct e; cbn -[complaintOptions] in Hen |- *;
    unfold handleWriteReview; try destruct (submitBlocked (page w0)); cbn -[complaintOptions];
    bsimpl; repeat split; try done; try lia; try apply list_elem_of_here.
  all: first [apply string_In_elem_of; naive_solver | rewrite length_firstn; lia].
Qed.

Lemma run_inv w logs w' : run w logs w' -> inv w -> inv w'.
Proof. induction 1 as [|w o w' logs w'' Hs _ IH]; [done|]. intros Hw. by eapply IH, ui_step_inv. Qed.

Lemma runEvents_run w es w' logs : runEvents w es = Some (w', logs) -> run w logs w'.
Proof.
  revert w logs. induction es as [|e es IH]; intros w logs; simpl.
  - intros [= <- <-]. constructor.
  - destruct (stepEvent w e) as [[w1 o]|] eqn:E; [|done].
    destruct (runEvents w1 es) as [[w2 logs2]|] eqn:E2; [|done].
    intros [= <- <-]. econstructor; [by eapply stepEvent_ui_step | by apply IH].
Qed.

Lemma run_runEvents w logs w' : run w logs w' -> exists es, runEvents w es = Some (w', logs).
Proof.
  induction 1 as [w|w o w' logs w'' Hs _ [es IH]]; [by exists []|].
  apply ui_step_stepEvent in Hs as [e He]. exists (e :: es). simpl. by rewrite He, IH.
Qed.

(** Under the invariant, the code's guard and the spec's validator agree. *)
Lemma handleWriteReview_validate w :
  inv w ->
  handleWriteReview (page w) =
    match validateSubmission (eligibleOf w) (submissionOf (page w)) with
    | inr _ => (resetForm (page w), Some (submissionOf (page w)))
    | inl _ => (page w, None)
    end.
Proof.
  intros (Hsel & Hrat & _ & _ & _).
  unfold handleWriteReview, validateSubmission, submitBlocked, submissionOf. cbn.
  destruct (truthy (selectedComplaint (page w))) eqn:T; cbn; [|done].
  apply truthy_spec in T.
  apply list_elem_of_In in Hsel as [Hsel|Hsel]; [congruence|].
  apply existsb_string_In in Hsel. rewrite Hsel. cbn.
  destruct (isBlank (nr_title (newReview (page w)))); [done|].
  destruct (isBlank (nr_content (newReview (page w)))); [done|]. cbn.
  by rewrite (proj2 (Z.leb_le 1 _)), (proj2 (Z.leb_le _ 5)) by lia.
Qed.

Lemma inv_of_initial w0 : page w0 = initialPageState -> inv w0.
Proof. destruct w0 as [cs u p]. simpl. intros ->. apply inv_initial. Qed.

(** ** A concrete scenario (spec, section 8): complaint [c1], resolved,
    submitted by user [u1], who writes a review of it. *)
Definition demo_c1 : Complaint.t :=
  Complaint.mkComplaint "c1" "Broken street light" (Complaint.mkLocation "Main Street")
    Complaint.resolved "u1" (Some 5%Z).
Definition demo_u1 : User.t := User.mkUser "u1" "Citizen One".
Definition demo_w0 : World := mkWorld [demo_c1] (Some demo_u1) initialPageState.
Definition demo_fill : list Event :=
  [ClickWriteReview; SelectComplaint "c1"; ClickStar 5; InputTitle "Great";
   InputContent "Fixed fast"].
Definition demo_after (es : list Event) : World :=
  match runEvents demo_w0 es with Some (w, _) => w | None => demo_w0 end.

(** ** Properties *)

(** The executable run and the step relation agree: a sequence of
    submissions and a final world are reachable by [ui_step]s exactly when
    some list of events, each offered by the page when it happens, produces
    them. *)
Theorem run_iff_runEvents w logs w' :
  run w logs w' <-> exists es, runEvents w es = Some (w', logs).
Proof.
  split; [apply run_runEvents|]. intros [es H]. by eapply runEvents_run.
Qed.

(** C2: in every state the page reaches from its initial state, whatever
    the complaints and the user, the selected complaint is empty or one of
    the user's eligible complaints, the draft rating is between 1 and 5,
    the draft holds at most three photos, and the category and rating
    filters hold one of their options. *)
Theorem runEvents_inv w0 es w logs :
  page w0 = initialPageState -> runEvents w0 es = Some (w, logs) -> inv w.
Proof.
  intros H0 Hrun. eapply run_inv; [by eapply runEvents_run | by apply inv_of_initial].
Qed.

(** C1: refinement of the spec's validator: in every reachable state,
    [handleWriteReview] logs the draft and resets the form exactly when
    the validator of the spec accepts the draft against the current
    eligibility list, and leaves the state unchanged exactly when the
    validator rejects it. *)
Theorem handleWriteReview_refines w0 es w logs :
  page w0 = initialPageState -> runEvents w0 es = Some (w, logs) ->
  handleWriteReview (page w) =
    match validateSubmission (eligibleOf w) (submissionOf (page w)) with
    | inr _ => (resetForm (page w), Some (submissionOf (page w)))
    | inl _ => (page w, None)
    end.
Proof.
  intros H0 Hrun. apply handleWriteReview_validate.
  eapply run_inv; [by eapply runEvents_run | by apply inv_of_initial].
Qed.

(** No event of the page changes the review collection or the
    eligibility list: a logged submission is not recorded anywhere, so the
    submitted complaint stays eligible. *)
Theorem runEvents_keeps_reviews w0 es w logs :
  runEvents w0 es = Some (w, logs) ->
  reviewsOf w = reviewsOf w0 /\ eligibleOf w = eligibleOf w0.
Proof.
  intros Hrun. apply runEvents_run, run_world in Hrun as [Hc Hu].
  unfold eligibleOf, reviewsOf. by rewrite Hc, Hu.
Qed.

Lemma runEvents_inv_witness :
  page demo_w0 = initialPageState /\
  runEvents demo_w0 demo_fill = Some (demo_after demo_fill, []) /\
  inv (demo_after demo_fill).
Proof.
  split; [reflexivity|]. split; [vm_compute; reflexivity|].
  apply (runEvents_inv demo_w0 demo_fill (demo_after demo_fill) []);
    [reflexivity | vm_compute; reflexivity].
Defined.

Lemma handleWriteReview_refines_witness :
  runEvents demo_w0 demo_fill = Some (demo_after demo_fill, []) /\
  validateSubmission (eligibleOf (demo_after demo_fill))
    (submissionOf (page (demo_after demo_fill))) = inr tt /\
  handleWriteReview (page (demo_after demo_fill)) =
    (resetForm (page (demo_after demo_fill)),
     Some (submissionOf (page (demo_after demo_fill)))).
Proof.
  split; [vm_compute; reflexivity|]. split; [vm_compute; reflexivity|].
  rewrite (handleWriteReview_refines demo_w0 demo_fill (demo_after demo_fill) []);
    [vm_compute; reflexivity | reflexivity | vm_compute; reflexivity].
Defined.

(** The same user can submit a review of the same complaint twice in
    one session: after the first submission the complaint is still offered,
    and re-selecting it and filling the form in again logs a second
    submission, while the spec requires the second to fail with
    [IneligibleComplaint]. *)
Theorem double_submission :
  exists w0 es w s1 s2,
    page w0 = initialPageState /\
    runEvents w0 es = Some (w, [s1; s2]) /\
    sub_complaintId s1 = sub_complaintId s2 /\
    user w0 = Some demo_u1 /\
    In (sub_complaintId s2) (map Complaint.id (eligibleOf w)).
Proof.
  exists demo_w0, (demo_fill ++ [ClickPostReview] ++ demo_fill ++ [ClickPostReview]).
  eexists _, _, _. split; [reflexivity|]. split; [vm_compute; reflexivity|].
  split; [reflexivity|]. split; [reflexivity|]. vm_compute. by left.
Qed.

(** C3: when the complaint context changes under an open form (here the
    selected complaint is closed), the page still lets the user post the
    stale selection and logs it, although the spec's validator rejects it
    with [IneligibleComplaint]: the code checks only that a complaint is
    selected. *)
Theorem stale_selection_submitted :
  exists w0 acts w,
    page w0 = initialPageState /\
    runActions w0 acts = Some (w, []) /\
    stepEvent w ClickPostReview =
      Some (withPage w (resetForm (page w)), Some (submissionOf (page w))) /\
    validateSubmission (eligibleOf w) (submissionOf (page w)) = inl IneligibleComplaint.
Proof.
  exists demo_w0,
    (map UI demo_fill ++
     [ComplaintsChanged [Complaint.mkComplaint "c1" "Broken street light"
                          (Complaint.mkLocation "Main Street") Complaint.closed "u1" (Some 5%Z)]]).
  eexists. split; [reflexivity|]. split; [vm_compute; reflexivity|].
  split; vm_compute; reflexivity.
Qed.

End PageMachine.
