(* ===== verification/PageView.v ===== *)
(** What CommunityPage.tsx renders (lines 239-597), as the values the user
    sees: the header, the statistics panel (numbers printed as React prints
    them, by [Number::toString]; the mean with [toFixed(1)]), the "Write a
    Review" button, the write-review modal (the complaint options, the star
    buttons' classes, the inputs' values, the photo counter and whether
    "Post Review" is disabled), the filter bar (each select's value and
    options) and the review list ([ReviewList]).  The view is a function of
    the [World] of [PageMachine]; its theorems check that the machine's
    [enabled] reads exactly the controls this view renders. *)

From Stdlib Require Import String ZArith List Bool Lia.
From stdpp Require Import base tactics decidable list.
From S2P Require Import Prelude JsString Float64 NumberFormat Domain Eligibility ReviewQuery Stats ReviewList ReviewForm PageMachine.
Import ListNotations.
Open Scope string_scope.
Open Scope list_scope.

Module PageView.
Import JsString Float64 NumberFormat ReviewQuery Stats ReviewList ReviewForm PageMachine.

(** A number rendered as a JSX child: [String(n)]. *)
Definition showNumber (n : Z) : string := toString (ofZ n).

Record StatCard := mkStatCard { sc_label : string; sc_value : string }.

(** Lines 248-296: the four cards of the statistics panel. *)
Definition statsPanel (st : CommunityStats) : list StatCard := [
  mkStatCard "Total Reviews" (showNumber (totalReviews st));
  mkStatCard "Average Rating" (averageText st);
  mkStatCard "Helpful Reviews" (showNumber (helpfulReviews st));
  mkStatCard "Service Categories" (showNumber (categories st))
].

(** Lines 350-355: [`w-8 h-8 ${star <= newReview.rating ? ... : ...}`]. *)
Definition starClass (star rating : Z) : string :=
  ("w-8 h-8 " ++
   (if (star <=? rating)%Z then "text-yellow-400 fill-current" else "text-gray-300"))%string.

Record ModalView := mkModalView {
  (** [(value, label)] of each [<option>] of the complaint select *)
  mv_options : list (string * string);
  mv_selected : string;
  mv_stars : list string;
  mv_title : string;
  mv_content : string;
  mv_photoCounter : string;
  mv_postDisabled : bool
}.

(** Lines 313-433: the modal's controls. *)
Definition modalView (w : World) : ModalView :=
  let p := page w in
  mkModalView
    (("", "Choose a complaint to review") ::
       map (fun c => (Complaint.id c,
                      (Complaint.title c ++ " - " ++
                       Complaint.address (Complaint.location_ c))%string))
         (eligibleOf w))
    (selectedComplaint p)
    (map (fun star => starClass star (nr_rating (newReview p))) [1; 2; 3; 4; 5]%Z)
    (nr_title (newReview p))
    (nr_content (newReview p))
    (showNumber (Z.of_nat (length (nr_photos (newReview p)))) ++ "/3 photos")%string
    (negb (truthy (selectedComplaint p)) || isBlank (nr_title (newReview p)) ||
     isBlank (nr_content (newReview p))).

Record FilterBarView := mkFilterBarView {
  fb_search : string;
  fb_category : string;
  fb_categoryOptions : list (string * string);
  fb_rating : string;
  fb_ratingOptions : list (string * string);
  fb_sort : string;
  fb_sortOptions : list (string * string)
}.

(** Lines 436-495: each control shows its state cell. *)
Definition filterBarView (p : PageState) : FilterBarView :=
  mkFilterBarView (searchTerm p)
    (categoryFilter p)
    [("all", "All Categories"); ("water", "Water Services"); ("electricity", "Electricity");
     ("roads", "Roads & Transportation"); ("sanitation", "Sanitation");
     ("street", "Street Lighting")]
    (ratingFilter p)
    [("all", "All Ratings"); ("5", "5 Stars"); ("4", "4+ Stars"); ("3", "3+ Stars")]
    (sortByValue (sortBy p))
    [("recent", "Most Recent"); ("rating", "Highest Rating"); ("helpful", "Most Helpful")].

Record PageView := mkPageView {
  pv_title : string;
  pv_subtitle : string;
  pv_stats : list StatCard;
  (** [userResolvedComplaints.length > 0 && <button>Write a Review</button>] *)
  pv_writeButton : bool;
  (** [showWriteReview && <modal/>] *)
  pv_modal : option ModalView;
  pv_filters : FilterBarView;
  pv_list : ReviewListView
}.

(** The whole render (lines 239-597). *)
Definition renderPage (w : World) : PageView :=
  let p := page w in
  mkPageView "Community Reviews" "Share your experience and help improve public services"
    (statsPanel (communityStats (reviewsOf w)))
    (0 <? length (eligibleOf w))%nat
    (if showWriteReview p then Some (modalView w) else None)
    (filterBarView p)
    (reviewListOf (reviewsOf w) (searchTerm p) (categoryFilter p) (ratingFilter p) (sortBy p)).

(** ** Lemmas *)

Lemma showNumber_nat n :
  (0 <= n <= maxSafeInteger)%Z -> showNumber n = digitsString (toDigits n).
Proof. apply toString_nat. Qed.

(** The star buttons for a rating between 1 and 5: the first [rating]
    highlighted. *)
Lemma starClasses_spec r :
  (1 <= r <= 5)%Z ->
  map (fun star => starClass star r) [1; 2; 3; 4; 5]%Z =
    repeat "w-8 h-8 text-yellow-400 fill-current" (Z.to_nat r) ++
    repeat "w-8 h-8 text-gray-300" (5 - Z.to_nat r).
Proof.
  intros Hr. assert (r = 1 \/ r = 2 \/ r = 3 \/ r = 4 \/ r = 5)%Z as Hc by lia.
  destruct Hc as [->|[->|[->|[->| ->]]]]; reflexivity.
Qed.

(** ** Properties *)



(** The Helpful and Not Helpful buttons change nothing: each button
    the page offers belongs to the rendered card of a displayed review,
    and any sequence of clicks on them leaves the page state, the
    complaint store and so every displayed count exactly as they were,
    logging no submission. *)
Theorem vote_clicks_change_nothing w (votes : list (string * bool)) :
  Forall (fun v => enabled w (ClickVote (fst v) (snd v)) = true) votes ->
  runEvents w (map (fun v => ClickVote (fst v) (snd v)) votes) = Some (w, []) /\
  Forall (fun v => exists r, In r (displayedReviews w) /\ Review.id r = fst v /\
            pv_list (renderPage w) = Cards (map reviewCard (displayedReviews w))) votes.
Proof.
  intros Hen. split.
  - induction Hen as [|[id b] votes Hv _ IH]; [done|].
    cbn [map runEvents fst snd]. rewrite (stepEvent_vote w id b Hv), IH. done.
  - eapply Forall_impl; [exact Hen|]. intros [id b] Hv. cbn [enabled] in Hv.
    apply existsb_string_In, in_map_iff in Hv as (r & Hid & Hin).
    exists r. split; [done|]. split; [done|].
    cbn [renderPage pv_list]. unfold reviewListOf, renderReviewList.
    fold (displayedReviews w). destruct (displayedReviews w); [done|]. reflexivity.
Qed.

End PageView.
