(* ===== verification/HomePage.v ===== *)
(** The one piece of logic of HomePage.tsx (lines 44-62): two state cells,
    [isVisible] and [statsAnimated], and an effect with dependency list
    [[statsAnimated]] that sets [isVisible], and registers a scroll
    listener [handleScroll] whose closure captures the value of
    [statsAnimated] of the render that ran the effect.  When the effect
    runs again (the dependency changed) React first calls the cleanup,
    which removes the old listener.  On a scroll the listener reads the
    position of [#stats-section] ([None] when the element is absent) and
    sets [statsAnimated] when the section's top is above the bottom of the
    viewport and its captured [statsAnimated] is false.  Unmounting runs the
    cleanup; an unmounted page runs no effect. *)

From Stdlib Require Import ZArith List Bool Lia Relation_Operators.
From stdpp Require Import base tactics.
From S2P Require Import Prelude.

Module HomePage.

Record HomeState := mkHomeState {
  (** the component is mounted: unmounting ends its effects *)
  mounted : bool;
  isVisible : bool;
  statsAnimated : bool;
  (** the [statsAnimated] captured by the registered scroll listener *)
  listener : option bool;
  (** the dependency value of the last effect run *)
  effectDeps : option bool
}.

Definition initialHome : HomeState := mkHomeState true false false None None.

(** The effect runs after a render whose dependencies differ from those of
    its last run (always after the first render). *)
Definition effectDue (s : HomeState) : bool :=
  match effectDeps s with
  | Some d => negb (Bool.eqb d (statsAnimated s))
  | None => true
  end.

(** Cleanup (remove the old listener), then the effect body:
    [setIsVisible(true)] and [addEventListener('scroll', handleScroll)]. *)
Definition runEffect (s : HomeState) : HomeState :=
  mkHomeState (mounted s) true (statsAnimated s) (Some (statsAnimated s))
    (Some (statsAnimated s)).

(** [handleScroll] with its captured [statsAnimated]. *)
Definition handleScroll (captured : bool) (sectionTop : option Z) (innerHeight : Z)
    (s : HomeState) : HomeState :=
  match sectionTop with
  | Some top =>
      if (top <? innerHeight)%Z && negb captured
      then mkHomeState (mounted s) (isVisible s) true (listener s) (effectDeps s)
      else s
  | None => s
  end.

(** Unmount: the cleanup removes the listener; no effect runs afterwards. *)
Definition unmount (s : HomeState) : HomeState :=
  mkHomeState false (isVisible s) (statsAnimated s) None (effectDeps s).

Inductive home_step : HomeState -> HomeState -> Prop :=
| step_effect s : mounted s = true -> effectDue s = true -> home_step s (runEffect s)
| step_scroll s captured top h :
    listener s = Some captured -> home_step s (handleScroll captured top h s)
| step_unmount s : mounted s = true -> home_step s (unmount s).

Definition home_reachable (s : HomeState) : Prop :=
  clos_refl_trans_1n _ home_step initialHome s.

(** A listener that captured [true] was registered after the flag was set. *)
Definition home_inv (s : HomeState) : Prop :=
  listener s = Some true -> statsAnimated s = true.

(** [isVisible] is set exactly by the first run of the effect. *)
Definition visible_inv (s : HomeState) : Prop :=
  isVisible s = match effectDeps s with Some _ => true | None => false end.

(** ** Lemmas *)

Lemma home_step_monotone s s' :
  home_step s s' ->
  (statsAnimated s = true -> statsAnimated s' = true) /\
  (isVisible s = true -> isVisible s' = true).
Proof.
  destruct 1 as [s _|s captured [top|] h _|s]; simpl; try done.
  unfold handleScroll. by destruct (_ && _).
Qed.

Lemma home_step_inv s s' : home_step s s' -> home_inv s -> home_inv s'.
Proof.
  unfold home_inv. destruct 1 as [s _|s captured [top|] h Hl|s]; simpl; try done.
  - intros _ [= ->]. done.
  - intros Hi. destruct (_ && _); simpl; [done|]. exact Hi.
Qed.

Lemma home_star_inv s s' :
  clos_refl_trans_1n _ home_step s s' -> home_inv s -> home_inv s'.
Proof. induction 1 as [|s s1 s' Hs _ IH]; [done|]. intros Hi. by eapply IH, home_step_inv. Qed.

Lemma home_star_monotone s s' :
  clos_refl_trans_1n _ home_step s s' ->
  (statsAnimated s = true -> statsAnimated s' = true) /\
  (isVisible s = true -> isVisible s' = true).
Proof.
  induction 1 as [|s s1 s' Hs _ IH]; [done|].
  destruct (home_step_monotone _ _ Hs). naive_solver.
Qed.

Lemma home_star_visible s s' :
  clos_refl_trans_1n _ home_step s s' -> visible_inv s -> visible_inv s'.
Proof.
  unfold visible_inv. induction 1 as [|s s1 s' Hs _ IH]; [done|]. intros Hi. apply IH.
  destruct Hs as [s _ _|s captured [top|] h _|s _]; simpl; try done.
  unfold handleScroll. by destruct (_ && _).
Qed.

(** ** Properties *)

(** C16: along every run from the first render, [statsAnimated] and
    [isVisible] never go back from true to false, and a listener that
    captured [true] is only registered once the flag is set. *)
Theorem home_run_monotone s s' :
  clos_refl_trans_1n _ home_step s s' -> home_inv s ->
  (statsAnimated s = true -> statsAnimated s' = true) /\
  (isVisible s = true -> isVisible s' = true) /\ home_inv s'.
Proof.
  intros Hr Hi. destruct (home_star_monotone _ _ Hr) as [Ha Hv].
  split; [done|]. split; [done|]. by eapply home_star_inv.
Qed.

Lemma home_run_monotone_witness :
  clos_refl_trans_1n _ home_step initialHome (runEffect initialHome) /\
  home_inv initialHome /\
  isVisible (runEffect initialHome) = true.
Proof.
  assert (Hr : clos_refl_trans_1n _ home_step initialHome (runEffect initialHome)).
  { econstructor; [by constructor|constructor]. }
  assert (Hi : home_inv initialHome) by (unfold home_inv; simpl; discriminate).
  split; [exact Hr|]. split; [exact Hi|].
  destruct (home_run_monotone _ _ Hr Hi) as (_ & _ & _). reflexivity.
Defined.

(** In every reachable state, a scroll handled by the registered listener
    while the stats section's top is above the bottom of the viewport
    leaves [statsAnimated] set, whether the listener's captured value is
    stale or not. *)
Lemma home_scroll_sets_flag s captured top h :
  home_reachable s -> listener s = Some captured -> (top < h)%Z ->
  statsAnimated (handleScroll captured (Some top) h s) = true.
Proof.
  intros Hr Hl Htop.
  assert (Hi : home_inv s).
  { apply (home_star_inv initialHome s Hr). by unfold home_inv. }
  unfold handleScroll. rewrite (proj2 (Z.ltb_lt _ _) Htop). simpl.
  destruct captured; simpl; [by apply Hi|done].
Qed.

End HomePage.
