(* ===== verification/Landing.v ===== *)
(** The landing page of HomePage.tsx beyond its scroll listener: the six
    constant arrays it renders (lines 64-237) and the sections that render
    them (lines 291-570), each modelled by the values a section displays in
    order: the hero's stat preview ([stats.slice(0, 4)]), the partner
    marquee ([[...governmentLogos, ...governmentLogos]]), the animated
    counters, the feature cards, the "How It Works" rows (alternating
    layout), the testimonials (one star per rating point) and the awards.
    Icons are kept as the names of the lucide-react components; CSS classes
    are kept where the code computes them.  The [animationDelay] of a
    counter, [`${index * 0.2}s`], is computed on doubles and printed by
    [Number::toString]: the fourth counter's delay is
    [0.6000000000000001s]. *)

From Stdlib Require Import String Ascii ZArith List Bool Lia.
From stdpp Require Import base tactics.
From S2P Require Import Prelude Float64 NumberFormat HomePage.
Import ListNotations.
Open Scope string_scope.
Open Scope list_scope.

Module Landing.
Import Float64 NumberFormat HomePage.

Record Feature := mkFeature {
  f_icon : string; f_title : string; f_description : string; f_color : string;
  f_highlights : list string
}.
Record Stat := mkStat { s_number : string; s_label : string; s_icon : string; s_color : string }.
Record Testimonial := mkTestimonial {
  t_name : string; t_role : string; t_content : string; t_rating : nat; t_avatar : string;
  t_location : string; t_issueType : string
}.
Record GovLogo := mkGovLogo { g_name : string; g_logo : string; g_description : string }.
Record ProcessStep := mkProcessStep {
  p_step : nat; p_title : string; p_description : string; p_icon : string;
  p_features : list string
}.
Record Achievement := mkAchievement { a_icon : string; a_title : string; a_year : string }.

(** [const features] (lines 64-149). *)
Definition features : list Feature := [
  mkFeature "Smartphone" "Mobile-First Design"
    "Report issues on-the-go with our responsive mobile interface. Take photos, add GPS location, and submit complaints instantly from anywhere."
    "from-blue-500 to-cyan-500"
    ["Responsive Design"; "Touch Optimized"; "Offline Support"; "PWA Ready"];
  mkFeature "Camera" "Visual Evidence"
    "Upload photos and videos to provide clear evidence of issues. Visual documentation speeds up resolution times and improves accuracy."
    "from-purple-500 to-pink-500"
    ["Photo Upload"; "Video Support"; "Before/After"; "Auto Compression"];
  mkFeature "Bell" "Real-time Notifications"
    "Get instant updates via push notifications, SMS, and email as your complaints progress through resolution stages."
    "from-green-500 to-emerald-500"
    ["Push Notifications"; "SMS Alerts"; "Email Updates"; "Custom Preferences"];
  mkFeature "BarChart3" "Advanced Analytics"
    "Track community trends, resolution times, and service quality with comprehensive analytics dashboards and detailed reports."
    "from-orange-500 to-red-500"
    ["Performance Metrics"; "Trend Analysis"; "Custom Reports"; "Data Export"];
  mkFeature "MessageSquare" "Two-way Communication"
    "Chat directly with service providers, ask questions, and provide additional information throughout the resolution process."
    "from-indigo-500 to-purple-500"
    ["Live Chat"; "File Sharing"; "Status Updates"; "Provider Feedback"];
  mkFeature "Award" "Quality Assurance"
    "Rate and review completed work. Your feedback helps maintain high service standards across all departments and providers."
    "from-teal-500 to-blue-500"
    ["5-Star Rating"; "Written Reviews"; "Photo Evidence"; "Public Feedback"];
  mkFeature "MapPin" "Smart Location Services"
    "Precise GPS tracking and intelligent address detection ensure your complaints are routed to the correct departments instantly."
    "from-red-500 to-pink-500"
    ["GPS Integration"; "Address Validation"; "Area Mapping"; "Route Optimization"];
  mkFeature "Shield" "Enterprise Security"
    "Bank-level encryption and security protocols protect your personal information and ensure data privacy at all times."
    "from-gray-600 to-gray-800"
    ["256-bit Encryption"; "GDPR Compliant"; "Secure Storage"; "Privacy Controls"];
  mkFeature "Search" "Intelligent Search"
    "Find similar issues, track complaint history, and discover community solutions with our powerful search and filtering system."
    "from-yellow-500 to-orange-500"
    ["Smart Filters"; "Category Search"; "History Tracking"; "Similar Issues"];
  mkFeature "Layers" "Multi-Department Integration"
    "Seamlessly coordinate between different government departments and service providers for complex, multi-faceted issues."
    "from-blue-600 to-indigo-600"
    ["Cross-Department"; "Unified Workflow"; "Shared Resources"; "Coordinated Response"];
  mkFeature "Clock" "SLA Monitoring"
    "Track service level agreements and response times to ensure departments meet their commitments to citizens."
    "from-green-600 to-teal-600"
    ["Response Tracking"; "SLA Alerts"; "Performance Metrics"; "Accountability"];
  mkFeature "Headphones" "24/7 Support"
    "Round-the-clock customer support through multiple channels including chat, phone, and email for urgent issues."
    "from-purple-600 to-pink-600"
    ["24/7 Availability"; "Multi-Channel"; "Emergency Support"; "Expert Help"]
].

(** [const stats] (lines 151-156). *)
Definition stats : list Stat := [
  mkStat "50,000+" "Issues Resolved" "CheckCircle" "text-green-500";
  mkStat "25,000+" "Active Citizens" "Users" "text-blue-500";
  mkStat "99.2%" "Satisfaction Rate" "ThumbsUp" "text-purple-500";
  mkStat "1.8 days" "Avg Resolution" "Clock" "text-orange-500"
].

(** [const testimonials] (lines 158-186). *)
Definition testimonials : list Testimonial := [
  mkTestimonial "Sarah Johnson" "Local Business Owner"
    "The pothole outside my shop was fixed in just 2 days! The entire process was transparent, and I received updates every step of the way. This platform has revolutionized how we interact with city services."
    5 "https://images.pexels.com/photos/774909/pexels-photo-774909.jpeg?auto=compress&cs=tinysrgb&w=150&h=150&fit=crop" "Downtown District" "Road Maintenance";
  mkTestimonial "Michael Chen" "Community Volunteer"
    "As someone who organizes neighborhood cleanups, this platform has been invaluable. I can report multiple issues at once, track their progress, and even coordinate with other volunteers. Absolutely fantastic!"
    5 "https://images.pexels.com/photos/1222271/pexels-photo-1222271.jpeg?auto=compress&cs=tinysrgb&w=150&h=150&fit=crop" "Riverside Community" "Sanitation Services";
  mkTestimonial "Emily Rodriguez" "Parent & Resident"
    "The broken streetlight near the school playground was a safety concern for months. Through PublicCare, it was reported, prioritized, and fixed within a week. My kids can now play safely after dark."
    5 "https://images.pexels.com/photos/1239291/pexels-photo-1239291.jpeg?auto=compress&cs=tinysrgb&w=150&h=150&fit=crop" "Maple Heights" "Street Lighting"
].

(** [const governmentLogos] (lines 188-199). *)
Definition governmentLogos : list GovLogo := [
  mkGovLogo "Department of Public Works" "üèóÔ∏è" "Infrastructure & Maintenance";
  mkGovLogo "Water & Utilities Authority" "üíß" "Water & Sewer Services";
  mkGovLogo "Electric Power Company" "‚ö°" "Electrical Infrastructure";
  mkGovLogo "Transportation Department" "üöå" "Roads & Public Transit";
  mkGovLogo "Sanitation Services" "üóëÔ∏è" "Waste Management";
  mkGovLogo "City Planning Office" "üèõÔ∏è" "Urban Development";
  mkGovLogo "Emergency Services" "üö®" "Public Safety";
  mkGovLogo "Parks & Recreation" "üå≥" "Green Spaces";
  mkGovLogo "Environmental Agency" "üåç" "Environmental Protection";
  mkGovLogo "Housing Authority" "üè†" "Public Housing"
].

(** [const processSteps] (lines 201-230). *)
Definition processSteps : list ProcessStep := [
  mkProcessStep 1 "Report the Issue"
    "Submit your complaint with photos, location, and detailed description using our intuitive form."
    "FileText" ["Photo/Video Upload"; "GPS Location"; "Category Selection"; "Priority Setting"];
  mkProcessStep 2 "Automatic Routing"
    "Our system automatically routes your complaint to the appropriate department based on type and location."
    "Target" ["Smart Routing"; "Department Assignment"; "Priority Queue"; "SLA Tracking"];
  mkProcessStep 3 "Track Progress"
    "Monitor real-time updates as authorities work to resolve your issue with full transparency."
    "Eye" ["Live Updates"; "Progress Photos"; "Timeline View"; "Communication Log"];
  mkProcessStep 4 "Issue Resolved"
    "Receive confirmation with evidence and provide feedback on the resolution quality."
    "CheckCircle" ["Resolution Photos"; "Quality Rating"; "Feedback System"; "Case Closure"]
].

(** [const achievements] (lines 232-237). *)
Definition achievements : list Achievement := [
  mkAchievement "Award" "Excellence in Digital Government" "2024";
  mkAchievement "Users" "Community Choice Award" "2023";
  mkAchievement "TrendingUp" "Innovation in Public Service" "2023";
  mkAchievement "Heart" "Citizen Satisfaction Leader" "2024"
].

(** ** Rendered sections *)

(** [array.map((x, index) => ...)]: each element with its index. *)
Definition enumerate {A : Type} (l : list A) : list (nat * A) := combine (seq 0 (length l)) l.

Record HeroStatsView := mkHeroStatsView {
  hero_class : string;
  hero_items : list (string * string)
}.

(** Lines 291-303: [isVisible ? 'animate-fadeInUp' : 'opacity-0'] and
    [stats.slice(0, 4)]. *)
Definition heroStatsView (isVisible : bool) : HeroStatsView :=
  mkHeroStatsView (if isVisible then "animate-fadeInUp" else "opacity-0")
    (map (fun st => (s_number st, s_label st)) (firstn 4 stats)).

Record HeroElement := mkHeroElement {
  he_name : string; he_class : string; he_delay : option string
}.

(** Lines 255-288: the hero's logo, title, tagline and call-to-action
    buttons, each hidden ([opacity-0]) until [isVisible], then animated;
    [style={{ animationDelay: ... }}] where the code sets one. *)
Definition heroView (isVisible : bool) : list HeroElement := [
  mkHeroElement "logo" (if isVisible then "animate-fadeInUp" else "opacity-0") None;
  mkHeroElement "title" (if isVisible then "animate-slideInLeft" else "opacity-0") None;
  mkHeroElement "tagline" (if isVisible then "animate-slideInRight" else "opacity-0") (Some "0.3s");
  mkHeroElement "actions" (if isVisible then "animate-fadeInUp" else "opacity-0") (Some "0.6s")
].

Record PartnerCard := mkPartnerCard {
  pc_key : nat; pc_logo : string; pc_name : string; pc_description : string
}.

(** Lines 323-334: the partner list twice, keyed by index. *)
Definition marqueeView (logos : list GovLogo) : list PartnerCard :=
  map (fun '(i, org) => mkPartnerCard i (g_logo org) (g_name org) (g_description org))
    (enumerate (logos ++ logos)).

Record CounterView := mkCounterView {
  cv_key : nat; cv_class : string; cv_delay : string; cv_number : string; cv_label : string
}.

(** [`${index * 0.2}s`]: the product of doubles, printed by [Number::toString]. *)
Definition counterDelay (index : nat) : string :=
  (toString (mul (ofZ (Z.of_nat index)) (ofQ 1 5)) ++ "s")%string.

(** Lines 350-364: [statsAnimated ? 'animate-countUp' : 'opacity-0'] and
    the animation delay. *)
Definition statsSectionView (statsAnimated : bool) : list CounterView :=
  map (fun '(i, st) =>
         mkCounterView i (if statsAnimated then "animate-countUp" else "opacity-0")
           (counterDelay i) (s_number st) (s_label st))
    (enumerate stats).

Record FeatureCard := mkFeatureCard {
  fc_key : nat; fc_color : string; fc_icon : string; fc_title : string; fc_description : string;
  fc_highlights : list (nat * string)
}.

(** Lines 381-406. *)
Definition featuresView : list FeatureCard :=
  map (fun '(i, f) =>
         mkFeatureCard i (f_color f) (f_icon f) (f_title f) (f_description f)
           (enumerate (f_highlights f)))
    (enumerate features).

Record StepRow := mkStepRow {
  sr_key : nat; sr_layout : string; sr_number : nat; sr_title : string;
  sr_description : string; sr_features : list (nat * string); sr_icon : string
}.

(** Lines 467-497: [isEven = index % 2 === 0] picks the row direction. *)
Definition processStepsView (steps : list ProcessStep) : list StepRow :=
  map (fun '(i, st) =>
         mkStepRow i (if Nat.eqb (Nat.modulo i 2) 0 then "lg:flex-row" else "lg:flex-row-reverse")
           (p_step st) (p_title st) (p_description st) (enumerate (p_features st)) (p_icon st))
    (enumerate steps).

Record TestimonialCard := mkTestimonialCard {
  tc_key : nat; tc_avatar : string; tc_name : string; tc_role : string; tc_location : string;
  tc_starKeys : list nat; tc_quote : string; tc_issue : string
}.

Definition dquote : string := String (ascii_of_nat 34) EmptyString.

(** Lines 512-541: [[...Array(testimonial.rating)].map((_, i) => <Star key={i} />)]
    and the content between quotation marks. *)
Definition testimonialsView : list TestimonialCard :=
  map (fun '(i, t) =>
         mkTestimonialCard i (t_avatar t) (t_name t) (t_role t) (t_location t)
           (seq 0 (t_rating t)) (dquote ++ t_content t ++ dquote)%string
           ("Issue Type: " ++ t_issueType t)%string)
    (enumerate testimonials).

Record AchievementCard := mkAchievementCard {
  ac_key : nat; ac_icon : string; ac_title : string; ac_year : string
}.

(** Lines 556-566. *)
Definition achievementsView : list AchievementCard :=
  map (fun '(i, a) => mkAchievementCard i (a_icon a) (a_title a) (a_year a)) (enumerate achievements).

(** ** Lemmas *)

Lemma map_enumerate_from {A B : Type} (h : A -> B) (l : list A) (k : nat) :
  map (fun '(_, x) => h x) (combine (seq k (length l)) l) = map h l.
Proof. revert k. induction l as [|x l IH]; intros k; simpl; [done|]. by rewrite IH. Qed.

Lemma map_enumerate_index_from {A B : Type} (h : nat -> B) (l : list A) (k : nat) :
  map (fun '(i, _) => h i) (combine (seq k (length l)) l) = map h (seq k (length l)).
Proof. revert k. induction l as [|x l IH]; intros k; simpl; [done|]. by rewrite IH. Qed.

(** ** Properties *)

(** The "How It Works" rows alternate their direction, starting with
    [lg:flex-row] at index 0, and show the step numbers of the data, which
    for the page's four steps are 1, 2, 3, 4 in order. *)
Theorem processStepsView_spec (steps : list ProcessStep) :
  map sr_layout (processStepsView steps) =
    map (fun i => if Nat.eqb (Nat.modulo i 2) 0 then "lg:flex-row" else "lg:flex-row-reverse")
      (seq 0 (length steps)) /\
  map sr_number (processStepsView steps) = map p_step steps /\
  map sr_number (processStepsView processSteps) = [1; 2; 3; 4].
Proof.
  unfold processStepsView, enumerate. rewrite !map_map. split; [|split].
  - rewrite <- (map_enumerate_index_from _ steps 0). apply map_ext. by intros [i st].
  - rewrite <- (map_enumerate_from p_step steps 0). apply map_ext. by intros [i st].
  - reflexivity.
Qed.

(** The stats counters' animation delays, [`${index * 0.2}s`]
    computed in binary floating point: the fourth is
    [0.6000000000000001s], not [0.6s]; every delay reads back as the
    double [index * 0.2]. *)
Theorem counter_delays b :
  map cv_delay (statsSectionView b) = ["0s"; "0.2s"; "0.4s"; "0.6000000000000001s"] /\
  stringToNumber "0.6000000000000001" = mul (ofZ 3) (ofQ 1 5) /\
  stringToNumber "0.6" <> mul (ofZ 3) (ofQ 1 5).
Proof. split; [destruct b; vm_compute; reflexivity|]. split; vm_compute; [reflexivity|discriminate]. Qed.

(** C19: the hero section is hidden ([opacity-0] on its four elements and
    on the stats preview) exactly until the page's effect has run once;
    from then on, in every reachable state, they carry their animation
    classes. *)
Theorem hero_reveal s :
  home_reachable s ->
  map he_class (heroView (isVisible s)) =
    match effectDeps s with
    | Some _ =>
        ["animate-fadeInUp"; "animate-slideInLeft"; "animate-slideInRight"; "animate-fadeInUp"]
    | None => ["opacity-0"; "opacity-0"; "opacity-0"; "opacity-0"]
    end /\
  hero_class (heroStatsView (isVisible s)) =
    match effectDeps s with Some _ => "animate-fadeInUp" | None => "opacity-0" end.
Proof.
  intros Hr. pose proof (home_star_visible _ _ Hr ltac:(done)) as Hv.
  unfold visible_inv in Hv. rewrite Hv. by destruct (effectDeps s).
Qed.

Lemma hero_reveal_witness :
  home_reachable (runEffect initialHome) /\
  map he_class (heroView (isVisible (runEffect initialHome))) =
    ["animate-fadeInUp"; "animate-slideInLeft"; "animate-slideInRight"; "animate-fadeInUp"].
Proof.
  assert (Hr : home_reachable (runEffect initialHome)).
  { econstructor; [by constructor|constructor]. }
  split; [exact Hr|]. apply (hero_reveal _ Hr).
Defined.

End Landing.
