(* ===== verification/HomeView.v ===== *)
(** The whole landing page of HomePage.tsx as one document (lines 238-685):
    its sections in order, each with its [id] attribute, its heading and
    subheading, and its body: the parts of [Landing] (hero, partner
    marquee, counters, feature cards, process rows, testimonials, awards)
    and the static parts they sit between (the hero's background circles
    and links, the "Why Choose PublicCare?" cards, the call-to-action and
    the footer).  JSX text is kept as the browser receives it: a text that
    spans several source lines is joined with single spaces, and [&copy;]
    is the character it denotes.  The document is rendered from the two
    state cells of [HomePage]; [getElementById] is the DOM lookup the
    scroll listener performs on it. *)

From Stdlib Require Import String Ascii ZArith List Bool Lia Relation_Operators.
From stdpp Require Import base tactics.
From S2P Require Import Prelude Encoding HomePage Landing.

Module HomeView.
Import Encoding HomePage Landing.

Record LinkView := mkLink { link_to : string; link_label : string }.

Record WhyCard := mkWhyCard {
  wc_icon : string; wc_gradient : string; wc_title : string; wc_text : string
}.

Record FooterColumn := mkFooterColumn { fcol_title : string; fcol_links : list LinkView }.

Inductive SectionBody :=
| HeroBody (floatDelays : list (option string)) (elements : list HeroElement)
    (links : list LinkView) (previewDelay : string) (preview : HeroStatsView)
| PartnersBody (cards : list PartnerCard)
| CountersBody (counters : list CounterView)
| FeaturesBody (cards : list FeatureCard) (whyTitle : string) (why : list WhyCard)
| StepsBody (rows : list StepRow)
| TestimonialsBody (cards : list TestimonialCard)
| AwardsBody (cards : list AchievementCard)
| CtaBody (links : list LinkView) (perks : string)
| FooterBody (brand : string) (blurb : string) (social : list string)
    (columns : list FooterColumn) (contact : list (string * string))
    (copyright : string) (legal : list LinkView).

Record SectionView := mkSectionView {
  sec_id : option string;
  sec_heading : list string;
  sec_subheading : string;
  sec_body : SectionBody
}.

(** Lines 246-249: the floating circles; the first has no delay. *)
Definition heroFloatDelays : list (option string) := [None; Some "2s"; Some "4s"; Some "1s"].

(** Lines 272-287: the hero's two links. *)
Definition heroLinks : list LinkView :=
  [mkLink "/signup" "Get Started Free"; mkLink "/login" "Sign In"].

(** Lines 415-454: the four "Why Choose PublicCare?" cards. *)
Definition whyChoose : list WhyCard := [
  mkWhyCard "Cloud" "from-blue-500 to-cyan-500" "Cloud-Native"
    "Scalable, reliable infrastructure that grows with your community";
  mkWhyCard "Wifi" "from-green-500 to-emerald-500" "Always Connected"
    "Real-time synchronization across all devices and platforms";
  mkWhyCard "Database" "from-purple-500 to-pink-500" "Data-Driven"
    "Advanced analytics and insights to improve service delivery";
  mkWhyCard "Monitor" "from-orange-500 to-red-500" "Multi-Platform"
    "Works seamlessly on web, mobile, and tablet devices"
].

(** Lines 583-596: the call-to-action links. *)
Definition ctaLinks : list LinkView :=
  [mkLink "/signup" "Create Free Account"; mkLink "/login" "Sign In Now"].

(** Line 600, byte for byte. *)
Definition ctaPerks : string :=
  "‚úì Free to use  ‚úì No credit card required  ‚úì Instant access".

(** Lines 631-649: the Platform and Support columns. *)
Definition footerColumns : list FooterColumn := [
  mkFooterColumn "Platform"
    [mkLink "/signup" "Get Started"; mkLink "/features" "Features";
     mkLink "/pricing" "Pricing"; mkLink "/mobile" "Mobile App"];
  mkFooterColumn "Support"
    [mkLink "/help" "Help Center"; mkLink "/contact" "Contact Us";
     mkLink "/status" "System Status"; mkLink "/community" "Community"]
].

(** Lines 651-667: the contact lines, each with its icon. *)
Definition footerContact : list (string * string) := [
  ("Phone", "+1 (555) 123-4567"); ("Mail", "support@publiccare.gov");
  ("Globe", "www.publiccare.gov")
].

(** Lines 675-679: the legal links. *)
Definition legalLinks : list LinkView := [
  mkLink "/privacy" "Privacy Policy"; mkLink "/terms" "Terms of Service";
  mkLink "/accessibility" "Accessibility"
].

(** Lines 242-305: the hero. *)
Definition heroSection (isVisible : bool) : SectionView :=
  mkSectionView None ["Transform Your"; "Community Experience"]
    "Join over 25,000 citizens using our award-winning platform to report issues, track progress, and create positive change in their communities with unprecedented transparency and efficiency."
    (HeroBody heroFloatDelays (heroView isVisible) heroLinks "0.9s" (heroStatsView isVisible)).

(** Lines 308-338: the partner marquee. *)
Definition partnersSection : SectionView :=
  mkSectionView None ["Trusted Government Partners"]
    "Collaborating with leading institutions to serve you better"
    (PartnersBody (marqueeView governmentLogos)).

(** Lines 341-368: the counters, the one element with an [id]. *)
Definition statsSection (statsAnimated : bool) : SectionView :=
  mkSectionView (Some "stats-section") ["Impact by the Numbers"]
    "Real results from real communities"
    (CountersBody (statsSectionView statsAnimated)).

(** Lines 371-456: the feature cards and the "Why Choose" block. *)
Definition featuresSection : SectionView :=
  mkSectionView None ["Powerful Features for Everyone"]
    "Our comprehensive platform provides everything you need to report, track, and resolve public service issues with unprecedented ease and transparency."
    (FeaturesBody featuresView "Why Choose PublicCare?" whyChoose).

(** Lines 459-501. *)
Definition stepsSection : SectionView :=
  mkSectionView None ["How It Works"] "Four simple steps to transform your community"
    (StepsBody (processStepsView processSteps)).

(** Lines 504-545. *)
Definition testimonialsSection : SectionView :=
  mkSectionView None ["Success Stories"] "Real people, real results, real impact"
    (TestimonialsBody testimonialsView).

(** Lines 548-570. *)
Definition awardsSection : SectionView :=
  mkSectionView None ["Awards & Recognition"]
    "Recognized for excellence in digital government services"
    (AwardsBody achievementsView).

(** Lines 573-603: the call-to-action. *)
Definition ctaSection : SectionView :=
  mkSectionView None ["Ready to Transform Your Community?"]
    "Join thousands of citizens who are already making a difference with PublicCare. Your voice matters, and together we can build better communities."
    (CtaBody ctaLinks ctaPerks).

(** Lines 606-683: the footer. *)
Definition footerSection : SectionView :=
  mkSectionView None [] ""
    (FooterBody "PublicCare"
       "Empowering communities through transparent and efficient public service management. Building bridges between citizens and government for a better tomorrow."
       ["f"; "t"; "in"] footerColumns footerContact
       "© 2024 PublicCare. All rights reserved. Built for the people, by the people."
       legalLinks).

(** The page rendered from the state cells [isVisible] and [statsAnimated]
    (lines 238-686), its sections in document order. *)
Definition homePageView (isVisible statsAnimated : bool) : list SectionView :=
  [heroSection isVisible; partnersSection; statsSection statsAnimated; featuresSection;
   stepsSection; testimonialsSection; awardsSection; ctaSection; footerSection].

(** The element carries the attribute [id]. *)
Definition hasId (id : string) (sec : SectionView) : bool :=
  match sec_id sec with Some i => String.eqb i id | None => false end.

(** [document.getElementById(id)]: the first element with that [id]. *)
Definition getElementById (id : string) (doc : list SectionView) : option SectionView :=
  find (hasId id) doc.

(** The [top] the listener reads: [statsSection.getBoundingClientRect().top]
    under a layout [top] of the sections, when the element exists. *)
Definition statsSectionTop (top : SectionView -> Z) (doc : list SectionView) : option Z :=
  option_map top (getElementById "stats-section" doc).

(** The counters of a document, in order. *)
Definition sec_counters (doc : list SectionView) : list CounterView :=
  flat_map (fun sec => match sec_body sec with CountersBody cs => cs | _ => [] end) doc.

(** What the partner logos and the perks line were meant to show: the
    emoji 🏗️ 💧 ⚡ 🚌 🗑️ 🏛️ 🚨 🌳 🌍 🏠 and the check mark ✓, as code points. *)
Definition intendedLogos : list (list Z) := [
  [0x1F3D7; 0xFE0F]; [0x1F4A7]; [0x26A1]; [0x1F68C]; [0x1F5D1; 0xFE0F];
  [0x1F3DB; 0xFE0F]; [0x1F6A8]; [0x1F333]; [0x1F30D]; [0x1F3E0]
]%Z.

Definition ctaPerksIntended : list Z :=
  (0x2713 :: bytesOf " Free to use  " ++ 0x2713 :: bytesOf " No credit card required  " ++
   0x2713 :: bytesOf " Instant access")%Z.

(** ** Lemmas *)

Lemma getElementById_stats v a :
  getElementById "stats-section" (homePageView v a) = Some (statsSection a).
Proof. reflexivity. Qed.

Lemma stats_section_unique v a :
  length (List.filter (hasId "stats-section") (homePageView v a)) = 1%nat.
Proof. reflexivity. Qed.

Lemma intended_valid : Forall (Forall validCodePoint) intendedLogos /\
                       Forall validCodePoint ctaPerksIntended.
Proof.
  split; [|apply validCodePoints_check; vm_compute; reflexivity].
  apply Forall_forall. intros l Hl. apply validCodePoints_check. revert l Hl.
  apply (proj1 (forallb_forall _ _)). vm_compute. reflexivity.
Qed.

(** ** Properties *)

(** C21: the scroll listener and the page it is attached to agree: in every
    document the landing page renders, [document.getElementById('stats-section')]
    finds exactly one element, the section of the animated counters; so in
    every reachable state, a scroll with that section's top above the
    bottom of the viewport (whatever the layout) sets [statsAnimated], and
    the next render animates every counter. *)
Theorem scroll_reaches_stats_section s captured (top : SectionView -> Z) h :
  home_reachable s -> listener s = Some captured ->
  let doc := homePageView (isVisible s) (statsAnimated s) in
  exists sec,
    getElementById "stats-section" doc = Some sec /\
    sec_body sec = CountersBody (statsSectionView (statsAnimated s)) /\
    length (List.filter (hasId "stats-section") doc) = 1%nat /\
    ((top sec < h)%Z ->
     let s' := handleScroll captured (statsSectionTop top doc) h s in
     statsAnimated s' = true /\
     map cv_class (sec_counters (homePageView (isVisible s') (statsAnimated s'))) =
       repeat "animate-countUp" (length stats)).
Proof.
  intros Hr Hl doc. exists (statsSection (statsAnimated s)).
  unfold doc, statsSectionTop. rewrite getElementById_stats, stats_section_unique.
  split; [done|]. split; [done|]. split; [done|]. intros Htop. cbn [option_map].
  pose proof (home_scroll_sets_flag s captured _ h Hr Hl Htop) as Ha.
  split; [exact Ha|]. rewrite Ha. reflexivity.
Qed.

Lemma scroll_reaches_stats_section_witness :
  (home_reachable (runEffect initialHome) /\ listener (runEffect initialHome) = Some false) /\
  let s := runEffect initialHome in
  let doc := homePageView (isVisible s) (statsAnimated s) in
  exists sec,
    getElementById "stats-section" doc = Some sec /\
    sec_body sec = CountersBody (statsSectionView (statsAnimated s)) /\
    length (List.filter (hasId "stats-section") doc) = 1%nat /\
    ((120 < 800)%Z ->
     let s' := handleScroll false (statsSectionTop (fun _ => 120%Z) doc) 800 s in
     statsAnimated s' = true /\
     map cv_class (sec_counters (homePageView (isVisible s') (statsAnimated s'))) =
       repeat "animate-countUp" (length stats)).
Proof.
  assert (Hr : home_reachable (runEffect initialHome)).
  { econstructor; [by constructor|constructor]. }
  split; [split; [exact Hr|reflexivity]|].
  exact (scroll_reaches_stats_section (runEffect initialHome) false (fun _ => 120%Z) 800
           Hr eq_refl).
Defined.

(** The partner logos (lines 189-198) and the check marks of the
    call-to-action (line 600) are mojibake: each string of the source is
    the UTF-8 text of the intended emoji or check mark, read byte by byte
    as Mac OS Roman and saved again as UTF-8.  The page therefore shows,
    for each logo, one Mac OS Roman character per byte of the emoji (such
    as "üèóÔ∏è" for 🏗️) and "‚úì" for ✓; the intended characters can be
    recovered exactly. *)
Theorem partner_logos_mojibake :
  map (fun g => bytesOf (g_logo g)) governmentLogos = map misread intendedLogos /\
  bytesOf ctaPerks = misread ctaPerksIntended /\
  map (fun g => utf8Decode (bytesOf (g_logo g))) governmentLogos =
    map (fun cps => Some (map macRoman (utf8EncodeAll cps))) intendedLogos /\
  map (fun g => repair (bytesOf (g_logo g))) governmentLogos = map Some intendedLogos /\
  repair (bytesOf ctaPerks) = Some ctaPerksIntended.
Proof.
  assert (Hl : map (fun g => bytesOf (g_logo g)) governmentLogos = map misread intendedLogos)
    by (vm_compute; reflexivity).
  assert (Hc : bytesOf ctaPerks = misread ctaPerksIntended) by (vm_compute; reflexivity).
  destruct intended_valid as [Hv Hvc].
  split; [exact Hl|]. split; [exact Hc|]. split; [vm_compute; reflexivity|].
  split; [|rewrite Hc; by apply repair_misread].
  rewrite <- (map_map (fun g => bytesOf (g_logo g)) repair), Hl, map_map.
  clear -Hv. induction Hv as [|l ls Hl _ IH]; [done|]. cbn [map].
  by rewrite repair_misread, IH.
Qed.

End HomeView.
